(** * MCP4EDA: the orchestration core of [src/index.ts]

    A shallow embedding of the EDA tool server: parameter validation, the
    process runner with its kill timer, the project registry, the six flow
    drivers and the tool-call handler, followed by the properties that the
    specification states about them.

    Conventions of the embedding.
    - A JavaScript string is a [string]; one character stands for one
      UTF-16 code unit.
    - A value that the source serialises with [JSON.stringify(v, null, 2)]
      is kept as the [json] value [v] being serialised.
    - An [async] function is a [prog]: a tree of calls to the outside world
      (file system, child processes, [Math.random], the console) whose
      answers the environment chooses; [await] of a rejected promise throws.
    - Node built-ins whose code is not part of the repository ([path.join],
      [path.basename], the regular-expression engine, [parseInt],
      [parseFloat]) are fields of the [Platform] class.
    - A JavaScript number is a [number]: a rational, one of the two
      infinities or NaN; [JSON.stringify] writes the last three as
      [null]. *)

From Stdlib Require Import String Ascii List ZArith QArith Lia Bool.
From stdpp Require Import base option list gmap strings pretty sorting.

Local Open Scope list_scope.
Set Warnings "-register-all".

(** ** JavaScript strings *)

Module JsString.

(** The double quote and the line feed, which the source writes inside
    template literals. *)
Definition dq : string := String (ascii_of_nat 34) EmptyString.
Definition nl : string := String (ascii_of_nat 10) EmptyString.

(** [s.substring(start, end)]: both indices are clamped to the length and
    swapped when [start > end]. *)
Definition substring (start stop : nat) (s : string) : string :=
  let lo := Nat.min start stop in
  let hi := Nat.max start stop in
  String.substring lo (hi - lo) s.

(** [s.endsWith(suffix)]. *)
Definition endsWith (suffix s : string) : bool :=
  let n := String.length s in
  let k := String.length suffix in
  (k <=? n)%nat && String.eqb (String.substring (n - k) k s) suffix.

(** [s.includes(needle)]. *)
Fixpoint includes (needle s : string) : bool :=
  String.prefix needle s ||
  match s with
  | EmptyString => false
  | String _ rest => includes needle rest
  end.

(** [s.toLowerCase()] on one code unit below 256: the ASCII capitals and
    the Latin-1 capitals (all of 192..222 but the multiplication sign). *)
Definition lower_char (c : ascii) : ascii :=
  let n := nat_of_ascii c in
  if ((65 <=? n) && (n <=? 90))%nat then ascii_of_nat (n + 32)
  else if ((192 <=? n) && (n <=? 222) && negb (n =? 215))%nat
       then ascii_of_nat (n + 32)
  else c.

Fixpoint toLowerCase (s : string) : string :=
  match s with
  | EmptyString => EmptyString
  | String c rest => String (lower_char c) (toLowerCase rest)
  end.

(** [parts.join(sep)]. *)
Fixpoint join (sep : string) (parts : list string) : string :=
  match parts with
  | [] => ""
  | [p] => p
  | p :: rest => p +:+ sep +:+ join sep rest
  end.

(** [hay] contains [needle] as a contiguous piece. *)
Definition contains (needle hay : string) : Prop :=
  ∃ before after, hay = before +:+ needle +:+ after.

(** The default order of [Array.prototype.sort] on strings: code units,
    left to right, a proper prefix first. *)
Definition sort (l : list string) : list string :=
  merge_sort String.le l.

End JsString.

(** ** JSON values and errors *)

Inductive json : Type :=
| JNull
| JBool (b : bool)
| JNum (x : Q)
| JStr (s : string)
| JArr (items : list json)
| JObj (fields : list (string * json)).

(** The value of property [key] of an object literal, if it has one. *)
Fixpoint assoc (key : string) (fields : list (string * json)) : option json :=
  match fields with
  | [] => None
  | (k, v) :: rest => if String.eqb k key then Some v else assoc key rest
  end.

Definition field (key : string) (j : json) : option json :=
  match j with
  | JObj fields => assoc key fields
  | _ => None
  end.

(** A JavaScript number: a finite value, or one of the three values that
    [JSON.stringify] writes as [null]. *)
Inductive number := Finite (x : Q) | PlusInfinity | MinusInfinity | NaN.

(** What [JSON.stringify] writes for a property that holds [null] or a
    number. *)
Definition metric_json (value : option number) : json :=
  match value with
  | Some (Finite x) => JNum x
  | _ => JNull
  end.

(** [n >= 0]. *)
Definition at_least_zero (n : number) : bool :=
  match n with
  | Finite x => Qle_bool 0 x
  | PlusInfinity => true
  | MinusInfinity | NaN => false
  end.

(** The error codes of the protocol SDK that the server uses. *)
Inductive ErrorCode := InvalidParams | MethodNotFound | InternalError.

Definition code_number (c : ErrorCode) : Z :=
  match c with
  | InvalidParams => -32602
  | MethodNotFound => -32601
  | InternalError => -32603
  end.

(** A thrown value: a plain [Error] with its name and message, or the SDK's
    [McpError] with the code and the message given to its constructor. *)
Inductive js_error : Type :=
| JsError (name message : string)
| McpError (code : ErrorCode) (message : string).

Definition Error (message : string) : js_error := JsError "Error" message.

(** [error.message]; the SDK prefixes the message of an [McpError]. *)
Definition message_of (e : js_error) : string :=
  match e with
  | JsError _ m => m
  | McpError c m => "MCP error " +:+ pretty (code_number c) +:+ ": " +:+ m
  end.

(** [String(error)], that is [Error.prototype.toString]. *)
Definition String_of (e : js_error) : string :=
  let name := match e with JsError n _ => n | McpError _ _ => "McpError" end in
  let msg := message_of e in
  if String.eqb name "" then msg
  else if String.eqb msg "" then name
  else name +:+ ": " +:+ msg.

(** [error.message || String(error)], the text every driver reports. *)
Definition message_or_string (e : js_error) : string :=
  if String.eqb (message_of e) "" then String_of e else message_of e.

(** ** Helper functions (index.ts, lines 21-46) *)

(** The [arguments] of a tool call: [undefined] or a plain object. *)
Abbreviation arguments := (option (gmap string json)).

Definition getStringProperty (obj : arguments) (key : string)
    (defaultValue : string) : string :=
  match obj with
  | Some o =>
      match o !! key with
      | Some value => match value with JStr s => s | _ => defaultValue end
      | None => defaultValue
      end
  | None => defaultValue
  end.

Definition getNumberProperty (obj : arguments) (key : string)
    (defaultValue : Q) : Q :=
  match obj with
  | Some o =>
      match o !! key with
      | Some value => match value with JNum x => x | _ => defaultValue end
      | None => defaultValue
      end
  | None => defaultValue
  end.

Definition missing_parameter (key toolName : string) : string :=
  "Missing required parameter '" +:+ key +:+ "' for tool '" +:+ toolName +:+ "'".

(** [validateRequiredString]: the value, or the error it throws. *)
Definition validateRequiredString (obj : arguments) (key toolName : string)
    : js_error + string :=
  let value := getStringProperty obj key "" in
  if String.eqb value "" then
    inl (McpError InvalidParams (missing_parameter key toolName))
  else inr value.

(** ** Asynchronous programs *)

(** How a promise ends. *)
Inductive settled (A : Type) : Type :=
| Fulfilled (value : A)
| Rejected (reason : js_error).
Arguments Fulfilled {A} value.
Arguments Rejected {A} reason.

Inductive signal := SIGKILL | SIGTERM.

(** The options object given to [exec]; an absent property is [None]. *)
Record ExecOptions := {
  cwd : option string;
  timeout : option N;
  env_PATH : option string;
  maxBuffer : option N;
  shell : option bool;
  encoding : option string;
}.

Definition no_options : ExecOptions :=
  {| cwd := None; timeout := None; env_PATH := None; maxBuffer := None;
     shell := None; encoding := None |}.

(** [{...base, ...over}]: a property of [over] wins when it is present. *)
Definition spread (base over : ExecOptions) : ExecOptions :=
  let pick {A} (f : ExecOptions → option A) :=
    match f over with Some v => Some v | None => f base end in
  {| cwd := pick cwd; timeout := pick timeout; env_PATH := pick env_PATH;
     maxBuffer := pick maxBuffer; shell := pick shell;
     encoding := pick encoding |}.

(** What is written to a file: text, or [JSON.stringify(j, null, 2)]. *)
Inductive file_data := Text (s : string) | JsonText (j : json).

(** What the event loop can run for one [exec] child: the kill timer's
    callback, or the completion callback of [exec]. *)
Inductive exec_event :=
| TimerExpires
| ExecCallback (error : option js_error) (stdout stderr : string).

(** The same for one [spawn] child. *)
Inductive spawn_event :=
| SpawnTimerExpires
| StdoutData (chunk : string)
| StderrData (chunk : string)
| Close (code : option Z)
| ErrorEvent (error : js_error).

(** The calls the server makes to the outside world, indexed by the type of
    the answer.  [MathRandomToString36] answers with the base-36 digits
    that [Math.random().toString(36)] prints after the point. *)
Inductive call : Type → Type :=
| MathRandomToString36 : call (list nat)
| FsMkdir (path : string) : call (settled unit)
| FsWriteFile (path : string) (data : file_data) : call (settled unit)
| FsReadFile (path : string) : call (settled string)
| FsReaddir (path : string) : call (settled (list string))
| FsAccess (path : string) : call (settled unit)
| ExecAsync (command : string) (options : ExecOptions)
    : call (settled (string * string))
| ChildProcessExec (command : string) (options : ExecOptions) (timeoutMs : N)
    : call (list exec_event)
| ChildProcessSpawn (command : string) (args : list string)
    (options : ExecOptions) (timeoutMs : N) : call (list spawn_event)
| ConsoleError (text : string) : call unit
| ProcessEnvPATH : call (option string).

(** An entry of the registry [EDAServer.projects]. *)
Record project := { dir : string; type : string }.

(** A program: it returns, throws, never resumes (it awaits a promise that
    stays pending), calls the world, or reads or writes the registry. *)
Inductive prog (A : Type) : Type :=
| Ret (a : A)
| Throw (e : js_error)
| Stuck
| Call {X : Type} (c : call X) (k : X → prog A)
| ProjectsGet (id : string) (k : option project → prog A)
| ProjectsSet (id : string) (p : project) (k : prog A).
Arguments Ret {A} a.
Arguments Throw {A} e.
Arguments Stuck {A}.
Arguments Call {A X} c k.
Arguments ProjectsGet {A} id k.
Arguments ProjectsSet {A} id p k.

Fixpoint bind {A B : Type} (f : A → prog B) (p : prog A) : prog B :=
  match p with
  | Ret a => f a
  | Throw e => Throw e
  | Stuck => Stuck
  | Call c k => Call c (λ x, bind f (k x))
  | ProjectsGet id k => ProjectsGet id (λ r, bind f (k r))
  | ProjectsSet id p k => ProjectsSet id p (bind f k)
  end.

#[global] Instance prog_ret : MRet prog := @Ret.
#[global] Instance prog_bind : MBind prog := @bind.

(** [try { p } catch (error) { handler error }]. *)
Fixpoint try_catch {A : Type} (p : prog A) (handler : js_error → prog A)
    : prog A :=
  match p with
  | Ret a => Ret a
  | Throw e => handler e
  | Stuck => Stuck
  | Call c k => Call c (λ x, try_catch (k x) handler)
  | ProjectsGet id k => ProjectsGet id (λ r, try_catch (k r) handler)
  | ProjectsSet id p k => ProjectsSet id p (try_catch k handler)
  end.

(** [try { v = p } catch { ... }] where the handler goes on to do something
    else than the rest of the block: the outcome of [p] as a value. *)
Definition attempt {A : Type} (p : prog A) : prog (settled A) :=
  try_catch (a ← p; Ret (Fulfilled a)) (λ e, Ret (Rejected e)).

(** A call that needs no [await]. *)
Definition perform {X : Type} (c : call X) : prog X := Call c Ret.

(** [await] of the promise a call returns. *)
Definition await {X : Type} (c : call (settled X)) : prog X :=
  Call c (λ r, match r with Fulfilled x => Ret x | Rejected e => Throw e end).

(** [await] of a promise whose state is known. *)
Definition await_promise {X : Type} (p : option (settled X)) : prog X :=
  match p with
  | Some (Fulfilled x) => Ret x
  | Some (Rejected e) => Throw e
  | None => Stuck
  end.

(** Throwing helpers return [js_error + A]. *)
Definition lift {A : Type} (r : js_error + A) : prog A :=
  match r with inl e => Throw e | inr a => Ret a end.

(** ** The process runner (index.ts, lines 49-115) *)

Module Runner.

(** A promise under construction: [resolve] and [reject] act on a pending
    promise only. *)
Definition settle {A : Type} (how : settled A) (p : option (settled A))
    : option (settled A) :=
  match p with None => Some how | Some _ => p end.

(** *** [execAsyncWithTimeout] *)

Record exec_state := {
  timer_armed : bool;
  promise : option (settled (string * string));
  kills : list signal;
}.

(** After the executor has run: timer set, child started. *)
Definition exec_start : exec_state :=
  {| timer_armed := true; promise := None; kills := [] |}.

Definition timed_out (timeoutMs : N) (commandText : string) : js_error :=
  Error ("Command timed out after " +:+ pretty timeoutMs +:+ "ms: "
         +:+ commandText).

(** The callback given to [setTimeout]. *)
Definition exec_on_timeout (command : string) (timeoutMs : N)
    (st : exec_state) : exec_state :=
  {| timer_armed := false;
     kills := kills st ++ [SIGKILL];
     promise := settle (Rejected (timed_out timeoutMs command)) (promise st) |}.

(** The callback given to [exec]. *)
Definition exec_on_done (error : option js_error) (stdout stderr : string)
    (st : exec_state) : exec_state :=
  {| timer_armed := false;
     kills := kills st;
     promise :=
       match error with
       | Some e => settle (Rejected e) (promise st)
       | None => settle (Fulfilled (stdout, stderr)) (promise st)
       end |}.

(** One turn of the event loop; a cleared or spent timer never fires. *)
Definition exec_step (command : string) (timeoutMs : N)
    (st : exec_state) (ev : exec_event) : exec_state :=
  match ev with
  | TimerExpires =>
      if timer_armed st then exec_on_timeout command timeoutMs st else st
  | ExecCallback error stdout stderr => exec_on_done error stdout stderr st
  end.

Definition exec_run (command : string) (timeoutMs : N)
    (events : list exec_event) : exec_state :=
  fold_left (exec_step command timeoutMs) events exec_start.

(** *** [spawnAsyncWithTimeout] *)

Record spawn_state := {
  sp_timer_armed : bool;
  sp_promise : option (settled (string * string));
  sp_kills : list signal;
  sp_stdout : string;
  sp_stderr : string;
}.

Definition spawn_start : spawn_state :=
  {| sp_timer_armed := true; sp_promise := None; sp_kills := [];
     sp_stdout := ""; sp_stderr := "" |}.

Definition command_line (command : string) (args : list string) : string :=
  command +:+ " " +:+ JsString.join " " args.

Definition show_code (code : option Z) : string :=
  match code with Some z => pretty z | None => "null" end.

Definition exit_failure (code : option Z) (command : string)
    (args : list string) (stderr : string) : js_error :=
  Error ("Command failed with exit code " +:+ show_code code +:+ ": "
         +:+ command_line command args +:+ JsString.nl +:+ stderr).

Definition spawn_step (command : string) (args : list string)
    (timeoutMs : N) (st : spawn_state) (ev : spawn_event) : spawn_state :=
  match ev with
  | SpawnTimerExpires =>
      if sp_timer_armed st then
        {| sp_timer_armed := false;
           sp_kills := sp_kills st ++ [SIGKILL];
           sp_promise :=
             settle (Rejected (timed_out timeoutMs (command_line command args)))
                    (sp_promise st);
           sp_stdout := sp_stdout st; sp_stderr := sp_stderr st |}
      else st
  | StdoutData chunk =>
      {| sp_timer_armed := sp_timer_armed st; sp_kills := sp_kills st;
         sp_promise := sp_promise st;
         sp_stdout := sp_stdout st +:+ chunk; sp_stderr := sp_stderr st |}
  | StderrData chunk =>
      {| sp_timer_armed := sp_timer_armed st; sp_kills := sp_kills st;
         sp_promise := sp_promise st;
         sp_stdout := sp_stdout st; sp_stderr := sp_stderr st +:+ chunk |}
  | Close code =>
      {| sp_timer_armed := false; sp_kills := sp_kills st;
         sp_promise :=
           match code with
           | Some 0%Z =>
               settle (Fulfilled (sp_stdout st, sp_stderr st)) (sp_promise st)
           | _ =>
               settle (Rejected (exit_failure code command args (sp_stderr st)))
                      (sp_promise st)
           end;
         sp_stdout := sp_stdout st; sp_stderr := sp_stderr st |}
  | ErrorEvent error =>
      {| sp_timer_armed := false; sp_kills := sp_kills st;
         sp_promise := settle (Rejected error) (sp_promise st);
         sp_stdout := sp_stdout st; sp_stderr := sp_stderr st |}
  end.

Definition spawn_run (command : string) (args : list string) (timeoutMs : N)
    (events : list spawn_event) : spawn_state :=
  fold_left (spawn_step command args timeoutMs) events spawn_start.

(** The events of a [spawn] child that only carry output. *)
Definition is_data (ev : spawn_event) : bool :=
  match ev with StdoutData _ | StderrData _ => true | _ => false end.

End Runner.

(** The options [exec] receives from [execAsyncWithTimeout]. *)
Definition execOptions (options : ExecOptions) : ExecOptions :=
  spread {| cwd := None; timeout := None; env_PATH := None;
            maxBuffer := Some (10 * 1024 * 1024)%N; shell := None;
            encoding := Some "utf8" |} options.

Definition execAsyncWithTimeout (command : string) (options : ExecOptions)
    (timeoutMs : N) : prog (string * string) :=
  events ← perform (ChildProcessExec command (execOptions options) timeoutMs);
  await_promise (Runner.promise (Runner.exec_run command timeoutMs events)).

Definition spawnAsyncWithTimeout (command : string) (args : list string)
    (options : ExecOptions) (timeoutMs : N) : prog (string * string) :=
  events ← perform (ChildProcessSpawn command args options timeoutMs);
  await_promise
    (Runner.sp_promise (Runner.spawn_run command args timeoutMs events)).

(** [commandExists]. *)
Definition commandExists (command : string) : prog bool :=
  try_catch (await (ExecAsync ("which " +:+ command) no_options);; Ret true)
            (λ _, Ret false).

(** ** Node built-ins the server relies on *)

Class Platform := {
  (** [path.join(...parts)] *)
  path_join : list string → string;
  (** [path.basename(p)] *)
  path_basename : string → string;
  (** [subject.match(new RegExp(source, flags))]: the match array, entry 0
      the whole match and entry [i] the capture group [i]; [None] is
      JavaScript's [null]. *)
  regexp_match : string → string → string → option (list string);
  parseInt : string → number;
  parseFloat : string → number;
}.

(** ** The server object (index.ts, lines 127-145) *)

Record EDAServer := { tempDir : string; openlaneDir : string }.

(** [Math.random().toString(36)] from the digits after the point. *)
Definition base36 : string := "0123456789abcdefghijklmnopqrstuvwxyz".

Definition digit36 (d : nat) : ascii :=
  match String.get (d mod 36) base36 with
  | Some c => c
  | None => "0"%char
  end.

Definition toString36 (fraction : list nat) : string :=
  match fraction with
  | [] => "0"
  | _ => "0." +:+ string_of_list_ascii (map digit36 fraction)
  end.

(** [Math.random().toString(36).substring(2, 15)]. *)
Definition projectId_of (fraction : list nat) : string :=
  JsString.substring 2 15 (toString36 fraction).

Definition newProjectId : prog string :=
  fraction ← perform MathRandomToString36;
  Ret (projectId_of fraction).

(** A template literal that spans lines, written line by line. *)
Definition template (lines : list string) : string :=
  JsString.join JsString.nl lines.

(** The envelope of every [catch] block of a driver. *)
Definition failure (error : js_error) : json :=
  JObj [("success", JBool false); ("error", JStr (message_or_string error))].

Definition failed (message : string) : json :=
  JObj [("success", JBool false); ("error", JStr message)].

(** [text.length > 2000 ? text.substring(0, 2000) + "...(truncated)" : text] *)
Definition preview (text : string) : string :=
  if (2000 <? String.length text)%nat
  then JsString.substring 0 2000 text +:+ "...(truncated)"
  else text.

(** [if (text)] for a value that is a string or [null]. *)
Definition nonempty (text : option string) : option string :=
  match text with
  | Some s => if String.eqb s "" then None else Some s
  | None => None
  end.

(** [runs.sort().reverse()[0]]; [undefined] on an empty array is [None]. *)
Definition latest (runs : list string) : option string :=
  head (reverse (JsString.sort runs)).

Section Server.

Context `{Platform}.

Definition new_EDAServer (tmpdir homedir : string) (now : N) : EDAServer :=
  {| tempDir := path_join [tmpdir; "eda_mcp_" +:+ pretty now];
     openlaneDir := path_join [homedir; "openlane-projects"] |}.

Definition initTempDir (this : EDAServer) : prog unit :=
  try_catch
    (await (FsMkdir (tempDir this));; await (FsMkdir (openlaneDir this)))
    (λ _, Ret tt).

Variable this : EDAServer.

Definition synthScript (target topModule : string) : string :=
  let lowered := JsString.toLowerCase target in
  if String.eqb lowered "ice40" then
    template [""; "read_verilog design.v";
              "hierarchy -check -top " +:+ topModule;
              "synth_ice40 -top " +:+ topModule;
              "write_verilog synth_output.v"; "stat"; ""]
  else if String.eqb lowered "xilinx" then
    template [""; "read_verilog design.v";
              "hierarchy -check -top " +:+ topModule;
              "synth_xilinx -top " +:+ topModule;
              "write_verilog synth_output.v"; "stat"; ""]
  else
    template [""; "read_verilog design.v";
              "hierarchy -check -top " +:+ topModule;
              "synth -top " +:+ topModule;
              "techmap"; "opt";
              "write_verilog synth_output.v"; "stat"; ""].

(** [synthesizeVerilog] (lines 147-223). *)
Definition synthesizeVerilog (verilogCode topModule target : string)
    : prog json :=
  try_catch
    (projectId ← newProjectId;
     let projectDir := path_join [tempDir this; "project_" +:+ projectId] in
     await (FsMkdir projectDir);;
     ProjectsSet projectId {| dir := projectDir; type := "synthesis" |} (
     let verilogFile := path_join [projectDir; "design.v"] in
     await (FsWriteFile verilogFile (Text verilogCode));;
     let scriptFile := path_join [projectDir; "synth.ys"] in
     await (FsWriteFile scriptFile (Text (synthScript target topModule)));;
     '(stdout, stderr) ←
       await (ExecAsync ("yosys -s " +:+ scriptFile)
                {| cwd := Some projectDir; timeout := Some 120000%N;
                   env_PATH := None; maxBuffer := None; shell := None;
                   encoding := None |});
     synthVerilog ←
       try_catch (await (FsReadFile (path_join [projectDir; "synth_output.v"])))
                 (λ _, Ret "Synthesis output not generated");
     Ret (JObj [("project_id", JStr projectId);
                ("success", JBool true);
                ("stdout", JStr stdout);
                ("stderr", JStr stderr);
                ("synthesized_verilog", JStr synthVerilog);
                ("target", JStr target)])))
    (λ error, Ret (failure error)).

Definition compileCmd : string := "iverilog -o simulation design.v testbench.v".

Definition sim_options (projectDir : string) : ExecOptions :=
  {| cwd := Some projectDir; timeout := Some 60000%N; env_PATH := None;
     maxBuffer := None; shell := None; encoding := None |}.

(** [simulateVerilog] (lines 225-265). *)
Definition simulateVerilog (verilogCode testbenchCode : string) : prog json :=
  try_catch
    (projectId ← newProjectId;
     let projectDir := path_join [tempDir this; "sim_project_" +:+ projectId] in
     await (FsMkdir projectDir);;
     ProjectsSet projectId {| dir := projectDir; type := "simulation" |} (
     await (FsWriteFile (path_join [projectDir; "design.v"]) (Text verilogCode));;
     await (FsWriteFile (path_join [projectDir; "testbench.v"])
              (Text testbenchCode));;
     '(compileOut, compileErr) ←
       await (ExecAsync compileCmd (sim_options projectDir));
     '(simOut, simErr) ←
       await (ExecAsync "./simulation" (sim_options projectDir));
     Ret (JObj [("project_id", JStr projectId);
                ("success", JBool true);
                ("compile_stdout", JStr compileOut);
                ("compile_stderr", JStr compileErr);
                ("sim_stdout", JStr simOut);
                ("sim_stderr", JStr simErr);
                ("note", JStr ("Use view_waveform with project_id: "
                               +:+ projectId +:+ " to open GTKWave"))])))
    (λ error, Ret (failure error)).

(** [viewWaveform] (lines 267-330). *)
Definition viewWaveform (projectId vcdFile : string) : prog json :=
  try_catch
    (ProjectsGet projectId (λ found,
     match found with
     | None =>
         Ret (failed ("Project " +:+ projectId
                      +:+ " not found. Run a simulation first."))
     | Some project =>
         let vcdPath := path_join [dir project; vcdFile] in
         accessible ← attempt (await (FsAccess vcdPath));
         match accessible with
         | Rejected _ =>
             files ← await (FsReaddir (dir project));
             let vcdFiles := filter (λ f, JsString.endsWith ".vcd" f) files in
             Ret (JObj [("success", JBool false);
                        ("error", JStr ("VCD file '" +:+ vcdFile
                           +:+ "' not found in project " +:+ projectId));
                        ("available_vcd_files", JArr (map JStr vcdFiles));
                        ("note", JStr "Make sure your testbench includes $dumpfile() and $dumpvars() commands")])
         | Fulfilled _ =>
             installed ← commandExists "gtkwave";
             if negb installed then
               Ret (JObj [("success", JBool false);
                          ("error", JStr "GTKWave not found. Please install GTKWave to view waveforms.");
                          ("install_instructions",
                           JObj [("macos", JStr "brew install gtkwave");
                                 ("linux", JStr "sudo apt-get install gtkwave");
                                 ("windows", JStr "Install GTKWave from http://gtkwave.sourceforge.net/")])])
             else
               let gtkwaveCmd :=
                 "gtkwave " +:+ JsString.dq +:+ vcdPath +:+ JsString.dq +:+ " &" in
               await (ExecAsync gtkwaveCmd
                        {| cwd := Some (dir project); timeout := Some 5000%N;
                           env_PATH := None; maxBuffer := None; shell := None;
                           encoding := None |});;
               Ret (JObj [("success", JBool true);
                          ("message", JStr ("GTKWave launched for project "
                                            +:+ projectId));
                          ("vcd_file", JStr vcdFile);
                          ("vcd_path", JStr vcdPath);
                          ("project_type", JStr (type project))])
         end
     end))
    (λ error, Ret (failure error)).

(** The first candidate that [commandExists] finds, else the default
    (the [for] loop of lines 382-387). *)
Fixpoint findPython (candidates : list string) (pythonCmd : string)
    : prog string :=
  match candidates with
  | [] => Ret pythonCmd
  | candidate :: rest =>
      found ← commandExists candidate;
      if (found : bool) then Ret candidate else findPython rest pythonCmd
  end.

Definition openlaneConfig (designName clockPort : string) (clockPeriod : Q)
    : json :=
  JObj [("DESIGN_NAME", JStr designName);
        ("VERILOG_FILES", JArr [JStr (designName +:+ ".v")]);
        ("CLOCK_PORT", JStr clockPort);
        ("CLOCK_PERIOD", JNum clockPeriod);
        ("FP_SIZING", JStr "absolute");
        ("DIE_AREA", JStr "0 0 100 100");
        ("FP_PDN_MULTILAYER", JBool false);
        ("QUIT_ON_TIMING_VIOLATIONS", JBool false);
        ("QUIT_ON_MAGIC_DRC", JBool false);
        ("QUIT_ON_LVS_ERROR", JBool false);
        ("RUN_KLAYOUT_XOR", JBool false);
        ("RUN_KLAYOUT_DRC", JBool false)].

Definition wrapperScript (projectDir pythonCmd : string) : string :=
  template ["#!/bin/bash"; "set -e"; "";
            "# Disable TTY requirements";
            "export DEBIAN_FRONTEND=noninteractive";
            "export CI=true";
            "export TERM=dumb"; "";
            "# Change to project directory";
            "cd " +:+ JsString.dq +:+ projectDir +:+ JsString.dq; "";
            "# Run OpenLane with script command to simulate TTY";
            "script -q /dev/null " +:+ pythonCmd
              +:+ " -m openlane --dockerized config.json"; ""].

(** The first [.gds] entry of [finalDir], joined to it, or [""]. *)
Definition firstGds (finalDir : string) : prog string :=
  gdsFiles ← await (FsReaddir finalDir);
  let gdsFilesList := filter (λ f, JsString.endsWith ".gds" f) gdsFiles in
  match gdsFilesList with
  | first :: _ => Ret (path_join [finalDir; first])
  | [] => Ret ""
  end.

(** Lines 433-458 of [runOpenlane]: the latest run and its GDS file. *)
Definition findLatestRun (runsDir : string) : prog (string * string) :=
  try_catch
    (runs ← await (FsReaddir runsDir);
     match latest runs with
     | Some latestRun =>
         let finalDir := path_join [runsDir; latestRun; "final"; "gds"] in
         gdsFile ← try_catch (firstGds finalDir) (λ _, Ret "");
         Ret (latestRun, gdsFile)
     | None => Ret ("", "")
     end)
    (λ _, Ret ("", "")).

(** Lines 460-477 of [runOpenlane]. *)
Definition launchKlayout (openInKlayout : bool) (gdsFile : string)
    : prog string :=
  if openInKlayout && negb (String.eqb gdsFile "") then
    try_catch
      (installed ← commandExists "klayout";
       if (installed : bool) then
         let klayoutCmd :=
           "open -a KLayout " +:+ JsString.dq +:+ gdsFile +:+ JsString.dq
           +:+ " &" in
         execAsyncWithTimeout klayoutCmd no_options 10000%N;;
         Ret ("KLayout launched with GDS file: " +:+ path_basename gdsFile)
       else Ret "KLayout not found. Install KLayout to view GDS files.")
      (λ error, Ret ("KLayout launch failed: " +:+ message_of error))
  else Ret "".

(** [runOpenlane] (lines 333-505). *)
Definition runOpenlane (verilogCode designName clockPort : string)
    (clockPeriod : Q) (openInKlayout : bool) : prog json :=
  try_catch
    (projectId ← newProjectId;
     let projectName := designName +:+ "_" +:+ projectId in
     let projectDir := path_join [openlaneDir this; projectName] in
     ProjectsSet projectId {| dir := projectDir; type := "openlane" |} (
     await (FsMkdir projectDir);;
     let verilogFile := path_join [projectDir; designName +:+ ".v"] in
     await (FsWriteFile verilogFile (Text verilogCode));;
     let configFile := path_join [projectDir; "config.json"] in
     await (FsWriteFile configFile
              (JsonText (openlaneConfig designName clockPort clockPeriod)));;
     pythonCmd ← findPython ["python3"; "python"] "python3";
     perform (ConsoleError ("Starting OpenLane flow for " +:+ designName +:+ "..."));;
     perform (ConsoleError ("Working directory: " +:+ projectDir));;
     perform (ConsoleError "This may take up to 10 minutes...");;
     let openlaneCmd := pythonCmd +:+ " -m openlane --dockerized config.json" in
     perform (ConsoleError ("Executing: " +:+ openlaneCmd));;
     let wrapperPath := path_join [projectDir; "run_openlane.sh"] in
     await (FsWriteFile wrapperPath (Text (wrapperScript projectDir pythonCmd)));;
     execAsyncWithTimeout
       ("chmod +x " +:+ JsString.dq +:+ wrapperPath +:+ JsString.dq)
       no_options 600000%N;;
     perform (ConsoleError ("Starting OpenLane flow for " +:+ designName +:+ "..."));;
     perform (ConsoleError ("Working directory: " +:+ projectDir));;
     perform (ConsoleError "This may take up to 10 minutes...");;
     perform (ConsoleError "Using wrapper script to handle TTY");;
     envPath ← perform ProcessEnvPATH;
     '(stdout, stderr) ←
       execAsyncWithTimeout (JsString.dq +:+ wrapperPath +:+ JsString.dq)
         {| cwd := Some projectDir;
            env_PATH := Some (default "undefined" envPath
                              +:+ ":/usr/local/bin:/opt/homebrew/bin");
            maxBuffer := Some (10 * 1024 * 1024)%N;
            timeout := Some 600000%N;
            shell := None; encoding := None |}
         600000%N;
     let runsDir := path_join [projectDir; "runs"] in
     '(latestRun, gdsFile) ← findLatestRun runsDir;
     klayoutResult ← launchKlayout openInKlayout gdsFile;
     Ret (JObj [("project_id", JStr projectId);
                ("success", JBool true);
                ("design_name", JStr designName);
                ("project_dir", JStr projectDir);
                ("latest_run", JStr latestRun);
                ("gds_file", JStr (if String.eqb gdsFile "" then "Not generated"
                                   else path_basename gdsFile));
                ("gds_path", JStr gdsFile);
                ("klayout_status", JStr klayoutResult);
                ("command_used", JStr openlaneCmd);
                ("stdout", JStr (preview stdout));
                ("stderr", JStr (preview stderr));
                ("note", JStr "OpenLane flow completed. Check the runs directory for detailed results.")])))
    (λ error,
       let errorMessage := message_or_string error in
       perform (ConsoleError ("OpenLane error: " +:+ errorMessage));;
       Ret (JObj [("success", JBool false);
                  ("error", JStr errorMessage);
                  ("note", JStr "OpenLane flow failed. Make sure Docker is running and try: docker pull efabless/openlane:latest")])).

(** Lines 518-543 of [viewGds]: the path to open, or the envelope the
    [catch] block returns. *)
Definition locateGds (project : project) (gdsFile : option string)
    : prog (json + string) :=
  match nonempty gdsFile with
  | Some name => Ret (inr (path_join [dir project; name]))
  | None =>
      let runsDir := path_join [dir project; "runs"] in
      try_catch
        (runs ← await (FsReaddir runsDir);
         match latest runs with
         | Some latestRun =>
             let finalDir := path_join [runsDir; latestRun; "final"; "gds"] in
             gdsPath ← firstGds finalDir;
             Ret (inr gdsPath)
         | None => Ret (inr "")
         end)
        (λ _, Ret (inl (failed "No GDS files found in project. Run OpenLane flow first.")))
  end.

(** [viewGds] (lines 508-581). *)
Definition viewGds (projectId : string) (gdsFile : option string)
    : prog json :=
  try_catch
    (ProjectsGet projectId (λ found,
     match found with
     | None => Ret (failed ("Project " +:+ projectId +:+ " not found."))
     | Some project =>
         located ← locateGds project gdsFile;
         match located with
         | inl envelope => Ret envelope
         | inr gdsPath =>
             if String.eqb gdsPath "" then
               Ret (failed "No GDS file found to open.")
             else
               accessible ← attempt (await (FsAccess gdsPath));
               match accessible with
               | Rejected _ => Ret (failed ("GDS file not found: " +:+ gdsPath))
               | Fulfilled _ =>
                   let klayoutCmd :=
                     "open -a KLayout " +:+ JsString.dq +:+ gdsPath
                     +:+ JsString.dq in
                   execAsyncWithTimeout klayoutCmd
                     {| shell := Some true; cwd := None; timeout := None;
                        env_PATH := None; maxBuffer := None;
                        encoding := None |}
                     10000%N;;
                   Ret (JObj [("success", JBool true);
                              ("message", JStr "KLayout launched with GDS file");
                              ("gds_file", JStr (path_basename gdsPath));
                              ("gds_path", JStr gdsPath);
                              ("project_id", JStr projectId);
                              ("command_executed", JStr klayoutCmd)])
               end
         end
     end))
    (λ error, Ret (failure error)).

(** The [results] object of [readOpenlaneReports]: the properties the
    function assigns after creating it.  A metric holds [null] ([None]) or
    a number. *)
Record results := {
  total_cells : option number;
  timing_slack_ns : option number;
  synthesis_complete : bool;
  timing_clean : bool;
  routing_complete : bool;
  reports : list (string * json);
}.

Definition initial_results : results :=
  {| total_cells := None; timing_slack_ns := None;
     synthesis_complete := false; timing_clean := false;
     routing_complete := false; reports := [] |}.

(** The helper [readFile] of lines 637-643: the text, or [null]. *)
Definition readFile (path : string) : prog (option string) :=
  try_catch (text ← await (FsReadFile path); Ret (Some text))
            (λ _, Ret None).

(** Lines 646-655. *)
Definition readSynthesisReport (reportsDir : string) (r : results)
    : prog results :=
  synthReport ← readFile (path_join [reportsDir; "synthesis"; "1-synthesis.stat.rpt"]);
  match nonempty synthReport with
  | Some synthReport =>
      let cellMatch := regexp_match "Number of cells:\s*(\d+)" "" synthReport in
      Ret {| synthesis_complete := true;
             reports := reports r ++
               [("synthesis", JStr (JsString.substring 0 2000 synthReport))];
             total_cells :=
               match cellMatch with
               | Some groups => Some (parseInt (nth 1 groups ""))
               | None => total_cells r
               end;
             timing_slack_ns := timing_slack_ns r;
             timing_clean := timing_clean r;
             routing_complete := routing_complete r |}
  | None => Ret r
  end.

(** The [for] loop of lines 662-677: the first timing file that can be
    read and is not empty is recorded, then the loop breaks. *)
Fixpoint scanTimingFiles (routingDir : string) (files : list string)
    (r : results) : prog results :=
  match files with
  | [] => Ret r
  | file :: rest =>
      if JsString.includes "sta" file || JsString.includes "timing" file then
        timingReport ← readFile (path_join [routingDir; file]);
        match nonempty timingReport with
        | Some timingReport =>
            let wnsMatch := regexp_match "WNS.*?(-?\d+\.?\d*)" "i" timingReport in
            let timed :=
              reports r ++
                [("timing", JStr (JsString.substring 0 2000 timingReport))] in
            match wnsMatch with
            | Some groups =>
                let wns := parseFloat (nth 1 groups "") in
                Ret {| timing_slack_ns := Some wns;
                       timing_clean := at_least_zero wns;
                       reports := timed;
                       total_cells := total_cells r;
                       synthesis_complete := synthesis_complete r;
                       routing_complete := routing_complete r |}
            | None =>
                Ret {| reports := timed;
                       timing_slack_ns := timing_slack_ns r;
                       timing_clean := timing_clean r;
                       total_cells := total_cells r;
                       synthesis_complete := synthesis_complete r;
                       routing_complete := routing_complete r |}
            end
        | None => scanTimingFiles routingDir rest r
        end
      else scanTimingFiles routingDir rest r
  end.

(** Lines 658-680. *)
Definition readTimingReport (reportsDir : string) (r : results)
    : prog results :=
  try_catch
    (let routingDir := path_join [reportsDir; "routing"] in
     files ← await (FsReaddir routingDir);
     scanTimingFiles routingDir files r)
    (λ _, Ret r).

(** Lines 683-687. *)
Definition readFinalSummary (finalDir : string) (r : results)
    : prog results :=
  finalSummary ← readFile (path_join [finalDir; "final.summary.rpt"]);
  match nonempty finalSummary with
  | Some finalSummary =>
      Ret {| reports := reports r ++
               [("final_summary", JStr (JsString.substring 0 3000 finalSummary))];
             routing_complete := true;
             total_cells := total_cells r;
             timing_slack_ns := timing_slack_ns r;
             synthesis_complete := synthesis_complete r;
             timing_clean := timing_clean r |}
  | None => Ret r
  end.

(** Lines 690-693. *)
Definition issues_of (r : results) : list string :=
  (if synthesis_complete r then [] else ["Synthesis incomplete"]) ++
  (if timing_clean r then [] else ["Timing violations detected"]) ++
  (if routing_complete r then [] else ["Routing incomplete"]).

(** What line 701 writes for the [results] object: a metric that holds a
    number that is not finite is written as [null]. *)
Definition report_envelope (projectId latestRun : string) (r : results)
    : json :=
  let issues := issues_of r in
  JObj [("project_id", JStr projectId);
        ("run_id", JStr latestRun);
        ("success", JBool true);
        ("ppa_metrics",
         JObj [("power_mw", JNull);
               ("max_frequency_mhz", JNull);
               ("total_cells", metric_json (total_cells r));
               ("logic_area_um2", JNull);
               ("timing_slack_ns", metric_json (timing_slack_ns r))]);
        ("design_status",
         JObj [("synthesis_complete", JBool (synthesis_complete r));
               ("timing_clean", JBool (timing_clean r));
               ("routing_complete", JBool (routing_complete r))]);
        ("reports", JObj (reports r));
        ("summary",
         JObj [("status", JStr (match issues with
                                | [] => "SUCCESS"
                                | _ => "ISSUES_FOUND"
                                end));
               ("issues", JArr (map JStr issues));
               ("note", JStr "PPA metrics and design status extracted from OpenLane reports")])].

(** Lines 613-701: the summary of one run. *)
Definition summarise (project : project) (projectId latestRun : string)
    : prog json :=
  let reportsDir := path_join [dir project; "runs"; latestRun; "reports"] in
  let finalDir := path_join [dir project; "runs"; latestRun; "final"] in
  r ← readSynthesisReport reportsDir initial_results;
  r ← readTimingReport reportsDir r;
  r ← readFinalSummary finalDir r;
  Ret (report_envelope projectId latestRun r).

(** [readOpenlaneReports] (lines 584-709); [reportType] is not used. *)
Definition readOpenlaneReports (projectId : string)
    (reportType : option string) : prog json :=
  try_catch
    (ProjectsGet projectId (λ found,
     match found with
     | None => Ret (failed ("Project " +:+ projectId +:+ " not found."))
     | Some project =>
         let runsDir := path_join [dir project; "runs"] in
         listed ← attempt (await (FsReaddir runsDir));
         match listed with
         | Rejected _ =>
             Ret (failed "No runs directory found. Run OpenLane flow first.")
         | Fulfilled runs =>
             match latest runs with
             | None => Ret (failed "No OpenLane runs found. Run OpenLane flow first.")
             | Some latestRun => summarise project projectId latestRun
             end
         end
     end))
    (λ error, Ret (failure error)).

(** ** The tool-call handler (lines 863-949) *)

(** [value || undefined] for a string. *)
Definition or_undefined (value : string) : option string :=
  if String.eqb value "" then None else Some value.

(** [args && args.open_in_klayout !== false], as a condition. *)
Definition openInKlayout_of (args : arguments) : bool :=
  match args with
  | Some o =>
      match o !! "open_in_klayout" with
      | Some (JBool false) => false
      | _ => true
      end
  | None => false
  end.

(** The [switch] over the tool name. *)
Definition dispatch (name : string) (args : arguments) : prog json :=
  if String.eqb name "synthesize_verilog" then
    verilogCode ← lift (validateRequiredString args "verilog_code" name);
    topModule ← lift (validateRequiredString args "top_module" name);
    let target := getStringProperty args "target" "generic" in
    synthesizeVerilog verilogCode topModule target
  else if String.eqb name "simulate_verilog" then
    verilogCode ← lift (validateRequiredString args "verilog_code" name);
    testbenchCode ← lift (validateRequiredString args "testbench_code" name);
    simulateVerilog verilogCode testbenchCode
  else if String.eqb name "view_waveform" then
    projectId ← lift (validateRequiredString args "project_id" name);
    let vcdFile := getStringProperty args "vcd_file" "output.vcd" in
    viewWaveform projectId vcdFile
  else if String.eqb name "run_openlane" then
    verilogCode ← lift (validateRequiredString args "verilog_code" name);
    designName ← lift (validateRequiredString args "design_name" name);
    let clockPort := getStringProperty args "clock_port" "clk" in
    let clockPeriod := getNumberProperty args "clock_period" 10 in
    let openInKlayout := openInKlayout_of args in
    runOpenlane verilogCode designName clockPort clockPeriod openInKlayout
  else if String.eqb name "view_gds" then
    projectId ← lift (validateRequiredString args "project_id" name);
    let gdsFile := getStringProperty args "gds_file" "" in
    viewGds projectId (or_undefined gdsFile)
  else if String.eqb name "read_openlane_reports" then
    projectId ← lift (validateRequiredString args "project_id" name);
    let reportType := getStringProperty args "report_type" "" in
    readOpenlaneReports projectId (or_undefined reportType)
  else Throw (McpError MethodNotFound ("Tool not found: " +:+ name)).

(** The handler: the text of the single content item it returns, or the
    [McpError] it throws. *)
Definition callTool (name : string) (args : arguments) : prog json :=
  try_catch (dispatch name args)
    (λ error,
       match error with
       | McpError _ _ => Throw error
       | JsError _ message =>
           Throw (McpError InternalError
                    ("Tool execution failed: " +:+ message))
       end).

End Server.

(** The tools the server lists, each with the [required] array of its
    input schema (lines 723-860). *)
Definition tools : list (string * list string) :=
  [("synthesize_verilog", ["verilog_code"; "top_module"]);
   ("simulate_verilog", ["verilog_code"; "testbench_code"]);
   ("view_waveform", ["project_id"]);
   ("run_openlane", ["verilog_code"; "design_name"]);
   ("view_gds", ["project_id"]);
   ("read_openlane_reports", ["project_id"])].

(** ** Running a program against the world *)

(** The outside world: its states, and its answer to every call. *)
Class Environment := {
  World : Type;
  answer : ∀ {X : Type}, call X → World → X * World;
}.

(** A call that was made, with the answer it got. *)
Inductive event : Type :=
| Performed {X : Type} (c : call X) (x : X).

Inductive outcome (A : Type) : Type :=
| Returned (a : A)
| Thrown (e : js_error)
| NeverReturns.
Arguments Returned {A} a.
Arguments Thrown {A} e.
Arguments NeverReturns {A}.

Section Semantics.

Context {env : Environment}.

(** The registry of the server object and the state of the world. *)
Record state := { projects : gmap string project; world : World }.

(** The outcome of a program, the state it leaves, and the calls it made,
    oldest first. *)
Fixpoint exec {A : Type} (p : prog A) (σ : state)
    : outcome A * state * list event :=
  match p with
  | Ret a => (Returned a, σ, [])
  | Throw e => (Thrown e, σ, [])
  | Stuck => (NeverReturns, σ, [])
  | Call c k =>
      let '(x, w) := answer c (world σ) in
      let '(o, σ', evs) := exec (k x) {| projects := projects σ; world := w |} in
      (o, σ', Performed c x :: evs)
  | ProjectsGet id k => exec (k (projects σ !! id)) σ
  | ProjectsSet id p k =>
      exec k {| projects := <[id := p]> (projects σ); world := world σ |}
  end.

End Semantics.

(** What an event is about. *)
Definition ran (command : string) (ev : event) : Prop :=
  match ev with
  | Performed c _ =>
      match c with
      | ExecAsync cmd _ => cmd = command
      | _ => False
      end
  end.

Definition ran_and_settled (command : string)
    (how : settled (string * string)) (ev : event) : Prop :=
  match ev with
  | @Performed X c x =>
      match c in call X return X → Prop with
      | ExecAsync cmd _ => λ x, cmd = command ∧ x = how
      | _ => λ _, False
      end x
  end.

(** ** A small world for examples *)

Module Fixture.

(** Paths are joined with a slash and not normalised; no regular
    expression ever matches. *)
Fixpoint last_segment (s : string) : string :=
  match s with
  | EmptyString => ""
  | String _ rest => if JsString.includes "/" s then last_segment rest else s
  end.

#[global] Instance platform : Platform := {|
  path_join := JsString.join "/";
  path_basename := last_segment;
  regexp_match := λ _ _ _, None;
  parseInt := λ _, NaN;
  parseFloat := λ _, NaN;
|}.

Record fixture := {
  files : gmap string string;
  dirs : gmap string (list string);
  shell_run : string → settled (string * string);
  child : string → list exec_event;
  random : list (list nat);
  PATH : option string;
}.

Definition enoent (path : string) : js_error :=
  Error ("ENOENT: no such file or directory, open '" +:+ path +:+ "'").

Definition respond {X : Type} (c : call X) (w : fixture) : X * fixture :=
  match c in call X return X * fixture with
  | MathRandomToString36 =>
      (hd [] (random w),
       {| random := tl (random w); files := files w; dirs := dirs w;
          shell_run := shell_run w; child := child w; PATH := PATH w |})
  | FsMkdir _ => (Fulfilled tt, w)
  | FsWriteFile path (Text s) =>
      (Fulfilled tt,
       {| files := <[path := s]> (files w); random := random w;
          dirs := dirs w; shell_run := shell_run w; child := child w;
          PATH := PATH w |})
  | FsWriteFile _ (JsonText _) => (Fulfilled tt, w)
  | FsReadFile path =>
      (match files w !! path with
       | Some s => Fulfilled s
       | None => Rejected (enoent path)
       end, w)
  | FsReaddir path =>
      (match dirs w !! path with
       | Some entries => Fulfilled entries
       | None => Rejected (enoent path)
       end, w)
  | FsAccess path =>
      (match files w !! path, dirs w !! path with
       | None, None => Rejected (enoent path)
       | _, _ => Fulfilled tt
       end, w)
  | ExecAsync command _ => (shell_run w command, w)
  | ChildProcessExec command _ _ => (child w command, w)
  | ChildProcessSpawn _ _ _ _ => ([], w)
  | ConsoleError _ => (tt, w)
  | ProcessEnvPATH => (PATH w, w)
  end.

#[global] Instance environment : Environment := {|
  World := fixture;
  answer := @respond;
|}.

(** A command that fails without writing anything. *)
Definition not_found (command : string) : settled (string * string) :=
  Rejected (Error ("Command failed: " +:+ command +:+ JsString.nl)).

Definition server : EDAServer :=
  {| tempDir := "/tmp/eda_mcp_1"; openlaneDir := "/home/u/openlane-projects" |}.

(** A world with nothing in it, where every command fails. *)
Definition bare (draws : list (list nat)) : fixture :=
  {| files := ∅; dirs := ∅; shell_run := not_found; child := λ _, [];
     random := draws; PATH := Some "/usr/bin" |}.

Definition fresh (w : fixture) : state := {| projects := ∅; world := w |}.

End Fixture.

(** * Vocabulary of the statements *)

(** ** Required parameters *)

(** A required parameter is supplied when it is a non-empty string. *)
Definition supplied (args : arguments) (key : string) : bool :=
  negb (String.eqb (getStringProperty args key "") "").

(** The first required parameter, in the order the handler validates them,
    that is not supplied. *)
Definition first_unsupplied (args : arguments) (required : list string)
    : option string :=
  List.find (λ key, negb (supplied args key)) required.

(** The parameter is not in the request at all. *)
Definition absent (args : arguments) (key : string) : Prop :=
  match args with
  | None => True
  | Some o => o !! key = None
  end.

(** A value that is no string, or the empty string. *)
Definition blank (v : json) : Prop := ∀ s, v = JStr s → s = "".

(** ** Events *)

(** The error with which Node's promisified [exec] rejects when the command
    exits with a non-zero status: its message is the text
    [Command failed: <command>], a line feed, and what the command wrote
    to its standard error. *)
Definition exec_failure (command stderr : string) : js_error :=
  Error ("Command failed: " +:+ command +:+ JsString.nl +:+ stderr).

(** A command run through [execAsync] that succeeded. *)
Definition command_succeeded (ev : event) : Prop :=
  match ev with
  | @Performed X c x =>
      match c in call X return X → Prop with
      | ExecAsync _ _ => λ x, ∃ out, x = Fulfilled out
      | _ => λ _, False
      end x
  end.

(** A file read, with the way it ended. *)
Definition file_read (how : settled string) (ev : event) : Prop :=
  match ev with
  | @Performed X c x =>
      match c in call X return X → Prop with
      | FsReadFile _ => λ x, x = how
      | _ => λ _, False
      end x
  end.

(** A command run through [execAsync], with the way it ended. *)
Definition command_settled (how : settled (string * string)) (ev : event)
    : Prop :=
  match ev with
  | @Performed X c x =>
      match c in call X return X → Prop with
      | ExecAsync _ _ => λ x, x = how
      | _ => λ _, False
      end x
  end.

(** The flow command, with its captured output. *)
Definition flow_captured (command : string) (stdout stderr : string)
    (ev : event) : Prop :=
  match ev with
  | @Performed X c x =>
      match c in call X return X → Prop with
      | ChildProcessExec cmd _ t => λ events,
          cmd = command
          ∧ Runner.promise (Runner.exec_run cmd t events)
            = Some (Fulfilled (stdout, stderr))
      | _ => λ _, False
      end x
  end.

(** ** Report excerpts *)

(** How long an excerpt in the [reports] object may be. *)
Definition excerpt_limit (key : string) : nat :=
  if String.eqb key "final_summary" then 3000 else 2000.

(** [s] is the first [n] characters of [text]: [text] begins with [s], and
    [s] has [n] characters, or all of [text] when [text] is shorter. *)
Definition first_chars (n : nat) (text s : string) : Prop :=
  ∃ rest, text = s +:+ rest
          ∧ String.length s = Nat.min n (String.length text).

(** The entry holds the first characters, up to the limit of its key, of a
    text that was read from a file during the calls [evs]; nothing is
    appended to them. *)
Definition excerpt_of (evs : list event) (entry : string * json) : Prop :=
  ∃ text s,
    entry.2 = JStr s
    ∧ Exists (file_read (Fulfilled text)) evs
    ∧ first_chars (excerpt_limit entry.1) text s.

(** The program returns, leaves the registry alone, and relates the
    value to the calls made. *)
Definition returns {env : Environment} {A : Type} (p : prog A) (σ : state)
    (Q : A → list event → Prop) : Prop :=
  ∃ a σ' evs, exec p σ = (Returned a, σ', evs)
              ∧ projects σ' = projects σ ∧ Q a evs.

(** ** The registry *)

Abbreviation chars := list_ascii_of_string.

(** Made of the digits [0-9a-z] only. *)
Definition alnum (id : string) : Prop :=
  Forall (λ c, c ∈ chars base36) (chars id).

(** [s] ends with [suffix]. *)
Definition ends_with (suffix s : string) : Prop :=
  ∃ before, s = before +:+ suffix.

(** Every [projects.set(id, record)] in the program satisfies [P]. *)
Fixpoint sets {A : Type} (P : string → project → Prop) (p : prog A) : Prop :=
  match p with
  | Ret _ | Throw _ | Stuck => True
  | Call _ k => ∀ x, sets P (k x)
  | ProjectsGet _ k => ∀ found, sets P (k found)
  | ProjectsSet id record k => P id record ∧ sets P k
  end.

(** The calls that create a workspace. *)
Inductive creates `{Platform} (this : EDAServer) : prog json → Prop :=
| creates_synthesis verilogCode topModule target :
    creates this (synthesizeVerilog this verilogCode topModule target)
| creates_simulation verilogCode testbenchCode :
    creates this (simulateVerilog this verilogCode testbenchCode)
| creates_flow verilogCode designName clockPort clockPeriod openInKlayout :
    creates this (runOpenlane this verilogCode designName clockPort
                    clockPeriod openInKlayout).

(** The server handles the requests one after the other. *)
Fixpoint serve `{Platform} {env : Environment} (this : EDAServer)
    (requests : list (string * arguments)) (σ : state) : state :=
  match requests with
  | [] => σ
  | (name, args) :: rest =>
      serve this rest (exec (callTool this name args) σ).1.2
  end.

(** Every record sits in a directory whose path ends with an underscore
    and the identifier, and identifiers are made of [0-9a-z]. *)
Definition well_kept (registry : gmap string project) : Prop :=
  ∀ id record, registry !! id = Some record →
               alnum id ∧ ends_with ("_" +:+ id) (dir record).

(** ** Example worlds *)

Module ReportExamples.
Import Fixture.

Definition flow_project : project :=
  {| dir := "/home/u/openlane-projects/adder_k3x9"; type := "openlane" |}.

(** The flow has not run: no [runs/] directory. *)
Definition not_run : state :=
  {| projects := {[ "k3x9" := flow_project ]}; world := bare [] |}.

(** [runs/] was created and is empty. *)
Definition empty_runs : state :=
  {| projects := {[ "k3x9" := flow_project ]};
     world :=
       {| files := ∅;
          dirs := {[ "/home/u/openlane-projects/adder_k3x9/runs" := [] ]};
          shell_run := not_found; child := λ _, []; random := [];
          PATH := None |} |}.
End ReportExamples.

Module SimulationExample.
Import Fixture.

(** The compiler reports a port width mismatch and exits with status 1. *)
Definition compiler_stderr : string :=
  "testbench.v:4: error: port ``a'' is not a port of uut.".

Definition failing_compiler (command : string) : settled (string * string) :=
  if String.eqb command compileCmd
  then Rejected (exec_failure compileCmd compiler_stderr)
  else Fulfilled ("", "").

Definition start : state :=
  fresh {| files := ∅; dirs := ∅; shell_run := failing_compiler;
           child := λ _, []; random := [[7; 20; 3]]; PATH := None |}.

Definition finish : outcome json * state * list event :=
  exec (simulateVerilog server "module m(input [3:0] a); endmodule"
          "module tb; m uut(.a(1'b0)); endmodule") start.
End SimulationExample.

Module SynthesisExample.
Import Fixture.

(** The synthesis tool is not installed. *)
Definition no_yosys : state := fresh (bare [[1; 2; 3]]).

(** The tool runs and leaves no [synth_output.v]. *)
Definition no_netlist : state :=
  fresh {| files := ∅; dirs := ∅;
           shell_run := λ _, Fulfilled ("End of script.", "");
           child := λ _, []; random := [[1; 2; 3]]; PATH := None |}.

Definition request : prog json :=
  synthesizeVerilog server "module m(input a, output y); assign y = a; endmodule"
    "m" "ice40".
End SynthesisExample.

Module KindExample.
Import Fixture.

(** A simulation workspace in which something created [runs/RUN_1]. *)
Definition simulation_project : project :=
  {| dir := "/tmp/eda_mcp_1/sim_project_k3x9"; type := "simulation" |}.

Definition start : state :=
  {| projects := {[ "k3x9" := simulation_project ]};
     world :=
       {| files := ∅;
          dirs := {[ "/tmp/eda_mcp_1/sim_project_k3x9/runs" := ["RUN_1"] ]};
          shell_run := not_found; child := λ _, []; random := [];
          PATH := None |} |}.
End KindExample.

Module PreviewExample.
Import Fixture.

Definition letters (n : nat) : string :=
  string_of_list_ascii (repeat "a"%char n).

(** The synthesis tool prints 3001 characters. *)
Definition verbose_tool : state :=
  fresh {| files := ∅; dirs := ∅;
           shell_run := λ _, Fulfilled (letters 3001, "");
           child := λ _, []; random := [[1; 2; 3]]; PATH := None |}.

(** A flow project whose synthesis report has 2001 characters. *)
Definition long_report : state :=
  {| projects := {[ "k3x9" := ReportExamples.flow_project ]};
     world :=
       {| files :=
            {[ "/home/u/openlane-projects/adder_k3x9/runs/RUN_1/reports/synthesis/1-synthesis.stat.rpt"
               := letters 2001 ]};
          dirs := {[ "/home/u/openlane-projects/adder_k3x9/runs" := ["RUN_1"] ]};
          shell_run := not_found; child := λ _, []; random := [];
          PATH := None |} |}.
End PreviewExample.

Module CollisionExample.
Import Fixture.

Definition tools_installed (draws : list (list nat)) : state :=
  fresh {| files := ∅; dirs := ∅; shell_run := λ _, Fulfilled ("", "");
           child := λ _, []; random := draws; PATH := None |}.

(** Two create calls in one run. *)
Definition two_creates : prog (json * json) :=
  first ← synthesizeVerilog server "module m; endmodule" "m" "generic";
  second ← simulateVerilog server "module m; endmodule" "module tb; endmodule";
  Ret (first, second).

Definition requests : list (string * arguments) :=
  [("synthesize_verilog",
    Some {[ "verilog_code" := JStr "module m; endmodule";
            "top_module" := JStr "m" ]});
   ("simulate_verilog",
    Some {[ "verilog_code" := JStr "module m; endmodule";
            "testbench_code" := JStr "module tb; endmodule" ]})].
End CollisionExample.

(** ** How programs end and what they call *)

(** Every value the program returns satisfies [R], every error it throws
    satisfies [T], and it awaits a promise that stays pending only if
    [S]. *)
Fixpoint leaves {A : Type} (R : A → Prop) (T : js_error → Prop) (S : Prop)
    (p : prog A) : Prop :=
  match p with
  | Ret a => R a
  | Throw e => T e
  | Stuck => S
  | Call _ k => ∀ x, leaves R T S (k x)
  | ProjectsGet _ k => ∀ found, leaves R T S (k found)
  | ProjectsSet _ _ k => leaves R T S k
  end.

(** Every call the program makes to the outside world satisfies [Q]. *)
Fixpoint calls {A : Type} (Q : ∀ X : Type, call X → Prop) (p : prog A)
    : Prop :=
  match p with
  | Ret _ | Throw _ | Stuck => True
  | @Call _ X c k => Q X c ∧ ∀ x, calls Q (k x)
  | ProjectsGet _ k => ∀ found, calls Q (k found)
  | ProjectsSet _ _ k => calls Q k
  end.

(** The call of an event satisfies [Q]. *)
Definition about (Q : ∀ X : Type, call X → Prop) (ev : event) : Prop :=
  match ev with
  | @Performed X c _ => Q X c
  end.

(** Listing a directory or reading a file. *)
Definition reading (X : Type) (c : call X) : Prop :=
  match c with
  | FsReaddir _ | FsReadFile _ => True
  | _ => False
  end.

(** A command run through the promisified [exec]. *)
Definition probing (X : Type) (c : call X) : Prop :=
  match c with
  | ExecAsync _ _ => True
  | _ => False
  end.

(** The uniform response: [success] is a boolean, and a failure carries an
    error text. *)
Definition envelope (j : json) : Prop :=
  field "success" j = Some (JBool true)
  ∨ (field "success" j = Some (JBool false)
     ∧ ∃ message, field "error" j = Some (JStr message)).

(** The six drivers of the server object. *)
Inductive driver `{Platform} (this : EDAServer) : prog json → Prop :=
| driver_synthesis verilogCode topModule target :
    driver this (synthesizeVerilog this verilogCode topModule target)
| driver_simulation verilogCode testbenchCode :
    driver this (simulateVerilog this verilogCode testbenchCode)
| driver_waveform projectId vcdFile :
    driver this (viewWaveform projectId vcdFile)
| driver_flow verilogCode designName clockPort clockPeriod openInKlayout :
    driver this (runOpenlane this verilogCode designName clockPort
                   clockPeriod openInKlayout)
| driver_layout projectId gdsFile :
    driver this (viewGds projectId gdsFile)
| driver_reports projectId reportType :
    driver this (readOpenlaneReports projectId reportType).

(** ** Output of a [spawn] child *)

(** What the child wrote to its standard output, chunk after chunk. *)
Fixpoint stdout_of (events : list spawn_event) : string :=
  match events with
  | [] => ""
  | StdoutData chunk :: rest => chunk +:+ stdout_of rest
  | _ :: rest => stdout_of rest
  end.

(** The same for its standard error. *)
Fixpoint stderr_of (events : list spawn_event) : string :=
  match events with
  | [] => ""
  | StderrData chunk :: rest => chunk +:+ stderr_of rest
  | _ :: rest => stderr_of rest
  end.

(** ** Calls that only look *)

(** Listing, reading or probing a path, or running a command: nothing is
    created or written through the file-system interface and no identifier
    is drawn. *)
Definition observing (X : Type) (c : call X) : Prop :=
  match c with
  | FsReaddir _ | FsReadFile _ | FsAccess _
  | ExecAsync _ _ | ChildProcessExec _ _ _ => True
  | _ => False
  end.

(** The three drivers that work on a registered project. *)
Inductive inspection `{Platform} : prog json → Prop :=
| inspection_waveform projectId vcdFile :
    inspection (viewWaveform projectId vcdFile)
| inspection_layout projectId gdsFile :
    inspection (viewGds projectId gdsFile)
| inspection_reports projectId reportType :
    inspection (readOpenlaneReports projectId reportType).

(** ** More events *)

(** A probe of [path] with [fs.access], and whether it was fulfilled. *)
Definition accessed (path : string) (found : bool) (ev : event) : Prop :=
  match ev with
  | @Performed X c x =>
      match c in call X return X → Prop with
      | FsAccess p => λ x,
          p = path ∧ found = match x with Fulfilled _ => true
                                         | Rejected _ => false end
      | _ => λ _, False
      end x
  end.

(** A listing of [path], with the way it ended. *)
Definition listed (path : string) (how : settled (list string)) (ev : event)
    : Prop :=
  match ev with
  | @Performed X c x =>
      match c in call X return X → Prop with
      | FsReaddir p => λ x, p = path ∧ x = how
      | _ => λ _, False
      end x
  end.

(** A child process started through [execAsyncWithTimeout]. *)
Definition started (command : string) (ev : event) : Prop :=
  match ev with
  | Performed c _ =>
      match c with
      | ChildProcessExec cmd _ _ => cmd = command
      | _ => False
      end
  end.

(** ** The summary of a run *)

(** A file read at [path], with the way it ended. *)
Definition read_at (path : string) (how : settled string) (ev : event)
    : Prop :=
  match ev with
  | @Performed X c x =>
      match c in call X return X → Prop with
      | FsReadFile p => λ x, p = path ∧ x = how
      | _ => λ _, False
      end x
  end.

(** The text the report reader takes from a read: none when the file could
    not be read or is empty. *)
Definition text_of (how : settled string) : option string :=
  match how with
  | Fulfilled text => if String.eqb text "" then None else Some text
  | Rejected _ => None
  end.

(** A file name the reader takes for a timing report. *)
Definition timing_name (file : string) : bool :=
  JsString.includes "sta" file || JsString.includes "timing" file.

(** The file at [path] was read during [evs] and gave no text. *)
Definition gave_nothing (path : string) (evs : list event) : Prop :=
  ∃ how, Exists (read_at path how) evs ∧ text_of how = None.

Definition present (found : option string) : bool :=
  match found with Some _ => true | None => false end.

(** The entry of the [reports] object for a text that was found. *)
Definition entry (key : string) (limit : nat) (found : option string)
    : list (string * json) :=
  match found with
  | Some text => [(key, JStr (JsString.substring 0 limit text))]
  | None => []
  end.

Section RunFiles.

Context `{Platform}.

(** The number after "Number of cells:" in a synthesis report, and the
    number after "WNS" in a timing report: capture group 1 of the first
    match, as [parseInt] and [parseFloat] read it. *)
Definition cells_in (text : string) : option number :=
  match regexp_match "Number of cells:\s*(\d+)" "" text with
  | Some groups => Some (parseInt (nth 1 groups ""))
  | None => None
  end.

Definition slack_in (text : string) : option number :=
  match regexp_match "WNS.*?(-?\d+\.?\d*)" "i" text with
  | Some groups => Some (parseFloat (nth 1 groups ""))
  | None => None
  end.

(** What the summary [r] says, given the texts found for the synthesis
    report, the timing report and the final summary. *)
Definition says (r : results) (synthesis timing final : option string)
    : Prop :=
  reports r = entry "synthesis" 2000 synthesis ++ entry "timing" 2000 timing
              ++ entry "final_summary" 3000 final
  ∧ synthesis_complete r = present synthesis
  ∧ routing_complete r = present final
  ∧ total_cells r = synthesis ≫= cells_in
  ∧ timing_slack_ns r = timing ≫= slack_in
  ∧ timing_clean r = match timing ≫= slack_in with
                     | Some wns => at_least_zero wns
                     | None => false
                     end.

Variable project : project.
Variable latestRun : string.

(** The files of the run [latestRun] of a project. *)
Definition reports_dir : string :=
  path_join [dir project; "runs"; latestRun; "reports"].

Definition synthesis_report : string :=
  path_join [reports_dir; "synthesis"; "1-synthesis.stat.rpt"].

Definition routing_dir : string := path_join [reports_dir; "routing"].

Definition final_summary : string :=
  path_join [path_join [dir project; "runs"; latestRun; "final"];
             "final.summary.rpt"].

(** Where the three texts come from.  The synthesis text and the final
    summary are what reading their file gave. *)
Definition synthesis_source (evs : list event) (found : option string)
    : Prop :=
  ∃ how, Exists (read_at synthesis_report how) evs ∧ found = text_of how.

Definition final_source (evs : list event) (found : option string) : Prop :=
  ∃ how, Exists (read_at final_summary how) evs ∧ found = text_of how.

(** The timing files of a listing that come before the one that gave a
    text, or all of them when none did, were read and gave nothing. *)
Definition passed_over (files : list string) (evs : list event) : Prop :=
  Forall (λ file, timing_name file = true →
                  gave_nothing (path_join [routing_dir; file]) evs) files.

(** The timing text is that of the first file in the listing of
    [reports/routing] that has a timing name and gave a text; there is none
    when the directory could not be listed or no such file gave a text. *)
Definition timing_source (evs : list event) (found : option string) : Prop :=
  match found with
  | Some text =>
      ∃ before file after,
        Exists (listed routing_dir (Fulfilled (before ++ file :: after))) evs
        ∧ timing_name file = true
        ∧ Exists (read_at (path_join [routing_dir; file]) (Fulfilled text))
            evs
        ∧ text ≠ ""
        ∧ passed_over before evs
  | None =>
      (∃ e, Exists (listed routing_dir (Rejected e)) evs)
      ∨ (∃ files, Exists (listed routing_dir (Fulfilled files)) evs
                  ∧ passed_over files evs)
  end.

(** [r] is the summary of the run: it says what the three texts of the run
    give. *)
Definition summary_of_run (evs : list event) (r : results) : Prop :=
  ∃ synthesis timing final,
    synthesis_source evs synthesis
    ∧ timing_source evs timing
    ∧ final_source evs final
    ∧ says r synthesis timing final.

End RunFiles.

(** How the flags of a summary, its metrics and the keys of its [reports]
    object hang together; [timed] says whether a timing report was
    recorded. *)
Definition coherent (r : results) : Prop :=
  ∃ timed : bool,
    map fst (reports r)
    = (if synthesis_complete r then ["synthesis"] else [])
      ++ (if timed then ["timing"] else [])
      ++ (if routing_complete r then ["final_summary"] else [])
    ∧ match timing_slack_ns r with
      | Some wns => timed = true ∧ timing_clean r = at_least_zero wns
      | None => timing_clean r = false
      end
    ∧ (is_Some (total_cells r) → synthesis_complete r = true).

(** The [summary.status] of a report envelope. *)
Definition status_of (j : json) : option json :=
  field "summary" j ≫= field "status".

(** A property of the [ppa_metrics] object of a report envelope. *)
Definition metric_of (key : string) (j : json) : option json :=
  field "ppa_metrics" j ≫= field key.

Module MetricsExample.
Import Fixture.

(** A synthesis report with a cell count, and a timing report whose slack
    has 400 digits, more than a JavaScript number holds. *)
Definition synthesis_text : string := "Number of cells: 42".

Definition nines : string := string_of_list_ascii (repeat "9"%char 400).

Definition timing_text : string := "wns " +:+ nines.

(** The platform of the examples, with regular expressions and number
    parsers that know these two texts: [parseFloat] of the 400 digits is
    [Infinity]. *)
Definition knowing : Platform := {|
  path_join := JsString.join "/";
  path_basename := last_segment;
  regexp_match := λ source flags subject,
    if String.eqb source "Number of cells:\s*(\d+)"
       && String.eqb subject synthesis_text
    then Some [synthesis_text; "42"]
    else if String.eqb source "WNS.*?(-?\d+\.?\d*)" && String.eqb flags "i"
            && String.eqb subject timing_text
    then Some [timing_text; nines]
    else None;
  parseInt := λ s, if String.eqb s "42" then Finite 42 else NaN;
  parseFloat := λ s, if String.eqb s nines then PlusInfinity else NaN;
|}.

(** A flow project with two runs; the later one has both reports. *)
Definition reported : state :=
  {| projects := {[ "k3x9" := ReportExamples.flow_project ]};
     world :=
       {| files :=
            {[ "/home/u/openlane-projects/adder_k3x9/runs/RUN_2/reports/synthesis/1-synthesis.stat.rpt"
               := synthesis_text;
               "/home/u/openlane-projects/adder_k3x9/runs/RUN_2/reports/routing/sta.rpt"
               := timing_text ]};
          dirs :=
            {[ "/home/u/openlane-projects/adder_k3x9/runs"
               := ["RUN_2"; "RUN_1"];
               "/home/u/openlane-projects/adder_k3x9/runs/RUN_2/reports/routing"
               := ["drc.rpt"; "sta.rpt"] ]};
          shell_run := not_found; child := λ _, []; random := [];
          PATH := None |} |}.

Definition report_run : outcome json * state * list event :=
  exec (@readOpenlaneReports knowing "k3x9" None) reported.
End MetricsExample.

Module WaveformExample.
Import Fixture.

(** The testbench of a simulation project dumped [wave.vcd] and [tb.vcd],
    not [output.vcd]. *)
Definition other_dumps : state :=
  {| projects := {[ "k3x9" := KindExample.simulation_project ]};
     world :=
       {| files := ∅;
          dirs := {[ "/tmp/eda_mcp_1/sim_project_k3x9"
                     := ["design.v"; "wave.vcd"; "simulation"; "tb.vcd"] ]};
          shell_run := not_found; child := λ _, []; random := [];
          PATH := None |} |}.

Definition waveform_run : outcome json * state * list event :=
  exec (viewWaveform "k3x9" "output.vcd") other_dumps.
End WaveformExample.

Module LayoutExample.
Import Fixture.

(** A flow project with a layout file in its directory, on a machine where
    the viewer starts. *)
Definition with_layout : state :=
  {| projects := {[ "k3x9" := ReportExamples.flow_project ]};
     world :=
       {| files := {[ "/home/u/openlane-projects/adder_k3x9/adder.gds"
                      := "gds" ]};
          dirs := ∅; shell_run := not_found;
          child := λ _, [ExecCallback None "" ""]; random := [];
          PATH := None |} |}.

Definition layout_run : outcome json * state * list event :=
  exec (viewGds "k3x9" (Some "adder.gds")) with_layout.
End LayoutExample.

Module FlowExample.
Import Fixture.

(** No [python] is on the path, the wrapper script runs to its end, and
    nothing can be listed afterwards. *)
Definition runs_to_end : state :=
  fresh {| files := ∅; dirs := ∅; shell_run := not_found;
           child := λ _, [ExecCallback None "flow done" ""];
           random := [[1; 2; 3]]; PATH := Some "/usr/bin" |}.

Definition flow_run : outcome json * state * list event :=
  exec (runOpenlane server "module adder; endmodule" "adder" "clk" 10 true)
       runs_to_end.
End FlowExample.

(** ** Looking for an interpreter *)

(** The probe [which <candidate>] was rejected. *)
Definition probe_failed (candidate : string) (ev : event) : Prop :=
  ∃ e, ran_and_settled ("which " +:+ candidate) (Rejected e) ev.

(** ** Optional parameters *)

(** A value the handler does not use for the optional parameter [key]:
    not a number for the clock period, not a string for the target, the
    waveform file and the clock port, not a string or the empty string for
    the layout file and the report type, and anything but [false] for the
    flag that asks for the layout viewer. *)
Definition unusable (key : string) (v : json) : Prop :=
  (key = "clock_period" ∧ ∀ x, v ≠ JNum x)
  ∨ (key ∈ ["target"; "vcd_file"; "clock_port"] ∧ ∀ s, v ≠ JStr s)
  ∨ (key ∈ ["gds_file"; "report_type"] ∧ blank v)
  ∨ (key = "open_in_klayout" ∧ v ≠ JBool false).

(** ** The kill timer and Node's own limits *)

(** A call through one of the two helpers that arm a kill timer. *)
Definition timed (X : Type) (c : call X) : Prop :=
  match c with
  | ChildProcessExec _ _ _ | ChildProcessSpawn _ _ _ _ => True
  | _ => False
  end.

(** A command run through the promisified [exec] with the [timeout] option
    of Node set to [budget]. *)
Definition ran_with_timeout (command : string) (budget : N) (ev : event)
    : Prop :=
  match ev with
  | Performed c _ =>
      match c with
      | ExecAsync cmd options => cmd = command ∧ timeout options = Some budget
      | _ => False
      end
  end.

(** A probe [which <candidate>]. *)
Definition is_probe (command : string) : Prop :=
  ∃ candidate, command = "which " +:+ candidate.

(** Every command that went through the promisified [exec] is a probe. *)
Definition only_probes (X : Type) (c : call X) : Prop :=
  match c with
  | ExecAsync command _ => is_probe command
  | _ => True
  end.

(** A call that arms no kill timer. *)
Definition no_timer (X : Type) (c : call X) : Prop := ¬ timed X c.

(** The drivers that run their tools through the promisified [exec]. *)
Inductive untimed `{Platform} (this : EDAServer) : prog json → Prop :=
| untimed_synthesis verilogCode topModule target :
    untimed this (synthesizeVerilog this verilogCode topModule target)
| untimed_simulation verilogCode testbenchCode :
    untimed this (simulateVerilog this verilogCode testbenchCode)
| untimed_waveform projectId vcdFile :
    untimed this (viewWaveform projectId vcdFile)
| untimed_reports projectId reportType :
    untimed this (readOpenlaneReports projectId reportType).

(** The drivers that run a tool through [execAsyncWithTimeout]. *)
Inductive timer_guarded `{Platform} (this : EDAServer) : prog json → Prop :=
| timer_guarded_flow verilogCode designName clockPort clockPeriod
    openInKlayout :
    timer_guarded this (runOpenlane this verilogCode designName clockPort
                          clockPeriod openInKlayout)
| timer_guarded_layout projectId gdsFile :
    timer_guarded this (viewGds projectId gdsFile).

(** ** A simulation request *)

(** The workspace of a simulation request that drew [fraction], and the
    calls that prepare it when each of them succeeds. *)
Definition simulation_dir `{Platform} (this : EDAServer)
    (fraction : list nat) : string :=
  path_join [tempDir this; "sim_project_" +:+ projectId_of fraction].

Definition prepared `{Platform} (this : EDAServer) (fraction : list nat)
    (verilogCode testbenchCode : string) : list event :=
  [Performed MathRandomToString36 fraction;
   Performed (FsMkdir (simulation_dir this fraction)) (Fulfilled tt);
   Performed (FsWriteFile (path_join [simulation_dir this fraction; "design.v"])
                (Text verilogCode)) (Fulfilled tt);
   Performed (FsWriteFile
                (path_join [simulation_dir this fraction; "testbench.v"])
                (Text testbenchCode)) (Fulfilled tt)].

(** The state a simulation request leaves once its workspace is
    registered. *)
Definition simulation_registered `{Platform} {env : Environment}
    (this : EDAServer) (fraction : list nat) (σ : state) (w : World)
    : state :=
  {| projects := <[projectId_of fraction :=
                     {| dir := simulation_dir this fraction;
                        type := "simulation" |}]> (projects σ);
     world := w |}.

Module TimeoutExample.
Import Fixture.

(** The synthesis tool does not end.  Node ends it when the [timeout] of
    the options has passed, with its default signal [SIGTERM], and rejects
    as for any command that failed; the tool had written nothing. *)
Definition yosys_hangs : state :=
  fresh {| files := ∅; dirs := ∅;
           shell_run := λ command, Rejected (exec_failure command "");
           child := λ _, []; random := [[1; 2; 3]]; PATH := None |}.

Definition synthesis_run : outcome json * state * list event :=
  exec SynthesisExample.request yosys_hangs.

(** A command started with a kill timer does not end before the timer
    fires. *)
Definition sleeper : state :=
  fresh {| files := ∅; dirs := ∅; shell_run := not_found;
           child := λ _, [TimerExpires]; random := []; PATH := None |}.
End TimeoutExample.

Module OverflowExample.
Import Fixture.

(** Node's [exec] for a command that writes [stderr], nothing to its
    standard output, and exits with [status], when the options give no
    [maxBuffer]: more than 1 MiB on a stream ends the command and rejects
    with a [RangeError]. *)
Definition node_exec (command stderr : string) (status : Z)
    : settled (string * string) :=
  if (1024 * 1024 <? N.of_nat (String.length stderr))%N
  then Rejected (JsError "RangeError" "stderr maxBuffer length exceeded")
  else if (status =? 0)%Z then Fulfilled ("", stderr)
  else Rejected (exec_failure command stderr).

(** What the compiler writes to its standard error: one character more
    than 1 MiB. *)
Definition flood : string := PreviewExample.letters (N.to_nat 1048577).

Definition flooding_compiler (command : string) : settled (string * string) :=
  if String.eqb command compileCmd then node_exec command flood 1
  else Fulfilled ("", "").

Definition floods : state :=
  fresh {| files := ∅; dirs := ∅; shell_run := flooding_compiler;
           child := λ _, []; random := [[7; 20; 3]]; PATH := None |}.

Definition simulation_run : outcome json * state * list event :=
  exec (simulateVerilog server "module m(input [3:0] a); endmodule"
          "module tb; m uut(.a(1'b0)); endmodule") floods.
End OverflowExample.

(** * Properties *)

(** ** Facts about strings *)

Lemma append_cons (x : ascii) (a b : string) :
  String x a +:+ b = String x (a +:+ b).
Proof. reflexivity. Qed.

Lemma append_assoc (a b c : string) : (a +:+ b) +:+ c = a +:+ (b +:+ c).
Proof.
  induction a as [|x a IH]; [done |]. by rewrite !append_cons, IH.
Qed.

Lemma append_empty_r (a : string) : a +:+ "" = a.
Proof. induction a as [|x a IH]; [done |]. by rewrite append_cons, IH. Qed.

Lemma length_append (a b : string) :
  String.length (a +:+ b) = String.length a + String.length b.
Proof.
  induction a as [|x a IH]; [done |]. rewrite append_cons. simpl. by rewrite IH.
Qed.

Lemma contains_here (before needle after : string) :
  JsString.contains needle (before +:+ needle +:+ after).
Proof. by exists before, after. Qed.

Lemma contains_append_l (needle a b : string) :
  JsString.contains needle a → JsString.contains needle (a +:+ b).
Proof.
  intros (before & after & ->). exists before, (after +:+ b).
  by rewrite !append_assoc.
Qed.

Lemma contains_append_r (needle a b : string) :
  JsString.contains needle b → JsString.contains needle (a +:+ b).
Proof.
  intros (before & after & ->). exists (a +:+ before), after.
  by rewrite !append_assoc.
Qed.

Lemma contains_trans (a b c : string) :
  JsString.contains a b → JsString.contains b c → JsString.contains a c.
Proof.
  intros (p & q & ->) (p' & q' & ->). exists (p' +:+ p), (q +:+ q').
  by rewrite !append_assoc.
Qed.

Lemma contains_refl (s : string) : JsString.contains s s.
Proof. exists "", "". by rewrite append_empty_r. Qed.

Lemma prefix_append (a b : string) : String.prefix a (a +:+ b) = true.
Proof.
  induction a as [|x a IH].
  - change ("" +:+ b) with b. by destruct b.
  - rewrite append_cons. cbn [String.prefix].
    by destruct (Ascii.ascii_dec x x).
Qed.

Lemma contains_includes (needle hay : string) :
  JsString.contains needle hay → JsString.includes needle hay = true.
Proof.
  intros (before & after & ->).
  induction before as [|x before IH].
  - change ("" +:+ needle +:+ after) with (needle +:+ after).
    destruct (needle +:+ after) eqn:Happ; cbn [JsString.includes];
      by rewrite <- Happ, prefix_append.
  - rewrite append_cons. cbn [JsString.includes]. rewrite IH.
    apply orb_true_r.
Qed.

Create HintDb contains.
#[local] Hint Resolve contains_refl contains_append_l contains_append_r : contains.

(** ** The process runner *)

Module RunnerFacts.
Import Runner.

(** Once the promise is settled and the timer is off, no event changes
    the promise, the timer or the list of kills. *)
Lemma exec_settled_stable command timeoutMs events st :
  timer_armed st = false → is_Some (promise st) →
  let st' := fold_left (exec_step command timeoutMs) events st in
  timer_armed st' = false ∧ promise st' = promise st ∧ kills st' = kills st.
Proof.
  revert st. induction events as [|ev events IH]; intros st Hoff Hset; simpl.
  - done.
  - destruct ev as [|error stdout stderr]; simpl.
    + rewrite Hoff. by apply IH.
    + destruct Hset as [how Hhow].
      destruct (IH (exec_on_done error stdout stderr st)) as (? & Hp & Hk).
      * done.
      * simpl. rewrite Hhow. destruct error; simpl; eauto.
      * split_and!; [done | | done].
        rewrite Hp. simpl. rewrite Hhow. by destruct error.
Qed.

Lemma spawn_settled_stable command args timeoutMs events st :
  sp_timer_armed st = false → is_Some (sp_promise st) →
  let st' := fold_left (spawn_step command args timeoutMs) events st in
  sp_timer_armed st' = false ∧ sp_promise st' = sp_promise st
  ∧ sp_kills st' = sp_kills st.
Proof.
  revert st. induction events as [|ev events IH]; intros st Hoff Hset; simpl.
  - done.
  - destruct Hset as [how Hhow].
    destruct ev as [|chunk|chunk|code|error]; simpl.
    + rewrite Hoff. apply IH; eauto.
    + edestruct IH as (? & Hp & Hk); [| |split_and!; [done|by rewrite Hp|by rewrite Hk]];
        simpl; eauto.
    + edestruct IH as (? & Hp & Hk); [| |split_and!; [done|by rewrite Hp|by rewrite Hk]];
        simpl; eauto.
    + edestruct IH as (? & Hp & Hk); [| |split_and!; [done| |by rewrite Hk]].
      * done.
      * simpl. rewrite Hhow. destruct code as [[| |]|]; simpl; eauto.
      * rewrite Hp. simpl. rewrite Hhow. by destruct code as [[| |]|].
    + edestruct IH as (? & Hp & Hk); [| |split_and!; [done| |by rewrite Hk]].
      * done.
      * simpl. rewrite Hhow. simpl; eauto.
      * rewrite Hp. simpl. by rewrite Hhow.
Qed.

(** Output chunks leave the timer, the promise and the kills alone. *)
Lemma spawn_data_only command args timeoutMs data st :
  forallb is_data data = true →
  let st' := fold_left (spawn_step command args timeoutMs) data st in
  sp_timer_armed st' = sp_timer_armed st ∧ sp_promise st' = sp_promise st
  ∧ sp_kills st' = sp_kills st.
Proof.
  revert st. induction data as [|ev data IH]; intros st Hdata; simpl.
  - done.
  - simpl in Hdata. apply andb_prop in Hdata as [Hev Hdata].
    destruct ev; try discriminate; simpl;
      match goal with
      | |- context [fold_left _ data ?s] =>
          destruct (IH s Hdata) as (Ht & Hp & Hk)
      end; by rewrite Ht, Hp, Hk.
Qed.

Lemma timed_out_names timeoutMs text :
  ∃ msg, timed_out timeoutMs text = Error msg
         ∧ JsString.contains text msg
         ∧ JsString.contains (pretty timeoutMs) msg.
Proof.
  eexists. split_and!; [reflexivity | |].
  - auto 10 with contains.
  - auto 10 with contains.
Qed.

(** The kill timer fires first. *)
Lemma exec_timer_first command timeoutMs rest :
  let st := exec_run command timeoutMs (TimerExpires :: rest) in
  kills st = [SIGKILL]
  ∧ promise st = Some (Rejected (timed_out timeoutMs command)).
Proof.
  unfold exec_run. cbn [fold_left exec_step].
  cbn [exec_start timer_armed].
  edestruct (exec_settled_stable command timeoutMs rest
               (exec_on_timeout command timeoutMs exec_start))
    as (_ & Hp & Hk); [done | by eexists |].
  cbv zeta in Hp, Hk. cbv zeta. by rewrite Hp, Hk.
Qed.

Lemma spawn_timer_first command args timeoutMs data rest :
  forallb is_data data = true →
  let st := spawn_run command args timeoutMs
              (data ++ SpawnTimerExpires :: rest) in
  sp_kills st = [SIGKILL]
  ∧ sp_promise st
    = Some (Rejected (timed_out timeoutMs (command_line command args))).
Proof.
  intros Hdata. cbv zeta. unfold spawn_run. rewrite fold_left_app.
  destruct (spawn_data_only command args timeoutMs data spawn_start Hdata)
    as (Ht & Hp & Hk).
  cbv zeta in Ht, Hp, Hk.
  set (before := fold_left _ data _) in *.
  cbn [fold_left spawn_step]. rewrite Ht. cbn [spawn_start sp_timer_armed].
  match goal with
  | |- context [fold_left _ rest ?s] =>
      edestruct (spawn_settled_stable command args timeoutMs rest s)
        as (_ & Hp' & Hk')
  end; [done | cbn; rewrite Hp; by eexists |].
  cbv zeta in Hp', Hk'. rewrite Hp', Hk'. cbn. by rewrite Hp, Hk.
Qed.

End RunnerFacts.

(** ** Running programs: composition *)

Section ExecFacts.

Context {env : Environment}.

Lemma exec_bind {A B : Type} (f : A → prog B) (p : prog A) (σ : state) :
  exec (p ≫= f) σ =
    let '(o, σ', evs) := exec p σ in
    match o with
    | Returned a =>
        let '(o', σ'', evs') := exec (f a) σ' in (o', σ'', evs ++ evs')
    | Thrown e => (Thrown e, σ', evs)
    | NeverReturns => (NeverReturns, σ', evs)
    end.
Proof.
  unfold mbind, prog_bind. revert σ.
  induction p as [a|e| |X c k IH|id k IH|id pr k IH]; intros σ; simpl.
  - by destruct (exec (f a) σ) as [[o σ'] evs].
  - done.
  - done.
  - destruct (answer c (world σ)) as [x w]. rewrite IH.
    destruct (exec (k x) _) as [[[a|e|] σ'] evs]; [|done..].
    by destruct (exec (f a) σ') as [[o' σ''] evs'].
  - apply IH.
  - apply IH.
Qed.

Lemma exec_try_catch {A : Type} (p : prog A) (h : js_error → prog A)
    (σ : state) :
  exec (try_catch p h) σ =
    let '(o, σ', evs) := exec p σ in
    match o with
    | Thrown e =>
        let '(o', σ'', evs') := exec (h e) σ' in (o', σ'', evs ++ evs')
    | _ => (o, σ', evs)
    end.
Proof.
  revert σ.
  induction p as [a|e| |X c k IH|id k IH|id pr k IH]; intros σ; simpl.
  - done.
  - by destruct (exec (h e) σ) as [[o σ'] evs].
  - done.
  - destruct (answer c (world σ)) as [x w]. rewrite IH.
    destruct (exec (k x) _) as [[[a|e|] σ'] evs]; [done| |done].
    by destruct (exec (h e) σ') as [[o' σ''] evs'].
  - apply IH.
  - apply IH.
Qed.

Lemma exec_await {X : Type} (c : call (settled X)) (σ : state) :
  exec (await c) σ =
    let '(r, w) := answer c (world σ) in
    (match r with Fulfilled x => Returned x | Rejected e => Thrown e end,
     {| projects := projects σ; world := w |}, [Performed c r]).
Proof.
  unfold await. simpl. destruct (answer c (world σ)) as [[x|e] w]; done.
Qed.

Lemma exec_attempt {A : Type} (p : prog A) (σ : state) :
  exec (attempt p) σ =
    let '(o, σ', evs) := exec p σ in
    (match o with
     | Returned a => Returned (Fulfilled a)
     | Thrown e => Returned (Rejected e)
     | NeverReturns => NeverReturns
     end, σ', evs).
Proof.
  unfold attempt. rewrite exec_try_catch, exec_bind.
  destruct (exec p σ) as [[[a|e|] σ'] evs]; simpl; by rewrite ?app_nil_r.
Qed.

(** The caller of [execAsyncWithTimeout] sees the promise that the event
    loop settled: a timer that fires first makes the call throw the
    time-out error. *)
Lemma exec_execAsyncWithTimeout (command : string) (options : ExecOptions)
    (timeoutMs : N) (σ : state) :
  exec (execAsyncWithTimeout command options timeoutMs) σ =
    let '(events, w) :=
      answer (ChildProcessExec command (execOptions options) timeoutMs)
             (world σ) in
    (match Runner.promise (Runner.exec_run command timeoutMs events) with
     | Some (Fulfilled output) => Returned output
     | Some (Rejected e) => Thrown e
     | None => NeverReturns
     end,
     {| projects := projects σ; world := w |},
     [Performed (ChildProcessExec command (execOptions options) timeoutMs)
                events]).
Proof.
  unfold execAsyncWithTimeout. rewrite exec_bind. unfold perform. cbn [exec].
  destruct (answer _ (world σ)) as [events w].
  by destruct (Runner.promise _) as [[output|e]|].
Qed.

End ExecFacts.

(** ** Unknown project identifiers *)

(** C3. A view-waveform, view-layout or report-read call whose identifier
    is not in the registry returns the envelope [{success: false, error}],
    the error naming the identifier as not found, and makes no call to the
    outside world at all (so no directory is touched); the registry is left
    as it was. *)
Theorem unknown_project_not_found `{Platform} {env : Environment}
    (σ : state) (projectId vcdFile : string)
    (gdsFile reportType : option string)
    (Hunknown : projects σ !! projectId = None) :
  (∃ msg,
     exec (viewWaveform projectId vcdFile) σ
       = (Returned (JObj [("success", JBool false); ("error", JStr msg)]), σ, [])
     ∧ JsString.contains projectId msg ∧ JsString.contains "not found" msg)
  ∧ (∃ msg,
     exec (viewGds projectId gdsFile) σ
       = (Returned (JObj [("success", JBool false); ("error", JStr msg)]), σ, [])
     ∧ JsString.contains projectId msg ∧ JsString.contains "not found" msg)
  ∧ (∃ msg,
     exec (readOpenlaneReports projectId reportType) σ
       = (Returned (JObj [("success", JBool false); ("error", JStr msg)]), σ, [])
     ∧ JsString.contains projectId msg ∧ JsString.contains "not found" msg).
Proof.
  split_and!.
  - exists ("Project " +:+ projectId +:+ " not found. Run a simulation first.").
    split_and!.
    + unfold viewWaveform. cbn [try_catch exec]. by rewrite Hunknown.
    + auto with contains.
    + apply contains_append_r, contains_append_r.
      apply (contains_here " " "not found" ". Run a simulation first.").
  - exists ("Project " +:+ projectId +:+ " not found.").
    split_and!.
    + unfold viewGds. cbn [try_catch exec]. by rewrite Hunknown.
    + auto with contains.
    + apply contains_append_r, contains_append_r.
      apply (contains_here " " "not found" ".").
  - exists ("Project " +:+ projectId +:+ " not found.").
    split_and!.
    + unfold readOpenlaneReports. cbn [try_catch exec]. by rewrite Hunknown.
    + auto with contains.
    + apply contains_append_r, contains_append_r.
      apply (contains_here " " "not found" ".").
Qed.

Lemma unknown_project_not_found_witness :
  projects (Fixture.fresh (Fixture.bare [])) !! "k3x9" = None
  ∧ ∃ msg,
      exec (readOpenlaneReports "k3x9" None)
           (Fixture.fresh (Fixture.bare []))
      = (Returned (JObj [("success", JBool false); ("error", JStr msg)]),
         Fixture.fresh (Fixture.bare []), [])
      ∧ JsString.contains "k3x9" msg ∧ JsString.contains "not found" msg.
Proof.
  split; [reflexivity |].
  exact (proj2 (proj2 (unknown_project_not_found
                         (Fixture.fresh (Fixture.bare [])) "k3x9" "output.vcd"
                         None None eq_refl))).
Defined.

(** ** Reading reports before a run exists *)

(** C7. For a registered project, the report-read driver answers
    [{success: false}] with "No runs directory found. Run OpenLane flow
    first." when listing [runs/] fails (the directory does not exist), and
    with the different message "No OpenLane runs found. Run OpenLane flow
    first." when [runs/] exists and has no entry.  In both cases listing
    [runs/] is the only call made. *)
Theorem missing_and_empty_runs_differ `{Platform} {env : Environment}
    (σ : state) (projectId : string) (reportType : option string)
    (project : project)
    (Hknown : projects σ !! projectId = Some project) :
  let runsDir := path_join [dir project; "runs"] in
  let listed := answer (FsReaddir runsDir) (world σ) in
  let after := {| projects := projects σ; world := listed.2 |} in
  (∀ e, listed.1 = Rejected e →
        exec (readOpenlaneReports projectId reportType) σ
        = (Returned (JObj [("success", JBool false);
                           ("error", JStr "No runs directory found. Run OpenLane flow first.")]),
           after, [Performed (FsReaddir runsDir) (Rejected e)]))
  ∧ (listed.1 = Fulfilled [] →
        exec (readOpenlaneReports projectId reportType) σ
        = (Returned (JObj [("success", JBool false);
                           ("error", JStr "No OpenLane runs found. Run OpenLane flow first.")]),
           after, [Performed (FsReaddir runsDir) (Fulfilled [])]))
  ∧ "No runs directory found. Run OpenLane flow first."
    ≠ "No OpenLane runs found. Run OpenLane flow first.".
Proof.
  intros runsDir listed after. split_and!.
  - intros e He. subst after listed runsDir. unfold readOpenlaneReports.
    rewrite exec_try_catch. cbn [exec]. rewrite Hknown.
    rewrite exec_bind, exec_attempt, exec_await.
    destruct (answer _ (world σ)) as [r w]. simpl in He. by subst r.
  - intros He. subst after listed runsDir. unfold readOpenlaneReports.
    rewrite exec_try_catch. cbn [exec]. rewrite Hknown.
    rewrite exec_bind, exec_attempt, exec_await.
    destruct (answer _ (world σ)) as [r w]. simpl in He. by subst r.
  - discriminate.
Qed.

Lemma missing_and_empty_runs_differ_witness :
  projects ReportExamples.not_run !! "k3x9" = Some ReportExamples.flow_project
  ∧ projects ReportExamples.empty_runs !! "k3x9"
    = Some ReportExamples.flow_project
  ∧ (exec (readOpenlaneReports "k3x9" None) ReportExamples.not_run).1.1
    = Returned (JObj [("success", JBool false);
                      ("error", JStr "No runs directory found. Run OpenLane flow first.")])
  ∧ (exec (readOpenlaneReports "k3x9" None) ReportExamples.empty_runs).1.1
    = Returned (JObj [("success", JBool false);
                      ("error", JStr "No OpenLane runs found. Run OpenLane flow first.")]).
Proof.
  split; [reflexivity |]. split; [reflexivity |]. split.
  - destruct (missing_and_empty_runs_differ ReportExamples.not_run "k3x9" None
                ReportExamples.flow_project eq_refl) as (Hmissing & _ & _).
    by rewrite (Hmissing _ eq_refl).
  - destruct (missing_and_empty_runs_differ ReportExamples.empty_runs "k3x9"
                None ReportExamples.flow_project eq_refl) as (_ & Hempty & _).
    by rewrite (Hempty eq_refl).
Defined.

(** ** Validation of required parameters *)

Lemma validate_unsupplied (args : arguments) (key toolName : string) :
  supplied args key = false →
  validateRequiredString args key toolName
  = inl (McpError InvalidParams (missing_parameter key toolName)).
Proof.
  unfold supplied, validateRequiredString. intros Hs.
  apply negb_false_iff in Hs. by rewrite Hs.
Qed.

Lemma validate_supplied (args : arguments) (key toolName : string) :
  supplied args key = true →
  validateRequiredString args key toolName
  = inr (getStringProperty args key "").
Proof.
  unfold supplied, validateRequiredString. intros Hs.
  apply negb_true_iff in Hs. by rewrite Hs.
Qed.

(** The handler rejects a call as soon as one required parameter is not
    supplied, before any driver starts. *)
Lemma callTool_rejects `{Platform} (this : EDAServer) (name : string)
    (required : list string) (args : arguments) (key : string) :
  (name, required) ∈ tools →
  first_unsupplied args required = Some key →
  callTool this name args
  = Throw (McpError InvalidParams (missing_parameter key name)).
Proof.
  intros Htool Hfirst. unfold tools in Htool.
  repeat (apply elem_of_cons in Htool as [Htool | Htool];
          [injection Htool as -> ->|]);
    [..|by apply elem_of_nil in Htool];
    unfold first_unsupplied in Hfirst; cbn [find] in Hfirst;
    unfold callTool, dispatch; cbn [String.eqb Ascii.eqb Bool.eqb andb];
    repeat match type of Hfirst with
      | context [supplied args ?k] =>
          let Hs := fresh "Hs" in
          destruct (supplied args k) eqn:Hs; cbn [negb] in Hfirst;
          [rewrite (validate_supplied _ _ _ Hs)
          |rewrite (validate_unsupplied _ _ _ Hs)]
      end;
    try discriminate; by injection Hfirst as <-.
Qed.

Lemma absent_unsupplied (args : arguments) (key : string) :
  absent args key → supplied args key = false.
Proof.
  unfold absent, supplied, getStringProperty.
  destruct args as [o|]; [intros ->|]; done.
Qed.

Lemma first_unsupplied_exists (args : arguments) (required : list string)
    (key : string) :
  key ∈ required → supplied args key = false →
  ∃ named, first_unsupplied args required = Some named
           ∧ named ∈ required ∧ supplied args named = false
           ∧ ((∀ other, other ∈ required → other ≠ key →
                        supplied args other = true) → named = key).
Proof.
  intros Hin Hkey. unfold first_unsupplied.
  destruct (find _ required) as [named|] eqn:Hfind.
  - apply find_some in Hfind as [Hnamed Hs]. apply negb_true_iff in Hs.
    exists named. split_and!; [done | by apply list_elem_of_In | done |].
    intros Hothers. destruct (decide (named = key)) as [|Hne]; [done |].
    rewrite (Hothers named) in Hs; [done | by apply list_elem_of_In | done].
  - apply list_elem_of_In in Hin.
    pose proof (find_none _ _ Hfind key Hin) as Hs. simpl in Hs.
    by rewrite Hkey in Hs.
Qed.

(** C6. A call to one of the six tools that omits a required parameter is
    answered by an [McpError] with code [InvalidParams], never by an
    envelope: the handler throws before any driver starts and before any
    call to the outside world.  The message names the tool and a required
    parameter that the request does not supply; it is the omitted one
    whenever the other required parameters are supplied. *)
Theorem missing_parameter_is_named `{Platform} {env : Environment}
    (this : EDAServer) (name : string) (required : list string)
    (args : arguments) (key : string) (σ : state)
    (Htool : (name, required) ∈ tools)
    (Hrequired : key ∈ required)
    (Habsent : absent args key) :
  ∃ named,
    callTool this name args
    = Throw (McpError InvalidParams
               ("Missing required parameter '" +:+ named +:+ "' for tool '"
                +:+ name +:+ "'"))
    ∧ exec (callTool this name args) σ
      = (Thrown (McpError InvalidParams (missing_parameter named name)), σ, [])
    ∧ named ∈ required
    ∧ supplied args named = false
    ∧ ((∀ other, other ∈ required → other ≠ key → supplied args other = true)
       → named = key).
Proof.
  destruct (first_unsupplied_exists args required key Hrequired
              (absent_unsupplied _ _ Habsent))
    as (named & Hfirst & Hin & Hs & Honly).
  exists named.
  pose proof (callTool_rejects this name required args named Htool Hfirst) as Hc.
  split_and!; [exact Hc | by rewrite Hc | done..].
Qed.

Lemma missing_parameter_is_named_witness :
  ("synthesize_verilog", ["verilog_code"; "top_module"]) ∈ tools
  ∧ "top_module" ∈ ["verilog_code"; "top_module"]
  ∧ absent (Some {[ "verilog_code" := JStr "module m; endmodule" ]}) "top_module"
  ∧ callTool Fixture.server "synthesize_verilog"
      (Some {[ "verilog_code" := JStr "module m; endmodule" ]})
    = Throw (McpError InvalidParams
               "Missing required parameter 'top_module' for tool 'synthesize_verilog'").
Proof.
  assert (Htool : ("synthesize_verilog", ["verilog_code"; "top_module"]) ∈ tools)
    by (apply list_elem_of_In; simpl; auto).
  assert (Hreq : "top_module" ∈ ["verilog_code"; "top_module"])
    by (apply list_elem_of_In; simpl; auto).
  assert (Habs : absent (Some {[ "verilog_code" := JStr "module m; endmodule" ]})
                        "top_module") by reflexivity.
  split_and!; [exact Htool | exact Hreq | exact Habs |].
  destruct (missing_parameter_is_named Fixture.server "synthesize_verilog"
              ["verilog_code"; "top_module"]
              (Some {[ "verilog_code" := JStr "module m; endmodule" ]})
              "top_module" (Fixture.fresh (Fixture.bare [])) Htool Hreq Habs)
    as (named & Hthrow & _ & _ & _ & Honly).
  rewrite Hthrow. rewrite Honly; [reflexivity |].
  intros other Hother Hne.
  apply list_elem_of_In in Hother. simpl in Hother.
  destruct Hother as [<- | [<- | []]]; [reflexivity | done].
Defined.

Lemma find_agree {A : Type} (f g : A → bool) (l : list A) :
  (∀ x, f x = g x) → find f l = find g l.
Proof.
  intros Hfg. induction l as [|x l IH]; simpl; [done |].
  by rewrite Hfg, IH.
Qed.

Lemma blank_like_absent (o : gmap string json) (key : string) (v : json)
    (k : string) :
  o !! key = Some v → blank v →
  getStringProperty (Some (delete key o)) k ""
  = getStringProperty (Some o) k "".
Proof.
  intros Hv Hblank. unfold getStringProperty.
  destruct (decide (key = k)) as [<-|Hne].
  - rewrite lookup_delete_eq, Hv. destruct v; try done.
    by rewrite (Hblank _ eq_refl).
  - by rewrite lookup_delete_ne.
Qed.

(** C10. A required parameter whose value is present but is the empty
    string or not a string (a number, [null], ...) is treated exactly as if
    it were absent: the handler gives the same result as for the request
    without that property, and this result is the "Missing required
    parameter" error, thrown before any driver starts and before any call
    to the outside world. *)
Theorem blank_value_same_as_absent `{Platform} {env : Environment}
    (this : EDAServer) (name : string) (required : list string)
    (o : gmap string json) (key : string) (v : json) (σ : state)
    (Htool : (name, required) ∈ tools)
    (Hrequired : key ∈ required)
    (Hvalue : o !! key = Some v)
    (Hblank : blank v) :
  callTool this name (Some o) = callTool this name (Some (delete key o))
  ∧ ∃ named,
      callTool this name (Some o)
      = Throw (McpError InvalidParams
                 ("Missing required parameter '" +:+ named +:+ "' for tool '"
                  +:+ name +:+ "'"))
      ∧ exec (callTool this name (Some o)) σ
        = (Thrown (McpError InvalidParams (missing_parameter named name)), σ, [])
      ∧ named ∈ required
      ∧ supplied (Some o) named = false
      ∧ ((∀ other, other ∈ required → other ≠ key →
                   supplied (Some o) other = true) → named = key).
Proof.
  assert (Hkey : supplied (Some o) key = false).
  { unfold supplied, getStringProperty. rewrite Hvalue.
    destruct v; try done. by rewrite (Hblank _ eq_refl). }
  destruct (first_unsupplied_exists (Some o) required key Hrequired Hkey)
    as (named & Hfirst & Hin & Hs & Honly).
  assert (Hfirst' : first_unsupplied (Some (delete key o)) required = Some named).
  { rewrite <- Hfirst. unfold first_unsupplied, supplied.
    apply find_agree. intros k. by rewrite (blank_like_absent o key v k). }
  pose proof (callTool_rejects this name required _ named Htool Hfirst) as Hc.
  pose proof (callTool_rejects this name required _ named Htool Hfirst') as Hc'.
  split; [by rewrite Hc, Hc' |].
  exists named. split_and!; [exact Hc | by rewrite Hc | done..].
Qed.

Lemma blank_value_same_as_absent_witness :
  ("view_waveform", ["project_id"]) ∈ tools
  ∧ "project_id" ∈ ["project_id"]
  ∧ ({[ "project_id" := JNum 7 ]} : gmap string json) !! "project_id"
    = Some (JNum 7)
  ∧ blank (JNum 7)
  ∧ callTool Fixture.server "view_waveform" (Some {[ "project_id" := JNum 7 ]})
    = callTool Fixture.server "view_waveform"
        (Some (delete "project_id" {[ "project_id" := JNum 7 ]})).
Proof.
  assert (Htool : ("view_waveform", ["project_id"]) ∈ tools)
    by (apply list_elem_of_In; simpl; auto).
  assert (Hreq : "project_id" ∈ ["project_id"])
    by (apply list_elem_of_In; simpl; auto).
  assert (Hblank : blank (JNum 7)) by (intros s Hs; discriminate Hs).
  split_and!; [exact Htool | exact Hreq | reflexivity | exact Hblank |].
  exact (proj1 (blank_value_same_as_absent Fixture.server "view_waveform"
                  ["project_id"] {[ "project_id" := JNum 7 ]} "project_id"
                  (JNum 7) (Fixture.fresh (Fixture.bare []))
                  Htool Hreq eq_refl Hblank)).
Defined.

(** ** Simulation: compile, then run *)

Lemma message_or_string_exec_failure (command stderr : string) :
  message_or_string (exec_failure command stderr)
  = "Command failed: " +:+ command +:+ JsString.nl +:+ stderr.
Proof. reflexivity. Qed.

(** Unfolds a driver into the calls it makes, one case per answer. *)
Ltac open_program :=
  unfold newProjectId, await, perform, attempt, commandExists, mbind, mret,
    prog_bind, prog_ret;
  cbn [bind try_catch exec].

Ltac next_answer :=
  match goal with
  | |- context [answer ?c ?w] =>
      let x := fresh "x" in
      let w' := fresh "w" in
      destruct (answer c w) as [x w'];
      lazymatch type of x with
      | settled _ => destruct x as [?|?]
      | _ => idtac
      end;
      cbn [bind try_catch exec world projects]
  end.

Ltac split_pair :=
  match goal with
  | |- context [let '(_, _) := ?v in _] =>
      is_var v; destruct v as [? ?];
      cbn [bind try_catch exec world projects]
  end.

Ltac walk := repeat first [split_pair | next_answer].

Ltac decide_events H :=
  repeat first
    [ apply Exists_cons in H as [H | H]
    | apply Exists_nil in H ];
  cbn in H; try contradiction.

Ltac at_index i Hi Hran :=
  destruct i as [|i];
  [ injection Hi as <-; cbn in Hran
  | cbn in Hi; first [discriminate Hi | at_index i Hi Hran] ].

Lemma triple_eta {A B C : Type} (t : A * B * C) : t = (t.1.1, t.1.2, t.2).
Proof. by destruct t as [[a b] c]. Qed.

(** In every run, whatever the world answers, the executable is run only
    after the compile command succeeded. *)
Lemma simulation_after_compile `{Platform} {env : Environment}
    (this : EDAServer) (verilogCode testbenchCode : string) (σ σ' : state)
    (o : outcome json) (evs : list event) :
  exec (simulateVerilog this verilogCode testbenchCode) σ = (o, σ', evs) →
  ∀ i ev, evs !! i = Some ev → ran "./simulation" ev →
    ∃ j ev' out, j < i ∧ evs !! j = Some ev'
                 ∧ ran_and_settled compileCmd (Fulfilled out) ev'.
Proof.
  unfold simulateVerilog. open_program. walk.
  all: intros [= <- <- <-].
  all: intros i ev Hi Hran; at_index i Hi Hran;
       try contradiction; unfold compileCmd in Hran;
       try discriminate Hran;
       exists 4; do 2 eexists; split_and!;
       first [lia | reflexivity | by cbn].
Qed.

(** What a simulation request does once its workspace is prepared, by the
    answer to the compile command. *)
Lemma simulateVerilog_compiled `{Platform} {env : Environment}
    (this : EDAServer) (verilogCode testbenchCode : string) (σ : state)
    (fraction : list nat) (w0 w1 w2 w3 w4 : World)
    (compiled : settled (string * string)) :
  let projectDir := simulation_dir this fraction in
  answer MathRandomToString36 (world σ) = (fraction, w0) →
  answer (FsMkdir projectDir) w0 = (Fulfilled tt, w1) →
  answer (FsWriteFile (path_join [projectDir; "design.v"]) (Text verilogCode))
    w1 = (Fulfilled tt, w2) →
  answer (FsWriteFile (path_join [projectDir; "testbench.v"])
            (Text testbenchCode)) w2 = (Fulfilled tt, w3) →
  answer (ExecAsync compileCmd (sim_options projectDir)) w3 = (compiled, w4) →
  exec (simulateVerilog this verilogCode testbenchCode) σ
  = match compiled with
    | Rejected e =>
        (Returned (failure e), simulation_registered this fraction σ w4,
         prepared this fraction verilogCode testbenchCode
         ++ [Performed (ExecAsync compileCmd (sim_options projectDir))
               (Rejected e)])
    | Fulfilled (compileOut, compileErr) =>
        let '(simulated, w5) :=
          answer (ExecAsync "./simulation" (sim_options projectDir)) w4 in
        (Returned
           match simulated with
           | Rejected e => failure e
           | Fulfilled (simOut, simErr) =>
               JObj [("project_id", JStr (projectId_of fraction));
                     ("success", JBool true);
                     ("compile_stdout", JStr compileOut);
                     ("compile_stderr", JStr compileErr);
                     ("sim_stdout", JStr simOut);
                     ("sim_stderr", JStr simErr);
                     ("note", JStr ("Use view_waveform with project_id: "
                                    +:+ projectId_of fraction
                                    +:+ " to open GTKWave"))]
           end,
         simulation_registered this fraction σ w5,
         prepared this fraction verilogCode testbenchCode
         ++ [Performed (ExecAsync compileCmd (sim_options projectDir))
               (Fulfilled (compileOut, compileErr));
             Performed (ExecAsync "./simulation" (sim_options projectDir))
               simulated])
    end.
Proof.
  intros projectDir Hdraw Hmkdir Hdesign Hbench Hcompile.
  subst projectDir. unfold simulateVerilog, simulation_dir in *.
  open_program. rewrite Hdraw. cbn [bind try_catch exec world projects].
  rewrite Hmkdir. cbn [bind try_catch exec world projects].
  rewrite Hdesign. cbn [bind try_catch exec world projects].
  rewrite Hbench. cbn [bind try_catch exec world projects].
  rewrite Hcompile. destruct compiled as [[compileOut compileErr]|e];
    cbn [bind try_catch exec world projects]; [|done].
  destruct (answer (ExecAsync "./simulation" _) w4) as [[[simOut simErr]|e] w5];
    by cbn [bind try_catch exec world projects].
Qed.

Lemma flood_length : String.length OverflowExample.flood = N.to_nat 1048577.
Proof.
  unfold OverflowExample.flood, PreviewExample.letters.
  generalize (N.to_nat 1048577). intros n.
  induction n as [|n IH]; [done |]. cbn. by rewrite IH.
Qed.

Lemma flooding_compiler_rejects :
  OverflowExample.flooding_compiler compileCmd
  = Rejected (JsError "RangeError" "stderr maxBuffer length exceeded").
Proof.
  unfold OverflowExample.flooding_compiler. rewrite String.eqb_refl.
  unfold OverflowExample.node_exec. by rewrite flood_length, N2Nat.id.
Qed.

Lemma flooded_answer (options : ExecOptions) (w : @World Fixture.environment) :
  Fixture.shell_run w = OverflowExample.flooding_compiler →
  answer (ExecAsync compileCmd options) w
  = (Rejected (JsError "RangeError" "stderr maxBuffer length exceeded"), w).
Proof.
  intros Hw.
  change (answer (ExecAsync compileCmd options) w)
    with (Fixture.shell_run w compileCmd, w).
  by rewrite Hw, flooding_compiler_rejects.
Qed.

(** C4, as stated, fails: the compiler writes more than 1 MiB to its
    standard error, Node ends it and rejects with "stderr maxBuffer length
    exceeded", and this alone is the error the driver reports; what the
    compiler wrote is not part of it. *)
Lemma compile_overflow_hides_stderr :
  ∃ envelope message,
    OverflowExample.simulation_run.1.1 = Returned envelope
    ∧ field "success" envelope = Some (JBool false)
    ∧ field "error" envelope = Some (JStr message)
    ∧ Exists (λ ev, ∃ e, ran_and_settled compileCmd (Rejected e) ev)
        OverflowExample.simulation_run.2
    ∧ ¬ JsString.contains OverflowExample.flood message.
Proof.
  unshelve epose proof
    (simulateVerilog_compiled Fixture.server
       "module m(input [3:0] a); endmodule"
       "module tb; m uut(.a(1'b0)); endmodule"
       OverflowExample.floods [7; 20; 3] _ _ _ _ _ _
       eq_refl eq_refl eq_refl eq_refl (flooded_answer _ _ _)) as Hrun;
    [reflexivity |].
  lazy beta iota zeta in Hrun.
  unfold OverflowExample.simulation_run. rewrite Hrun. clear Hrun.
  cbn [fst snd].
  exists (failure (JsError "RangeError" "stderr maxBuffer length exceeded")),
    "stderr maxBuffer length exceeded".
  split_and!; [reflexivity.. | |].
  - apply Exists_app. right. apply Exists_cons_hd.
    eexists. split; reflexivity.
  - intros (before & after & Hmessage).
    apply (f_equal String.length) in Hmessage.
    rewrite !length_append, flood_length in Hmessage.
    cbn [String.length] in Hmessage. lia.
Qed.

(** C4, amended.  A simulation request that has prepared its workspace
    (identifier drawn, directory created, design and testbench written)
    runs the compile command next.  When that command is rejected, the
    driver makes no further call, so the executable is never run, and
    returns [{success: false, error}] where [error] is the message of the
    rejection; the compiler's standard error is part of it when the
    rejection is the one Node builds for a command that ended with a
    non-zero status.  When the compile command succeeds, the executable
    is run as the very next call, and it is the last.  And in every run,
    whatever the world answers, the executable is run only after the
    compile command succeeded. *)
Theorem compile_failure_short_circuits `{Platform} {env : Environment}
    (this : EDAServer) (verilogCode testbenchCode : string) (σ : state)
    (fraction : list nat) (w0 w1 w2 w3 w4 : World)
    (compiled : settled (string * string))
    (Hdraw : answer MathRandomToString36 (world σ) = (fraction, w0))
    (Hmkdir : answer (FsMkdir (simulation_dir this fraction)) w0
              = (Fulfilled tt, w1))
    (Hdesign : answer (FsWriteFile
                         (path_join [simulation_dir this fraction; "design.v"])
                         (Text verilogCode)) w1 = (Fulfilled tt, w2))
    (Hbench : answer (FsWriteFile
                        (path_join [simulation_dir this fraction;
                                    "testbench.v"])
                        (Text testbenchCode)) w2 = (Fulfilled tt, w3))
    (Hcompile : answer (ExecAsync compileCmd
                          (sim_options (simulation_dir this fraction))) w3
                = (compiled, w4)) :
  let compile := ExecAsync compileCmd
                   (sim_options (simulation_dir this fraction)) in
  let simulate := ExecAsync "./simulation"
                    (sim_options (simulation_dir this fraction)) in
  (∀ e, compiled = Rejected e →
     exec (simulateVerilog this verilogCode testbenchCode) σ
     = (Returned (JObj [("success", JBool false);
                        ("error", JStr (message_or_string e))]),
        simulation_registered this fraction σ w4,
        prepared this fraction verilogCode testbenchCode
        ++ [Performed compile (Rejected e)])
     ∧ Forall (λ ev, ¬ ran "./simulation" ev)
         (exec (simulateVerilog this verilogCode testbenchCode) σ).2
     ∧ ∀ stderr, e = exec_failure compileCmd stderr →
         ∃ message,
           (exec (simulateVerilog this verilogCode testbenchCode) σ).1.1
           = Returned (JObj [("success", JBool false);
                             ("error", JStr message)])
           ∧ JsString.contains stderr message)
  ∧ (∀ output, compiled = Fulfilled output →
       ∃ o,
         exec (simulateVerilog this verilogCode testbenchCode) σ
         = (o, simulation_registered this fraction σ (answer simulate w4).2,
            prepared this fraction verilogCode testbenchCode
            ++ [Performed compile (Fulfilled output);
                Performed simulate (answer simulate w4).1]))
  ∧ (∀ i ev,
       (exec (simulateVerilog this verilogCode testbenchCode) σ).2 !! i
       = Some ev →
       ran "./simulation" ev →
       ∃ j ev' out,
         j < i
         ∧ (exec (simulateVerilog this verilogCode testbenchCode) σ).2 !! j
           = Some ev'
         ∧ ran_and_settled compileCmd (Fulfilled out) ev').
Proof.
  intros compile simulate.
  pose proof (simulateVerilog_compiled this verilogCode testbenchCode σ
                fraction w0 w1 w2 w3 w4 compiled Hdraw Hmkdir Hdesign Hbench
                Hcompile) as Hrun.
  split_and!.
  - intros e ->. rewrite Hrun. split_and!; [done | |].
    + cbn [snd]. unfold prepared, compileCmd.
      repeat constructor; cbn; try tauto; discriminate.
    + intros stderr ->. eexists. split; [reflexivity |].
      rewrite message_or_string_exec_failure. auto 10 with contains.
  - intros [compileOut compileErr] ->. rewrite Hrun. subst simulate.
    destruct (answer (ExecAsync "./simulation" _) w4) as [simulated w5].
    by eexists.
  - intros i ev. eapply simulation_after_compile. apply triple_eta.
Qed.

Lemma compile_failure_short_circuits_witness :
  SimulationExample.finish.1.1
  = Returned
      (JObj [("success", JBool false);
             ("error",
              JStr ("Command failed: iverilog -o simulation design.v testbench.v"
                    +:+ JsString.nl +:+ SimulationExample.compiler_stderr))])
  ∧ Forall (λ ev, ¬ ran "./simulation" ev) SimulationExample.finish.2
  ∧ JsString.contains SimulationExample.compiler_stderr
      ("Command failed: iverilog -o simulation design.v testbench.v"
       +:+ JsString.nl +:+ SimulationExample.compiler_stderr).
Proof.
  destruct (compile_failure_short_circuits Fixture.server
              "module m(input [3:0] a); endmodule"
              "module tb; m uut(.a(1'b0)); endmodule"
              SimulationExample.start [7; 20; 3]
              _ _ _ _ _
              (Rejected (exec_failure compileCmd
                           SimulationExample.compiler_stderr))
              eq_refl eq_refl eq_refl eq_refl eq_refl) as [Hfail _].
  destruct (Hfail _ eq_refl) as (Hrun & Hnever & Hstderr).
  split_and!.
  - unfold SimulationExample.finish. by rewrite Hrun.
  - exact Hnever.
  - destruct (Hstderr _ eq_refl) as (message & Hmessage & Hcontains).
    rewrite Hrun in Hmessage. by injection Hmessage as <-.
Defined.

(** ** Synthesis: the envelope and the output file *)




(** ** Report excerpts *)

Lemma substring_prefix_length (n : nat) (s : string) :
  String.length (JsString.substring 0 n s) = Nat.min n (String.length s).
Proof.
  unfold JsString.substring. rewrite Nat.min_0_l, Nat.max_0_l, Nat.sub_0_r.
  revert s. induction n as [|n IH]; intros [|c s]; simpl; try done.
  by rewrite IH.
Qed.

Lemma substring_prefix_whole (n : nat) (s : string) :
  String.length s ≤ n → JsString.substring 0 n s = s.
Proof.
  unfold JsString.substring. rewrite Nat.min_0_l, Nat.max_0_l, Nat.sub_0_r.
  revert s. induction n as [|n IH]; intros [|c s]; simpl; try done.
  - lia.
  - intros Hlen. rewrite IH; [done | lia].
Qed.

(** [substring(0, n)] gives the first [n] characters. *)
Lemma first_chars_substring (n : nat) (text : string) :
  first_chars n text (JsString.substring 0 n text).
Proof.
  unfold first_chars, JsString.substring.
  rewrite Nat.min_0_l, Nat.max_0_l, Nat.sub_0_r.
  revert text. induction n as [|n IH]; intros [|c text]; simpl.
  - by exists "".
  - by exists (String c text).
  - by exists "".
  - destruct (IH text) as (rest & Htext & Hlen). exists rest.
    rewrite append_cons, <- Htext. simpl. by rewrite Hlen.
Qed.

(** The first characters are at most [n], and all of a text that fits. *)
Lemma first_chars_bound (n : nat) (text s : string) :
  first_chars n text s →
  String.length s ≤ n ∧ (String.length text ≤ n → s = text).
Proof.
  intros (rest & -> & Hlen). rewrite length_append in Hlen.
  split; [lia |]. rewrite length_append. intros Hfits.
  assert (Hrest : String.length rest = 0) by lia.
  destruct rest; [by rewrite append_empty_r | discriminate].
Qed.

Lemma excerpt_of_later (before after : list event) (entry : string * json) :
  excerpt_of before entry → excerpt_of (before ++ after) entry.
Proof.
  intros (text & s & ? & Hread & ?). exists text, s.
  split_and!; [done | | done]. apply Exists_app. by left.
Qed.

Lemma excerpt_of_earlier (before after : list event) (entry : string * json) :
  excerpt_of after entry → excerpt_of (before ++ after) entry.
Proof.
  intros (text & s & ? & Hread & ?). exists text, s.
  split_and!; [done | | done]. apply Exists_app. by right.
Qed.

Lemma excerpt_of_substring (key text : string) (n : nat) (evs : list event) :
  excerpt_limit key = n →
  Exists (file_read (Fulfilled text)) evs →
  excerpt_of evs (key, JStr (JsString.substring 0 n text)).
Proof.
  intros Hn Hread. exists text, (JsString.substring 0 n text).
  cbn [fst snd]. rewrite Hn. split_and!; [done..|].
  apply first_chars_substring.
Qed.

Section ReportFacts.

Context `{Platform} {env : Environment}.

Lemma returns_bind {A B : Type} (p : prog A) (f : A → prog B) (σ : state)
    (Q : A → list event → Prop) (R : B → list event → Prop) :
  returns p σ Q →
  (∀ a σ' evs, Q a evs → projects σ' = projects σ →
               returns (f a) σ' (λ b evs', R b (evs ++ evs'))) →
  returns (p ≫= f) σ R.
Proof.
  intros (a & σ' & evs & Hp & Hproj & HQ) Hf.
  destruct (Hf a σ' evs HQ Hproj) as (b & σ'' & evs' & Hfa & Hproj' & HR).
  exists b, σ'', (evs ++ evs'). rewrite exec_bind, Hp, Hfa.
  split_and!; [done | congruence | done].
Qed.

Lemma returns_ret {A : Type} (a : A) (σ : state) (Q : A → list event → Prop) :
  Q a [] → returns (Ret a) σ Q.
Proof. intros HQ. by exists a, σ, []. Qed.

(** *** The summary of the latest run *)

Lemma read_at_later (path : string) (how : settled string)
    (before after : list event) :
  Exists (read_at path how) before → Exists (read_at path how) (before ++ after).
Proof. intros Hex. apply Exists_app. by left. Qed.

Lemma gave_nothing_later (path : string) (before after : list event) :
  gave_nothing path before → gave_nothing path (before ++ after).
Proof.
  intros (how & Hread & Hnone). exists how. split; [|done].
  apply Exists_app. by left.
Qed.

Lemma gave_nothing_earlier (path : string) (before after : list event) :
  gave_nothing path after → gave_nothing path (before ++ after).
Proof.
  intros (how & Hread & Hnone). exists how. split; [|done].
  apply Exists_app. by right.
Qed.

Lemma passed_over_earlier (project : project) (latestRun : string)
    (files : list string) (before after : list event) :
  passed_over project latestRun files after →
  passed_over project latestRun files (before ++ after).
Proof.
  intros Hpassed. eapply Forall_impl; [exact Hpassed |].
  intros file Hfile Hname. by apply gave_nothing_earlier, Hfile.
Qed.

Lemma synthesis_source_later (project : project) (latestRun : string)
    (found : option string) (before after : list event) :
  synthesis_source project latestRun before found →
  synthesis_source project latestRun (before ++ after) found.
Proof.
  intros (how & Hread & ->). exists how. split; [|done].
  apply Exists_app. by left.
Qed.

Lemma timing_source_later (project : project) (latestRun : string)
    (found : option string) (before after : list event) :
  timing_source project latestRun before found →
  timing_source project latestRun (before ++ after) found.
Proof.
  destruct found as [text|]; cbn.
  - intros (files & file & rest & Hlisted & Hname & Hread & Htext & Hpassed).
    exists files, file, rest. split_and!; [|done| |done|].
    + apply Exists_app. by left.
    + apply Exists_app. by left.
    + eapply Forall_impl; [exact Hpassed |]. intros f Hf Hn.
      by apply gave_nothing_later, Hf.
  - intros [[e Hlisted]|(files & Hlisted & Hpassed)].
    + left. exists e. apply Exists_app. by left.
    + right. exists files. split; [apply Exists_app; by left |].
      eapply Forall_impl; [exact Hpassed |]. intros f Hf Hn.
      by apply gave_nothing_later, Hf.
Qed.

(** What [readFile] returns is what the one read it makes gave. *)
Lemma readFile_at (path : string) (σ : state) :
  returns (readFile path) σ
    (λ found evs,
       ∃ how, evs = [Performed (FsReadFile path) how]
              ∧ nonempty found = text_of how).
Proof.
  unfold returns, readFile. rewrite exec_try_catch, exec_bind, exec_await.
  destruct (answer _ (world σ)) as [[text|e] w]; cbn.
  - do 3 eexists. split_and!; [done..|]. by eexists.
  - do 3 eexists. split_and!; [done..|]. by eexists.
Qed.

Lemma read_at_here (path : string) (how : settled string) :
  Exists (read_at path how) [Performed (FsReadFile path) how].
Proof. by apply Exists_cons_hd. Qed.

Lemma nonempty_text (found : option string) (text : string) :
  nonempty found = Some text → text ≠ "".
Proof.
  unfold nonempty. destruct found as [s|]; [|done].
  destruct (String.eqb_spec s ""); [done |]. by intros [= <-].
Qed.

Lemma text_of_some (how : settled string) (text : string) :
  text_of how = Some text → how = Fulfilled text.
Proof.
  destruct how as [s|e]; cbn; [|done].
  destruct (String.eqb s ""); [done |]. by intros [= ->].
Qed.

(** After the synthesis report. *)
Lemma readSynthesisReport_says (project : project) (latestRun : string)
    (σ : state) :
  returns (readSynthesisReport (reports_dir project latestRun)
             initial_results) σ
    (λ r evs, ∃ synthesis,
       synthesis_source project latestRun evs synthesis
       ∧ says r synthesis None None).
Proof.
  unfold readSynthesisReport.
  eapply returns_bind; [apply readFile_at |].
  intros found σ' evs (how & -> & Hfound) _. cbn beta.
  destruct (nonempty found) as [text|] eqn:Htext.
  - apply returns_ret. exists (Some text). split.
    + exists how. split; [|done]. apply read_at_later, read_at_here.
    + unfold says, cells_in. cbn.
      split_and!; try done; by destruct (regexp_match _ _ _).
  - apply returns_ret. exists None. split.
    + exists how. split; [|done]. apply read_at_later, read_at_here.
    + by unfold says.
Qed.

(** What the loop over the timing files finds. *)
Lemma scanTimingFiles_says (project : project) (latestRun : string)
    (files : list string) (r : results) (synthesis : option string)
    (σ : state) :
  says r synthesis None None →
  returns (scanTimingFiles (routing_dir project latestRun) files r) σ
    (λ r' evs, ∃ timing,
       says r' synthesis timing None
       ∧ match timing with
         | Some text =>
             ∃ before file after,
               files = before ++ file :: after
               ∧ timing_name file = true
               ∧ Exists (read_at (path_join [routing_dir project latestRun;
                                             file]) (Fulfilled text)) evs
               ∧ text ≠ ""
               ∧ passed_over project latestRun before evs
         | None => passed_over project latestRun files evs
         end).
Proof.
  intros Hsays. revert σ.
  induction files as [|file files IH]; intros σ; cbn [scanTimingFiles].
  - apply returns_ret. exists None. split; [done | constructor].
  - fold (timing_name file). destruct (timing_name file) eqn:Hname.
    + eapply returns_bind; [apply readFile_at |].
      intros found σ' evs (how & -> & Hfound) _. cbn beta.
      destruct (nonempty found) as [text|] eqn:Htext.
      * assert (Hsaid : ∀ r',
                  reports r' = reports r
                               ++ [("timing",
                                    JStr (JsString.substring 0 2000 text))] →
                  synthesis_complete r' = synthesis_complete r →
                  routing_complete r' = routing_complete r →
                  total_cells r' = total_cells r →
                  timing_slack_ns r' = slack_in text →
                  timing_clean r' = match slack_in text with
                                    | Some wns => at_least_zero wns
                                    | None => false
                                    end →
                  ∃ timing,
                    says r' synthesis timing None
                    ∧ match timing with
                      | Some text =>
                          ∃ before file0 after,
                            file :: files = before ++ file0 :: after
                            ∧ timing_name file0 = true
                            ∧ Exists (read_at
                                        (path_join
                                           [routing_dir project latestRun;
                                            file0]) (Fulfilled text))
                                ([Performed
                                    (FsReadFile
                                       (path_join
                                          [routing_dir project latestRun;
                                           file])) how] ++ [])
                            ∧ text ≠ ""
                            ∧ passed_over project latestRun before
                                ([Performed
                                    (FsReadFile
                                       (path_join
                                          [routing_dir project latestRun;
                                           file])) how] ++ [])
                      | None =>
                          passed_over project latestRun (file :: files)
                            ([Performed
                                (FsReadFile
                                   (path_join
                                      [routing_dir project latestRun;
                                       file])) how] ++ [])
                      end).
        { intros r' Hreports Hs Hr Hc Hslack Hclean.
          destruct Hsays as (Hreports0 & Hs0 & Hr0 & Hc0 & Hslack0 & Hclean0).
          exists (Some text). split.
          - unfold says. cbn [entry mbind option_bind].
            rewrite Hreports, Hreports0. cbn [entry app].
            rewrite !app_nil_r. split_and!; congruence.
          - exists [], file, files. split_and!; [done | done | | | constructor].
            + assert (Hhow : text_of how = Some text) by congruence.
              apply text_of_some in Hhow as ->.
              apply read_at_later, read_at_here.
            + by eapply nonempty_text. }
        unfold slack_in in Hsaid.
        destruct (regexp_match _ _ _) as [groups|]; apply returns_ret;
          apply Hsaid; try done.
        by destruct Hsays as (_ & _ & _ & _ & -> & ->).
        by destruct Hsays as (_ & _ & _ & _ & -> & ->).
      * destruct (IH σ') as (r' & σ'' & evs' & Hrun & Hproj & timing & Hs & Ht).
        exists r', σ'', evs'. split_and!; [done..|].
        exists timing. split; [done |].
        assert (Hnothing : gave_nothing
                             (path_join [routing_dir project latestRun; file])
                             ([Performed
                                 (FsReadFile
                                    (path_join
                                       [routing_dir project latestRun; file]))
                                 how] ++ evs')).
        { apply gave_nothing_later. exists how. split; [apply read_at_here |].
          by rewrite <- Hfound. }
        destruct timing as [text|].
        -- destruct Ht as (before & file0 & after & -> & Hn & Hread & Htext0
                           & Hpassed).
           exists (file :: before), file0, after.
           split_and!; [done | done | | done |].
           ++ apply Exists_app. by right.
           ++ constructor; [done |]. by apply passed_over_earlier.
        -- constructor; [done |]. by apply passed_over_earlier.
    + destruct (IH σ) as (r' & σ'' & evs' & Hrun & Hproj & timing & Hs & Ht).
      exists r', σ'', evs'. split_and!; [done..|].
      exists timing. split; [done |].
      destruct timing as [text|].
      * destruct Ht as (before & file0 & after & -> & Hn & Hread & Htext0
                        & Hpassed).
        exists (file :: before), file0, after.
        split_and!; [done..|]. constructor; [|done]. by rewrite Hname.
      * constructor; [|done]. by rewrite Hname.
Qed.

Lemma readTimingReport_says (project : project) (latestRun : string)
    (r : results) (synthesis : option string) (σ : state) :
  says r synthesis None None →
  returns (readTimingReport (reports_dir project latestRun) r) σ
    (λ r' evs, ∃ timing,
       timing_source project latestRun evs timing
       ∧ says r' synthesis timing None).
Proof.
  intros Hsays. unfold returns, readTimingReport.
  rewrite exec_try_catch, exec_bind, exec_await.
  fold (routing_dir project latestRun).
  destruct (answer _ (world σ)) as [[files|e] w]; cbn.
  - destruct (scanTimingFiles_says project latestRun files r synthesis
                {| projects := projects σ; world := w |} Hsays)
      as (r' & σ' & evs & Hrun & Hproj & timing & Hsaid & Hfound).
    rewrite Hrun. exists r', σ'. eexists. split_and!; [done..|].
    exists timing. split; [|done].
    destruct timing as [text|]; cbn.
    + destruct Hfound as (before & file & after & -> & Hname & Hread & Htext
                          & Hpassed).
      exists before, file, after. split_and!; [|done| |done|].
      * by apply Exists_cons_hd.
      * by apply Exists_cons_tl.
      * by apply (passed_over_earlier _ _ _ [_]).
    + right. exists files. split; [by apply Exists_cons_hd |].
      by apply (passed_over_earlier _ _ _ [_]).
  - do 3 eexists. split_and!; [done..|]. exists None. split; [|done].
    left. exists e. by apply Exists_cons_hd.
Qed.

Lemma readFinalSummary_says (project : project) (latestRun : string)
    (r : results) (synthesis timing : option string) (σ : state) :
  says r synthesis timing None →
  returns (readFinalSummary
             (path_join [dir project; "runs"; latestRun; "final"]) r) σ
    (λ r' evs, ∃ final,
       final_source project latestRun evs final
       ∧ says r' synthesis timing final).
Proof.
  intros (Hreports & Hs & Hr & Hc & Hslack & Hclean).
  unfold readFinalSummary.
  eapply returns_bind; [apply readFile_at |].
  intros found σ' evs (how & -> & Hfound) _. cbn beta.
  destruct (nonempty found) as [text|] eqn:Htext.
  - apply returns_ret. exists (Some text). split.
    + exists how. split; [|done]. apply read_at_later, read_at_here.
    + unfold says. cbn. rewrite Hreports. cbn [entry].
      rewrite !app_nil_r, <- app_assoc. done.
  - apply returns_ret. exists None. split.
    + exists how. split; [|done]. apply read_at_later, read_at_here.
    + by unfold says.
Qed.

Lemma final_source_earlier (project : project) (latestRun : string)
    (found : option string) (before after : list event) :
  final_source project latestRun after found →
  final_source project latestRun (before ++ after) found.
Proof.
  intros (how & Hread & ->). exists how. split; [|done].
  apply Exists_app. by right.
Qed.

Lemma timing_source_earlier (project : project) (latestRun : string)
    (found : option string) (before after : list event) :
  timing_source project latestRun after found →
  timing_source project latestRun (before ++ after) found.
Proof.
  destruct found as [text|]; cbn.
  - intros (files & file & rest & Hlisted & Hname & Hread & Htext & Hpassed).
    exists files, file, rest. split_and!; [|done| |done|].
    + apply Exists_app. by right.
    + apply Exists_app. by right.
    + by apply passed_over_earlier.
  - intros [[e Hlisted]|(files & Hlisted & Hpassed)].
    + left. exists e. apply Exists_app. by right.
    + right. exists files. split; [apply Exists_app; by right |].
      by apply passed_over_earlier.
Qed.

(** The summary is always produced, and it is the summary of the run it
    was asked for. *)
Lemma summarise_of_run (project : project) (projectId latestRun : string)
    (σ : state) :
  returns (summarise project projectId latestRun) σ
    (λ envelope evs,
       ∃ r, envelope = report_envelope projectId latestRun r
            ∧ summary_of_run project latestRun evs r).
Proof.
  unfold summarise.
  eapply returns_bind; [apply readSynthesisReport_says |].
  intros r1 σ1 evs1 (synthesis & Hsynthesis & H1) _. cbn beta.
  eapply returns_bind; [by apply readTimingReport_says |].
  intros r2 σ2 evs2 (timing & Htiming & H2) _. cbn beta.
  eapply returns_bind; [by apply readFinalSummary_says |].
  intros r3 σ3 evs3 (final & Hfinal & H3) _. cbn beta.
  apply returns_ret. exists r3. split; [done |].
  rewrite app_nil_r. exists synthesis, timing, final. split_and!.
  - by apply synthesis_source_later.
  - by apply timing_source_earlier, timing_source_later.
  - by do 2 apply final_source_earlier.
  - done.
Qed.

Lemma read_at_file_read (path : string) (how : settled string)
    (evs : list event) :
  Exists (read_at path how) evs → Exists (file_read how) evs.
Proof.
  intros Hread. eapply Exists_impl; [exact Hread |].
  intros [X c x]. destruct c; cbn; try done. by intros [_ ?].
Qed.

(** Every entry of the [reports] object of a summary holds the first
    characters of a file that was read for it. *)
Lemma summary_excerpts (project : project) (latestRun : string)
    (evs : list event) (r : results) :
  summary_of_run project latestRun evs r → Forall (excerpt_of evs) (reports r).
Proof.
  intros (synthesis & timing & final & (how & Hs & Hsynthesis) & Ht
          & (how' & Hf & Hfinal) & Hreports & _).
  rewrite Hreports. rewrite !Forall_app. split_and!.
  - destruct synthesis as [text|]; [|constructor].
    symmetry in Hsynthesis. apply text_of_some in Hsynthesis as ->.
    constructor; [|constructor].
    apply excerpt_of_substring; [done |]. by eapply read_at_file_read.
  - destruct timing as [text|]; [|constructor].
    destruct Ht as (before & file & after & _ & _ & Hread & _).
    constructor; [|constructor].
    apply excerpt_of_substring; [done |]. by eapply read_at_file_read.
  - destruct final as [text|]; [|constructor].
    symmetry in Hfinal. apply text_of_some in Hfinal as ->.
    constructor; [|constructor].
    apply excerpt_of_substring; [done |]. by eapply read_at_file_read.
Qed.

Lemma latest_none (runs : list string) : latest runs = None → runs = [].
Proof.
  unfold latest, JsString.sort. intros Hhead.
  apply head_None in Hhead.
  apply (f_equal reverse) in Hhead. rewrite reverse_involutive in Hhead.
  apply Permutation_nil_r. rewrite <- Hhead at 1. cbn.
  symmetry. apply merge_sort_Permutation.
Qed.

Lemma last_of_sorted (l : list string) (r : string) :
  StronglySorted String.le l → last l = Some r →
  ∀ x, x ∈ l → String.le x r.
Proof.
  intros Hsorted Hlast x Hx.
  apply last_Some in Hlast as [l' ->].
  apply elem_of_app in Hx as [Hx | Hx].
  - eapply StronglySorted_app_1_elem_of; [exact Hsorted | exact Hx |].
    apply list_elem_of_singleton. done.
  - apply list_elem_of_singleton in Hx as ->. reflexivity.
Qed.

Lemma latest_spec (runs : list string) (r : string) :
  latest runs = Some r ↔ r ∈ runs ∧ ∀ x, x ∈ runs → String.le x r.
Proof.
  unfold latest, JsString.sort. rewrite head_reverse.
  pose proof (StronglySorted_merge_sort String.le runs) as Hsorted.
  pose proof (merge_sort_Permutation String.le runs) as Hperm.
  split.
  - intros Hlast. split.
    + rewrite <- Hperm. apply last_Some in Hlast as [l' ->].
      apply elem_of_app. right. by apply list_elem_of_singleton.
    + intros x Hx. eapply last_of_sorted; [exact Hsorted | exact Hlast |].
      by rewrite Hperm.
  - intros [Hin Hmax].
    destruct (last (merge_sort String.le runs)) as [r'|] eqn:Hlast.
    + f_equal. apply (anti_symm String.le).
      * apply Hmax. rewrite <- Hperm. apply last_Some in Hlast as [l' ->].
        apply elem_of_app. right. by apply list_elem_of_singleton.
      * eapply last_of_sorted; [exact Hsorted | exact Hlast |].
        by rewrite Hperm.
    + apply last_None in Hlast. rewrite Hlast in Hperm.
      apply Permutation_nil_l in Hperm. subst runs. by apply not_elem_of_nil in Hin.
Qed.

(** What the driver does for a registered project whose [runs/] lists at
    least one entry. *)
Lemma readOpenlaneReports_summary (σ : state) (projectId : string)
    (reportType : option string) (project : project)
    (runs : list string) (w : World) :
  projects σ !! projectId = Some project →
  answer (FsReaddir (path_join [dir project; "runs"])) (world σ)
    = (Fulfilled runs, w) →
  runs ≠ [] →
  ∃ latestRun r σ' evs,
    exec (readOpenlaneReports projectId reportType) σ
    = (Returned (report_envelope projectId latestRun r), σ', evs)
    ∧ latest runs = Some latestRun
    ∧ Forall (excerpt_of evs) (reports r)
    ∧ summary_of_run project latestRun evs r.
Proof.
  intros Hknown Hlisted Hruns. unfold readOpenlaneReports.
  rewrite exec_try_catch. cbn [exec]. rewrite Hknown.
  rewrite exec_bind, exec_attempt, exec_await, Hlisted.
  destruct (latest runs) as [latestRun|] eqn:Hlatest;
    [|by apply latest_none in Hlatest].
  destruct (summarise_of_run project projectId latestRun
              {| projects := projects σ; world := w |})
    as (envelope & σ' & evs & Hrun & _ & r & -> & Hsummary).
  rewrite Hrun. exists latestRun, r, σ'. eexists.
  assert (Hall : summary_of_run project latestRun
                   (Performed (FsReaddir (path_join [dir project; "runs"]))
                      (Fulfilled runs) :: evs) r).
  { destruct Hsummary as (synthesis & timing & final & Hs & Ht & Hf & Hsays).
    exists synthesis, timing, final. split_and!; [| | |done].
    - destruct Hs as (how & Hread & ->). exists how. split; [|done].
      by apply Exists_cons_tl.
    - by apply (timing_source_earlier _ _ _ [_]).
    - by apply (final_source_earlier _ _ _ [_]). }
  split_and!; [done | done | | done]. by eapply summary_excerpts.
Qed.

End ReportFacts.

(** C8, as stated, fails: the identifier resolves to a record of kind
    "simulation", and the report-read driver returns a summary with
    [success: true]. *)
Lemma report_read_ignores_kind :
  ∃ record envelope,
    projects KindExample.start !! "k3x9" = Some record
    ∧ type record = "simulation"
    ∧ (exec (readOpenlaneReports "k3x9" None) KindExample.start).1.1
      = Returned envelope
    ∧ field "success" envelope = Some (JBool true)
    ∧ field "run_id" envelope = Some (JStr "RUN_1").
Proof. do 2 eexists. split_and!; reflexivity. Qed.

(** C8, amended.  The report-read driver requires a registered record and
    does not look at its kind: for a record of any kind whose [runs/]
    directory lists at least one entry, the call returns, with
    [success: true], the summary of the latest run.  The latest run is the
    entry of the listing that comes last in the order of code units;
    [run_id] names it; and the summary says what the files of that run
    give: the synthesis report [reports/synthesis/1-synthesis.stat.rpt],
    the first file of [reports/routing] with a timing name that gives a
    text, and [final/final.summary.rpt], each under [runs/<run_id>] of the
    record's directory. *)
Theorem report_read_any_kind `{Platform} {env : Environment}
    (σ : state) (projectId : string) (reportType : option string)
    (directory kind : string) (runs : list string) (w : World)
    (Hknown : projects σ !! projectId
              = Some {| dir := directory; type := kind |})
    (Hlisted : answer (FsReaddir (path_join [directory; "runs"])) (world σ)
               = (Fulfilled runs, w))
    (Hruns : runs ≠ []) :
  ∃ envelope σ' evs latestRun,
    exec (readOpenlaneReports projectId reportType) σ
    = (Returned envelope, σ', evs)
    ∧ latest runs = Some latestRun
    ∧ field "success" envelope = Some (JBool true)
    ∧ field "project_id" envelope = Some (JStr projectId)
    ∧ field "run_id" envelope = Some (JStr latestRun)
    ∧ latestRun ∈ runs
    ∧ (∀ run, run ∈ runs → String.le run latestRun)
    ∧ ∃ r, envelope = report_envelope projectId latestRun r
           ∧ summary_of_run {| dir := directory; type := kind |} latestRun
               evs r.
Proof.
  destruct (readOpenlaneReports_summary σ projectId reportType _ runs w
              Hknown Hlisted Hruns)
    as (latestRun & r & σ' & evs & Hrun & Hlatest & _ & Hsummary).
  exists (report_envelope projectId latestRun r), σ', evs, latestRun.
  pose proof (proj1 (latest_spec runs latestRun) Hlatest) as [Hin Hlast].
  split_and!; [done..|]. by exists r.
Qed.

Lemma report_read_any_kind_witness :
  ∃ envelope r,
    (exec (readOpenlaneReports "k3x9" None) KindExample.start).1.1
    = Returned envelope
    ∧ field "success" envelope = Some (JBool true)
    ∧ envelope = report_envelope "k3x9" "RUN_1" r
    ∧ summary_of_run KindExample.simulation_project "RUN_1"
        (exec (readOpenlaneReports "k3x9" None) KindExample.start).2 r.
Proof.
  assert (Hlisted :
            answer (FsReaddir (path_join ["/tmp/eda_mcp_1/sim_project_k3x9"; "runs"]))
                   (world KindExample.start)
            = (Fulfilled ["RUN_1"], world KindExample.start))
    by (vm_compute; reflexivity).
  destruct (report_read_any_kind KindExample.start "k3x9" None
              "/tmp/eda_mcp_1/sim_project_k3x9" "simulation" ["RUN_1"]
              (world KindExample.start) eq_refl Hlisted)
    as (envelope & σ' & evs & latestRun & Hrun & Hlatest & Hsuccess & _ & _
        & _ & _ & r & Henvelope & Hsummary).
  - discriminate.
  - assert (latestRun = "RUN_1") as ->
      by (vm_compute in Hlatest; by injection Hlatest).
    exists envelope, r. rewrite Hrun. by split_and!.
Defined.

Ltac find_event tac :=
  first [ apply Exists_cons_hd; solve [tac]
        | apply Exists_cons_tl; find_event tac
        | apply Exists_app; right; find_event tac ].

Ltac await_child :=
  match goal with
  | |- context [await_promise ?p] =>
      destruct p as [[[? ?]|?]|] eqn:?;
      cbn [await_promise bind try_catch exec world projects]
  end.

Ltac opaque_step :=
  match goal with
  | |- context [exec (try_catch (bind ?f ?p) ?h) ?s] =>
      rewrite (exec_try_catch (bind f p) h s);
      change (bind f p) with (p ≫= f); rewrite (exec_bind f p s);
      destruct (exec p s) as [[[?|?|] ?] ?] eqn:?;
      cbn [bind try_catch exec world projects]
  | |- context [exec (bind ?f ?p) ?s] =>
      change (bind f p) with (p ≫= f); rewrite (exec_bind f p s);
      destruct (exec p s) as [[[?|?|] ?] ?] eqn:?;
      cbn [bind try_catch exec world projects]
  end.

Lemma preview_spec (text : string) :
  (String.length text ≤ 2000 → preview text = text)
  ∧ (2000 < String.length text →
     preview text = JsString.substring 0 2000 text +:+ "...(truncated)"
     ∧ String.length (preview text) = 2014).
Proof.
  unfold preview. destruct (2000 <? String.length text) eqn:Hlong.
  - apply Nat.ltb_lt in Hlong. split; [lia |]. intros _. split; [done |].
    rewrite length_append, substring_prefix_length.
    change (String.length "...(truncated)") with 14. lia.
  - apply Nat.ltb_ge in Hlong. split; [done | lia].
Qed.

Lemma runOpenlane_preview `{Platform} {env : Environment}
    (this : EDAServer) (verilogCode designName clockPort : string)
    (clockPeriod : Q) (openInKlayout : bool) (σ σ' : state)
    (envelope : json) (evs : list event) :
  exec (runOpenlane this verilogCode designName clockPort clockPeriod
          openInKlayout) σ = (Returned envelope, σ', evs) →
  field "success" envelope = Some (JBool true) →
  ∃ projectDir stdout stderr,
    field "project_dir" envelope = Some (JStr projectDir)
    ∧ Exists (flow_captured
                (JsString.dq +:+ path_join [projectDir; "run_openlane.sh"]
                 +:+ JsString.dq) stdout stderr) evs
    ∧ field "stdout" envelope = Some (JStr (preview stdout))
    ∧ field "stderr" envelope = Some (JStr (preview stderr)).
Proof.
  unfold runOpenlane. unfold execAsyncWithTimeout. open_program.
  repeat first [split_pair | next_answer | await_child | opaque_step].
  all: try (intros [= <- <- <-] Hsuccess; discriminate Hsuccess).
  intros [= <- <- <-] _. do 3 eexists.
  split_and!; [reflexivity | | reflexivity | reflexivity].
  find_event ltac:(cbn; split; [reflexivity | eassumption]).
Qed.

Lemma readOpenlaneReports_excerpts `{Platform} {env : Environment}
    (projectId : string) (reportType : option string) (σ σ' : state)
    (envelope : json) (evs : list event) :
  exec (readOpenlaneReports projectId reportType) σ
    = (Returned envelope, σ', evs) →
  field "success" envelope = Some (JBool true) →
  ∃ entries, field "reports" envelope = Some (JObj entries)
             ∧ Forall (excerpt_of evs) entries.
Proof.
  unfold readOpenlaneReports. rewrite exec_try_catch. cbn [exec].
  destruct (projects σ !! projectId) as [project|];
    [|by intros [= <- <- <-] Hs].
  rewrite exec_bind, exec_attempt, exec_await.
  destruct (answer _ (world σ)) as [[runs|e] w];
    [|by intros [= <- <- <-] Hs].
  destruct (latest runs) as [latestRun|]; [|by intros [= <- <- <-] Hs].
  destruct (summarise_of_run project projectId latestRun
              {| projects := projects σ; world := w |})
    as (envelope' & σ'' & evs' & Hrun & _ & r & -> & Hsummary).
  rewrite Hrun. intros [= <- <- <-] _. exists (reports r). split; [done |].
  apply summary_excerpts in Hsummary.
  eapply Forall_impl; [exact Hsummary |]. intros entry.
  apply (excerpt_of_earlier [_]).
Qed.

Lemma synthesizeVerilog_whole `{Platform} {env : Environment}
    (this : EDAServer) (verilogCode topModule target : string)
    (σ σ' : state) (envelope : json) (evs : list event) :
  exec (synthesizeVerilog this verilogCode topModule target) σ
    = (Returned envelope, σ', evs) →
  field "success" envelope = Some (JBool true) →
  ∃ stdout stderr,
    Exists (command_settled (Fulfilled (stdout, stderr))) evs
    ∧ field "stdout" envelope = Some (JStr stdout)
    ∧ field "stderr" envelope = Some (JStr stderr).
Proof.
  unfold synthesizeVerilog. open_program. walk.
  all: intros [= <- <- <-] Hsuccess; try discriminate Hsuccess.
  all: do 2 eexists; split_and!; [| reflexivity | reflexivity].
  all: find_event ltac:(cbn; reflexivity).
Qed.

Lemma simulateVerilog_whole `{Platform} {env : Environment}
    (this : EDAServer) (verilogCode testbenchCode : string)
    (σ σ' : state) (envelope : json) (evs : list event) :
  exec (simulateVerilog this verilogCode testbenchCode) σ
    = (Returned envelope, σ', evs) →
  field "success" envelope = Some (JBool true) →
  ∃ compileOut compileErr simOut simErr,
    Exists (ran_and_settled compileCmd (Fulfilled (compileOut, compileErr))) evs
    ∧ Exists (ran_and_settled "./simulation" (Fulfilled (simOut, simErr))) evs
    ∧ field "compile_stdout" envelope = Some (JStr compileOut)
    ∧ field "compile_stderr" envelope = Some (JStr compileErr)
    ∧ field "sim_stdout" envelope = Some (JStr simOut)
    ∧ field "sim_stderr" envelope = Some (JStr simErr).
Proof.
  unfold simulateVerilog. open_program. walk.
  all: intros [= <- <- <-] Hsuccess; try discriminate Hsuccess.
  do 4 eexists. split_and!; [| | reflexivity..].
  - find_event ltac:(cbn; split; reflexivity).
  - find_event ltac:(cbn; split; reflexivity).
Qed.

(** C9, as stated, fails.  The synthesis driver returns a captured output
    of 3001 characters whole, beyond any preview size; and the report-read
    driver cuts a report of 2001 characters to its first 2000 characters
    and appends no marker. *)
Lemma fields_without_bound_or_marker :
  (∃ envelope,
     (exec SynthesisExample.request PreviewExample.verbose_tool).1.1
     = Returned envelope
     ∧ field "stdout" envelope = Some (JStr (PreviewExample.letters 3001))
     ∧ String.length (PreviewExample.letters 3001) = 3001)
  ∧ (∃ envelope entries,
       (exec (readOpenlaneReports "k3x9" None) PreviewExample.long_report).1.1
       = Returned envelope
       ∧ field "reports" envelope = Some (JObj entries)
       ∧ assoc "synthesis" entries = Some (JStr (PreviewExample.letters 2000))).
Proof.
  split.
  - eexists. split_and!; by vm_compute.
  - do 2 eexists. split_and!; by vm_compute.
Qed.

(** C9, amended.  For a response with [success: true]:
    the [stdout] and [stderr] properties of the physical-design-flow
    driver are previews of the output captured from the flow command: the
    text itself when it has at most 2000 characters, else its first 2000
    characters followed by the marker "...(truncated)";
    every entry of the [reports] object of the report-read driver is
    exactly the first 2000 characters (3000 for [final_summary]) of the
    text of a file that was read, the whole text when it is no longer than
    that, and nothing is appended to it;
    the synthesis and simulation drivers return the captured output of
    their commands whole. *)
Theorem previews_and_excerpts `{Platform} {env : Environment}
    (σ σ' : state) (envelope : json) (evs : list event)
    (Hsuccess : field "success" envelope = Some (JBool true)) :
  (∀ this verilogCode designName clockPort clockPeriod openInKlayout,
     exec (runOpenlane this verilogCode designName clockPort clockPeriod
             openInKlayout) σ = (Returned envelope, σ', evs) →
     ∃ projectDir stdout stderr,
       field "project_dir" envelope = Some (JStr projectDir)
       ∧ Exists (flow_captured
                   (JsString.dq +:+ path_join [projectDir; "run_openlane.sh"]
                    +:+ JsString.dq) stdout stderr) evs
       ∧ field "stdout" envelope = Some (JStr (preview stdout))
       ∧ field "stderr" envelope = Some (JStr (preview stderr)))
  ∧ (∀ text,
       (String.length text ≤ 2000 → preview text = text)
       ∧ (2000 < String.length text →
          preview text = JsString.substring 0 2000 text +:+ "...(truncated)"
          ∧ String.length (preview text) = 2014))
  ∧ (∀ projectId reportType,
       exec (readOpenlaneReports projectId reportType) σ
         = (Returned envelope, σ', evs) →
       ∃ entries, field "reports" envelope = Some (JObj entries)
                  ∧ Forall (excerpt_of evs) entries)
  ∧ (∀ this verilogCode topModule target,
       exec (synthesizeVerilog this verilogCode topModule target) σ
         = (Returned envelope, σ', evs) →
       ∃ stdout stderr,
         Exists (command_settled (Fulfilled (stdout, stderr))) evs
         ∧ field "stdout" envelope = Some (JStr stdout)
         ∧ field "stderr" envelope = Some (JStr stderr))
  ∧ (∀ this verilogCode testbenchCode,
       exec (simulateVerilog this verilogCode testbenchCode) σ
         = (Returned envelope, σ', evs) →
       ∃ compileOut compileErr simOut simErr,
         Exists (ran_and_settled compileCmd
                   (Fulfilled (compileOut, compileErr))) evs
         ∧ Exists (ran_and_settled "./simulation"
                     (Fulfilled (simOut, simErr))) evs
         ∧ field "compile_stdout" envelope = Some (JStr compileOut)
         ∧ field "compile_stderr" envelope = Some (JStr compileErr)
         ∧ field "sim_stdout" envelope = Some (JStr simOut)
         ∧ field "sim_stderr" envelope = Some (JStr simErr)).
Proof.
  split_and!.
  - intros. by eapply runOpenlane_preview.
  - apply preview_spec.
  - intros. by eapply readOpenlaneReports_excerpts.
  - intros. by eapply synthesizeVerilog_whole.
  - intros. by eapply simulateVerilog_whole.
Qed.

Lemma previews_and_excerpts_witness :
  ∃ envelope entries,
    (exec (readOpenlaneReports "k3x9" None) PreviewExample.long_report).1.1
    = Returned envelope
    ∧ field "success" envelope = Some (JBool true)
    ∧ field "reports" envelope = Some (JObj entries)
    ∧ Forall (excerpt_of
                (exec (readOpenlaneReports "k3x9" None)
                      PreviewExample.long_report).2) entries.
Proof.
  set (run := exec (readOpenlaneReports "k3x9" None) PreviewExample.long_report).
  assert (Hout : ∃ envelope, run.1.1 = Returned envelope
                             ∧ field "success" envelope = Some (JBool true)).
  { eexists. split; by vm_compute. }
  destruct Hout as (envelope & Hreturned & Hsuccess).
  destruct (previews_and_excerpts PreviewExample.long_report run.1.2 envelope
              run.2 Hsuccess) as (_ & _ & Hreports & _).
  destruct (Hreports "k3x9" None) as (entries & Hentries & Hbounded).
  - rewrite <- Hreturned. apply triple_eta.
  - by exists envelope, entries.
Defined.

(** ** The project registry *)

(** *** Identifiers *)

Lemma chars_append (a b : string) : chars (a +:+ b) = chars a ++ chars b.
Proof.
  induction a as [|c a IH]; [done |]. rewrite append_cons. simpl.
  by rewrite IH.
Qed.

Lemma digit36_alnum (d : nat) : digit36 d ∈ chars base36.
Proof.
  unfold digit36.
  assert (Hget : ∀ n s c, String.get n s = Some c → c ∈ chars s).
  { intros n s. revert n. induction s as [|c' s IH]; intros [|n] c; simpl;
      try done.
    - intros [= ->]. apply elem_of_cons. by left.
    - intros Hc. apply elem_of_cons. right. by eapply IH. }
  destruct (String.get (d mod 36) base36) as [c|] eqn:Hc.
  - by eapply Hget.
  - apply list_elem_of_In. simpl. auto.
Qed.

Lemma substring_of_list (n : nat) (l : list ascii) :
  String.substring 0 n (string_of_list_ascii l)
  = string_of_list_ascii (take n l).
Proof.
  revert l. induction n as [|n IH]; intros [|c l]; simpl; try done.
  by rewrite IH.
Qed.

(** The identifier is made of the first thirteen digits of the draw. *)
Lemma projectId_of_digits (fraction : list nat) :
  projectId_of fraction
  = string_of_list_ascii (take 13 (map digit36 fraction)).
Proof.
  unfold projectId_of, JsString.substring, toString36.
  change (Nat.max 2 15 - Nat.min 2 15) with 13. change (Nat.min 2 15) with 2.
  destruct fraction as [|d fraction]; [done |].
  change ("0." +:+ ?s) with (String "0" (String "." s)).
  change (String.substring 2 13 (String "0" (String "." ?s)))
    with (String.substring 0 13 s).
  apply substring_of_list.
Qed.

Lemma projectId_alnum (fraction : list nat) : alnum (projectId_of fraction).
Proof.
  rewrite projectId_of_digits. unfold alnum.
  rewrite list_ascii_of_string_of_list_ascii.
  apply Forall_take, Forall_forall. intros c Hc.
  apply list_elem_of_fmap in Hc as (d & -> & _). apply digit36_alnum.
Qed.

Lemma projectId_of_equal (a b : list nat) :
  projectId_of a = projectId_of b
  ↔ take 13 (map digit36 a) = take 13 (map digit36 b).
Proof.
  rewrite !projectId_of_digits. split; [|by intros ->].
  intros Heq. apply (f_equal list_ascii_of_string) in Heq.
  by rewrite !list_ascii_of_string_of_list_ascii in Heq.
Qed.

Lemma underscore_not_alnum : "_"%char ∉ chars base36.
Proof. intros Hin. apply list_elem_of_In in Hin. simpl in Hin. intuition discriminate. Qed.

Lemma suffix_after_underscore (a1 a2 i1 i2 : list ascii) :
  "_"%char ∉ i1 → "_"%char ∉ i2 →
  a1 ++ "_"%char :: i1 = a2 ++ "_"%char :: i2 → i1 = i2.
Proof.
  intros H1 H2. revert a2.
  induction a1 as [|c a1 IH]; intros [|c' a2]; simpl; intros [= ]; subst.
  - done.
  - exfalso. apply H1. apply elem_of_app. right. apply elem_of_cons. by left.
  - exfalso. apply H2. apply elem_of_app. right. apply elem_of_cons. by left.
  - by eapply IH.
Qed.

(** Two identifiers that end the same path after an underscore are equal. *)
Lemma suffix_identifies (id1 id2 path : string) :
  alnum id1 → alnum id2 →
  ends_with ("_" +:+ id1) path → ends_with ("_" +:+ id2) path → id1 = id2.
Proof.
  intros Ha1 Ha2 [a1 ->] [a2 Heq].
  apply (f_equal chars) in Heq. rewrite !chars_append in Heq.
  change (chars "_") with ["_"%char] in Heq. simpl in Heq.
  apply suffix_after_underscore in Heq.
  - rewrite <- (string_of_list_ascii_of_string id1),
            <- (string_of_list_ascii_of_string id2). by rewrite Heq.
  - intros Hin. eapply underscore_not_alnum.
    unfold alnum in Ha1. rewrite Forall_forall in Ha1. by apply Ha1.
  - intros Hin. eapply underscore_not_alnum.
    unfold alnum in Ha2. rewrite Forall_forall in Ha2. by apply Ha2.
Qed.

(** *** What a program writes to the registry *)

Section Sets.

Context `{Platform}.
Variable P : string → project → Prop.

Lemma sets_bind {A B : Type} (p : prog A) (f : A → prog B) :
  sets P p → (∀ a, sets P (f a)) → sets P (p ≫= f).
Proof.
  intros Hp Hf. unfold mbind, prog_bind.
  induction p as [a|e| |X c k IH|id k IH|id pr k IH]; simpl in *; try done.
  - intros x. by apply IH.
  - intros found. by apply IH.
  - destruct Hp. split; [done | by apply IH].
Qed.

Lemma sets_try_catch {A : Type} (p : prog A) (h : js_error → prog A) :
  sets P p → (∀ e, sets P (h e)) → sets P (try_catch p h).
Proof.
  intros Hp Hh.
  induction p as [a|e| |X c k IH|id k IH|id pr k IH]; simpl in *; try done.
  - intros x. by apply IH.
  - intros found. by apply IH.
  - destruct Hp. split; [done | by apply IH].
Qed.

Lemma sets_throw {A : Type} (e : js_error) : sets P (@Throw A e).
Proof. done. Qed.

Lemma sets_await {X : Type} (c : call (settled X)) : sets P (await c).
Proof. intros [x|e]; done. Qed.

Lemma sets_perform {X : Type} (c : call X) : sets P (perform c).
Proof. intros x. done. Qed.

Lemma sets_lift {A : Type} (r : js_error + A) : sets P (lift r).
Proof. by destruct r. Qed.

Lemma sets_await_promise {X : Type} (p : option (settled X)) :
  sets P (await_promise p).
Proof. by destruct p as [[x|e]|]. Qed.

Lemma sets_attempt {A : Type} (p : prog A) : sets P p → sets P (attempt p).
Proof.
  intros Hp. unfold attempt. apply sets_try_catch; [|done].
  by apply sets_bind.
Qed.

Lemma sets_execAsyncWithTimeout command options timeoutMs :
  sets P (execAsyncWithTimeout command options timeoutMs).
Proof.
  apply sets_bind; [apply sets_perform |]. intros. apply sets_await_promise.
Qed.

Lemma sets_commandExists command : sets P (commandExists command).
Proof.
  apply sets_try_catch; [|done]. apply sets_bind; [apply sets_await | done].
Qed.

Lemma sets_findPython candidates pythonCmd :
  sets P (findPython candidates pythonCmd).
Proof.
  induction candidates as [|candidate rest IH]; [done |].
  cbn [findPython]. apply sets_bind; [apply sets_commandExists |].
  by intros [|].
Qed.

Lemma sets_readFile path : sets P (readFile path).
Proof.
  apply sets_try_catch; [|done]. apply sets_bind; [apply sets_await | done].
Qed.

Lemma sets_firstGds finalDir : sets P (firstGds finalDir).
Proof.
  apply sets_bind; [apply sets_await |]. intros gdsFiles.
  by destruct (filter _ gdsFiles).
Qed.

Lemma sets_findLatestRun runsDir : sets P (findLatestRun runsDir).
Proof.
  apply sets_try_catch; [|done]. apply sets_bind; [apply sets_await |].
  intros runs. destruct (latest runs); [|done].
  apply sets_bind; [|done]. apply sets_try_catch; [|done].
  apply sets_firstGds.
Qed.

Lemma sets_launchKlayout openInKlayout gdsFile :
  sets P (launchKlayout openInKlayout gdsFile).
Proof.
  unfold launchKlayout. destruct (_ && _); [|done].
  apply sets_try_catch; [|done].
  apply sets_bind; [apply sets_commandExists |]. intros [|]; [|done].
  apply sets_bind; [apply sets_execAsyncWithTimeout | done].
Qed.

Lemma sets_scanTimingFiles routingDir files r :
  sets P (scanTimingFiles routingDir files r).
Proof.
  induction files as [|file files IH]; [done |]. cbn [scanTimingFiles].
  destruct (_ || _); [|done].
  apply sets_bind; [apply sets_readFile |]. intros found.
  destruct (nonempty found); [|done]. by destruct (regexp_match _ _ _).
Qed.

Lemma sets_summarise project projectId latestRun :
  sets P (summarise project projectId latestRun).
Proof.
  unfold summarise.
  apply sets_bind.
  { apply sets_bind; [apply sets_readFile |]. intros found.
    by destruct (nonempty found). }
  intros r1. apply sets_bind.
  { apply sets_try_catch; [|done]. apply sets_bind; [apply sets_await |].
    intros files. apply sets_scanTimingFiles. }
  intros r2. apply sets_bind; [|done].
  apply sets_bind; [apply sets_readFile |]. intros found.
  by destruct (nonempty found).
Qed.

Lemma sets_viewWaveform projectId vcdFile :
  sets P (viewWaveform projectId vcdFile).
Proof.
  apply sets_try_catch; [|done]. intros [project|]; [|done].
  apply sets_bind; [apply sets_attempt, sets_await |].
  intros [?|?].
  - apply sets_bind; [apply sets_commandExists |]. intros [|]; [|done].
    apply sets_bind; [apply sets_await | done].
  - apply sets_bind; [apply sets_await | done].
Qed.

Lemma sets_viewGds projectId gdsFile : sets P (viewGds projectId gdsFile).
Proof.
  apply sets_try_catch; [|done]. intros [project|]; [|done].
  apply sets_bind.
  { unfold locateGds. destruct (nonempty gdsFile); [done |].
    apply sets_try_catch; [|done]. apply sets_bind; [apply sets_await |].
    intros runs. destruct (latest runs); [|done].
    apply sets_bind; [apply sets_firstGds | done]. }
  intros [envelope|gdsPath]; [done |].
  destruct (String.eqb gdsPath ""); [done |].
  apply sets_bind; [apply sets_attempt, sets_await |].
  intros [?|?]; [|done].
  apply sets_bind; [apply sets_execAsyncWithTimeout | done].
Qed.

Lemma sets_readOpenlaneReports projectId reportType :
  sets P (readOpenlaneReports projectId reportType).
Proof.
  apply sets_try_catch; [|done]. intros [project|]; [|done].
  apply sets_bind; [apply sets_attempt, sets_await |].
  intros [runs|?]; [|done]. destruct (latest runs); [|done].
  apply sets_summarise.
Qed.

(** The three drivers that create a workspace register it under the
    identifier they drew. *)
Hypothesis created :
  ∀ base name fraction kind,
    P (projectId_of fraction)
      {| dir := path_join [base; name +:+ "_" +:+ projectId_of fraction];
         type := kind |}.

Lemma sets_newProjectId {A : Type} (f : string → prog A) :
  (∀ fraction, sets P (f (projectId_of fraction))) →
  sets P (newProjectId ≫= f).
Proof. intros Hf fraction. apply Hf. Qed.

Lemma sets_synthesizeVerilog this verilogCode topModule target :
  sets P (synthesizeVerilog this verilogCode topModule target).
Proof.
  apply sets_try_catch; [|done]. apply sets_newProjectId. intros fraction.
  apply sets_bind; [apply sets_await |]. intros _. split.
  { apply (created (tempDir this) "project"). }
  apply sets_bind; [apply sets_await |]. intros _.
  apply sets_bind; [apply sets_await |]. intros _.
  apply sets_bind; [apply sets_await |]. intros [stdout stderr].
  apply sets_bind; [|done].
  apply sets_try_catch; [apply sets_await | done].
Qed.

Lemma sets_simulateVerilog this verilogCode testbenchCode :
  sets P (simulateVerilog this verilogCode testbenchCode).
Proof.
  apply sets_try_catch; [|done]. apply sets_newProjectId. intros fraction.
  apply sets_bind; [apply sets_await |]. intros _. split.
  { apply (created (tempDir this) "sim_project"). }
  apply sets_bind; [apply sets_await |]. intros _.
  apply sets_bind; [apply sets_await |]. intros _.
  apply sets_bind; [apply sets_await |]. intros [compileOut compileErr].
  apply sets_bind; [apply sets_await |]. by intros [simOut simErr].
Qed.

Lemma sets_runOpenlane this verilogCode designName clockPort clockPeriod
    openInKlayout :
  sets P (runOpenlane this verilogCode designName clockPort clockPeriod
            openInKlayout).
Proof.
  apply sets_try_catch;
    [|intros e; apply sets_bind; [apply sets_perform | done]].
  apply sets_newProjectId. intros fraction. split.
  { apply (created (openlaneDir this) designName). }
  do 3 (apply sets_bind; [apply sets_await |]; intros _).
  apply sets_bind; [apply sets_findPython |]. intros pythonCmd.
  do 4 (apply sets_bind; [apply sets_perform |]; intros _).
  apply sets_bind; [apply sets_await |]. intros _.
  apply sets_bind; [apply sets_execAsyncWithTimeout |]. intros _.
  do 4 (apply sets_bind; [apply sets_perform |]; intros _).
  apply sets_bind; [apply sets_perform |]. intros envPath.
  apply sets_bind; [apply sets_execAsyncWithTimeout |]. intros [stdout stderr].
  apply sets_bind; [apply sets_findLatestRun |]. intros [latestRun gdsFile].
  apply sets_bind; [apply sets_launchKlayout | done].
Qed.

(** So does every tool call. *)
Lemma sets_callTool this name args : sets P (callTool this name args).
Proof.
  apply sets_try_catch; [|by intros [? ?|? ?]].
  unfold dispatch.
  repeat match goal with
         | |- sets P (if ?b then _ else _) => destruct b
         end;
    repeat (apply sets_bind; [apply sets_lift |]; intros ?);
    auto using sets_synthesizeVerilog, sets_simulateVerilog,
      sets_viewWaveform, sets_runOpenlane, sets_viewGds,
      sets_readOpenlaneReports, sets_throw.
Qed.

End Sets.

Section Registry.

Context `{Platform} {env : Environment}.

(** Running a program only adds to the registry or replaces entries. *)
Lemma exec_keeps_identifiers {A : Type} (p : prog A) (σ : state)
    (id : string) :
  is_Some (projects σ !! id) → is_Some (projects (exec p σ).1.2 !! id).
Proof.
  revert σ.
  induction p as [a|e| |X c k IH|id' k IH|id' pr k IH]; intros σ Hid;
    cbn [exec]; try done.
  - destruct (answer c (world σ)) as [x w].
    specialize (IH x {| projects := projects σ; world := w |} Hid).
    by destruct (exec (k x) _) as [[o σ'] evs].
  - by apply IH.
  - apply IH. cbn. destruct (decide (id' = id)) as [->|Hne].
    + rewrite lookup_insert_eq. by eexists.
    + by rewrite lookup_insert_ne.
Qed.

(** Every entry of the registry satisfies [P] after a program whose
    writes all satisfy [P]. *)
Lemma exec_keeps_invariant {A : Type} (P : string → project → Prop)
    (p : prog A) (σ : state) :
  sets P p →
  (∀ id record, projects σ !! id = Some record → P id record) →
  ∀ id record, projects (exec p σ).1.2 !! id = Some record → P id record.
Proof.
  revert σ.
  induction p as [a|e| |X c k IH|id' k IH|id' pr k IH]; intros σ Hsets Hinv;
    cbn [exec]; try done.
  - destruct (answer c (world σ)) as [x w].
    specialize (IH x {| projects := projects σ; world := w |} (Hsets x) Hinv).
    by destruct (exec (k x) _) as [[o σ'] evs].
  - apply IH; [apply Hsets | done].
  - destruct Hsets as [HP Hk]. apply IH; [done |]. cbn.
    intros id record. destruct (decide (id' = id)) as [->|Hne].
    + rewrite lookup_insert_eq. by intros [= <-].
    + rewrite lookup_insert_ne by done. apply Hinv.
Qed.

End Registry.

(** *** Creating a workspace *)

Section Creation.

Context `{Platform} {env : Environment}.

Lemma exec_keeps `{A : Type} (p : prog A) (σ σ' : state) (o : outcome A)
    (evs : list event) (id : string) :
  exec p σ = (o, σ', evs) →
  is_Some (projects σ !! id) → is_Some (projects σ' !! id).
Proof.
  intros Hrun Hid. pose proof (exec_keeps_identifiers p σ id Hid) as Hk.
  by rewrite Hrun in Hk.
Qed.

Ltac registered :=
  cbn [projects];
  repeat match goal with
         | Hrun : exec _ _ = (_, ?s, _) |- is_Some (projects ?s !! _) =>
             apply (exec_keeps _ _ _ _ _ _ Hrun); clear Hrun; cbn [projects]
         end;
  rewrite lookup_insert_eq; by eexists.

Lemma create_returns_drawn_identifier (this : EDAServer) (p : prog json)
    (σ σ' : state) (envelope : json) (evs : list event) (id : string) :
  creates this p →
  exec p σ = (Returned envelope, σ', evs) →
  field "project_id" envelope = Some (JStr id) →
  ∃ fraction rest,
    evs = Performed MathRandomToString36 fraction :: rest
    ∧ id = projectId_of fraction
    ∧ is_Some (projects σ' !! id).
Proof.
  intros [verilogCode topModule target
         |verilogCode testbenchCode
         |verilogCode designName clockPort clockPeriod openInKlayout].
  - unfold synthesizeVerilog. open_program. walk.
    all: intros [= <- <- <-] Hid; try discriminate Hid.
    all: injection Hid as <-; do 2 eexists;
         split_and!; [reflexivity | reflexivity | registered].
  - unfold simulateVerilog. open_program. walk.
    all: intros [= <- <- <-] Hid; try discriminate Hid.
    all: injection Hid as <-; do 2 eexists;
         split_and!; [reflexivity | reflexivity | registered].
  - unfold runOpenlane. unfold execAsyncWithTimeout. open_program.
    repeat first [split_pair | next_answer | await_child | opaque_step].
    all: try (intros [= <- <- <-] Hid; discriminate Hid).
    intros [= <- <- <-] Hid. injection Hid as <-. do 2 eexists.
    split_and!; [reflexivity | reflexivity | registered].
Qed.

Lemma serve_keeps_identifiers (this : EDAServer)
    (requests : list (string * arguments)) (σ : state) (id : string) :
  is_Some (projects σ !! id) →
  is_Some (projects (serve this requests σ) !! id).
Proof.
  revert σ. induction requests as [|[name args] rest IH]; intros σ Hid;
    [done |].
  cbn [serve]. apply IH. by apply exec_keeps_identifiers.
Qed.

Hypothesis join_keeps_tail :
  ∀ base name id,
    alnum id → ends_with ("_" +:+ id) (path_join [base; name +:+ "_" +:+ id]).

Lemma serve_well_kept (this : EDAServer)
    (requests : list (string * arguments)) (σ : state) :
  well_kept (projects σ) → well_kept (projects (serve this requests σ)).
Proof.
  revert σ. induction requests as [|[name args] rest IH]; intros σ Hkept;
    [done |].
  cbn [serve]. apply IH. unfold well_kept.
  apply (exec_keeps_invariant
           (λ id record, alnum id ∧ ends_with ("_" +:+ id) (dir record)));
    [|exact Hkept].
  apply sets_callTool. intros base stem fraction kind. split.
  - apply projectId_alnum.
  - apply join_keeps_tail, projectId_alnum.
Qed.

Lemma well_kept_apart (registry : gmap string project) (id1 id2 : string)
    (r1 r2 : project) :
  well_kept registry →
  registry !! id1 = Some r1 → registry !! id2 = Some r2 →
  id1 ≠ id2 → dir r1 ≠ dir r2.
Proof.
  intros Hkept H1 H2 Hne Hdir.
  destruct (Hkept _ _ H1) as [Ha1 He1]. destruct (Hkept _ _ H2) as [Ha2 He2].
  rewrite Hdir in He1. by apply Hne, (suffix_identifies id1 id2 (dir r2)).
Qed.

End Creation.

Lemma example_join_keeps_tail (base name id : string) :
  alnum id → ends_with ("_" +:+ id) (path_join [base; name +:+ "_" +:+ id]).
Proof.
  intros _. exists (base +:+ "/" +:+ name). cbn.
  by rewrite !append_assoc.
Qed.

(** C1, as stated, fails: when [Math.random] yields the same digits twice,
    two create calls of one run return the same identifier, and that
    identifier then resolves to the record of the later call only. *)
Lemma identifiers_can_collide :
  ∃ first second σ' evs,
    exec CollisionExample.two_creates
         (CollisionExample.tools_installed [[1; 2; 3]; [1; 2; 3]])
    = (Returned (first, second), σ', evs)
    ∧ field "project_id" first = Some (JStr "123")
    ∧ field "project_id" second = Some (JStr "123")
    ∧ projects σ' !! "123"
      = Some {| dir := "/tmp/eda_mcp_1/sim_project_123"; type := "simulation" |}.
Proof. do 4 eexists. split_and!; by vm_compute. Qed.

(** C1, amended.  In a single server run:
    every create call (synthesis, simulation, physical-design flow) that
    returns an identifier has drawn it, as its first call to the outside
    world, from [Math.random]: it consists of the first thirteen base-36
    digits of the draw, and it is registered when the call returns;
    two draws that differ within their first thirteen digits give different
    identifiers (equal digits give the same identifier, and the later
    record replaces the earlier one);
    an identifier that is registered stays registered whatever requests the
    server handles afterwards, so [get] resolves it to one record for the
    rest of the run;
    and, on a platform whose [path.join] keeps the end of its last
    argument, records registered under different identifiers have
    different directories. *)
Theorem registry_resolves `{Platform} {env : Environment} (this : EDAServer)
    (Hjoin : ∀ base name id,
       alnum id →
       ends_with ("_" +:+ id) (path_join [base; name +:+ "_" +:+ id])) :
  (∀ p σ σ' envelope evs id,
     creates this p →
     exec p σ = (Returned envelope, σ', evs) →
     field "project_id" envelope = Some (JStr id) →
     ∃ fraction rest,
       evs = Performed MathRandomToString36 fraction :: rest
       ∧ id = projectId_of fraction
       ∧ is_Some (projects σ' !! id))
  ∧ (∀ a b,
       projectId_of a = projectId_of b
       ↔ take 13 (map digit36 a) = take 13 (map digit36 b))
  ∧ (∀ requests σ id,
       is_Some (projects σ !! id) →
       is_Some (projects (serve this requests σ) !! id))
  ∧ (∀ requests σ id1 id2 r1 r2,
       well_kept (projects σ) →
       projects (serve this requests σ) !! id1 = Some r1 →
       projects (serve this requests σ) !! id2 = Some r2 →
       id1 ≠ id2 → dir r1 ≠ dir r2).
Proof.
  split_and!.
  - intros p σ σ' envelope evs id. apply create_returns_drawn_identifier.
  - apply projectId_of_equal.
  - intros requests σ id. apply serve_keeps_identifiers.
  - intros requests σ id1 id2 r1 r2 Hkept. apply well_kept_apart.
    by apply serve_well_kept.
Qed.

Lemma registry_resolves_witness :
  ∃ r1 r2,
    projects (serve Fixture.server CollisionExample.requests
                (CollisionExample.tools_installed [[1; 2; 3]; [4; 5; 6]]))
      !! "123" = Some r1
    ∧ projects (serve Fixture.server CollisionExample.requests
                  (CollisionExample.tools_installed [[1; 2; 3]; [4; 5; 6]]))
        !! "456" = Some r2
    ∧ dir r1 ≠ dir r2.
Proof.
  set (final := serve Fixture.server CollisionExample.requests
                  (CollisionExample.tools_installed [[1; 2; 3]; [4; 5; 6]])).
  assert (H1 : ∃ r1, projects final !! "123" = Some r1)
    by (eexists; by vm_compute).
  assert (H2 : ∃ r2, projects final !! "456" = Some r2)
    by (eexists; by vm_compute).
  destruct H1 as [r1 H1]. destruct H2 as [r2 H2].
  exists r1, r2. split_and!; [done..|].
  destruct (registry_resolves Fixture.server example_join_keeps_tail)
    as (_ & _ & _ & Hapart).
  apply (Hapart CollisionExample.requests
           (CollisionExample.tools_installed [[1; 2; 3]; [4; 5; 6]])
           "123" "456" r1 r2); [|exact H1 | exact H2 | discriminate].
  intros id record Hempty.
  unfold CollisionExample.tools_installed, Fixture.fresh in Hempty.
  cbn [projects] in Hempty. by rewrite lookup_empty in Hempty.
Defined.

(** ** What a program calls *)

Section Calls.

Context {env : Environment}.
Variable Q : ∀ X : Type, call X → Prop.

Lemma calls_bind {A B : Type} (p : prog A) (f : A → prog B) :
  calls Q p → (∀ a, calls Q (f a)) → calls Q (p ≫= f).
Proof.
  intros Hp Hf. unfold mbind, prog_bind.
  induction p as [a|e| |X c k IH|id k IH|id pr k IH]; simpl in *; try done.
  - destruct Hp as [Hc Hk]. split; [done |]. intros x. by apply IH.
  - intros found. by apply IH.
  - by apply IH.
Qed.

Lemma calls_try_catch {A : Type} (p : prog A) (h : js_error → prog A) :
  calls Q p → (∀ e, calls Q (h e)) → calls Q (try_catch p h).
Proof.
  intros Hp Hh.
  induction p as [a|e| |X c k IH|id k IH|id pr k IH]; simpl in *; try done.
  - destruct Hp as [Hc Hk]. split; [done |]. intros x. by apply IH.
  - intros found. by apply IH.
  - by apply IH.
Qed.

Lemma calls_await {X : Type} (c : call (settled X)) :
  Q _ c → calls Q (await c).
Proof. intros Hc. split; [done |]. by intros [x|e]. Qed.

Lemma calls_perform {X : Type} (c : call X) : Q _ c → calls Q (perform c).
Proof. intros Hc. split; [done |]. by intros x. Qed.

Lemma calls_set {A : Type} (id : string) (pr : project) (k : prog A) :
  calls Q k → calls Q (ProjectsSet id pr k).
Proof. done. Qed.

Lemma calls_newProjectId {A : Type} (f : string → prog A) :
  Q _ MathRandomToString36 →
  (∀ fraction, calls Q (f (projectId_of fraction))) →
  calls Q (newProjectId ≫= f).
Proof. intros Hc Hf. split; [done |]. intros fraction. apply Hf. Qed.

Lemma calls_attempt {A : Type} (p : prog A) :
  calls Q p → calls Q (attempt p).
Proof.
  intros Hp. unfold attempt. apply calls_try_catch; [|done].
  by apply calls_bind.
Qed.

Lemma calls_execAsyncWithTimeout command options timeoutMs :
  Q _ (ChildProcessExec command (execOptions options) timeoutMs) →
  calls Q (execAsyncWithTimeout command options timeoutMs).
Proof.
  intros Hc. apply calls_bind; [by apply calls_perform |].
  intros events. unfold await_promise. by destruct (Runner.promise _) as [[?|?]|].
Qed.

Lemma calls_commandExists command :
  Q _ (ExecAsync ("which " +:+ command) no_options) →
  calls Q (commandExists command).
Proof.
  intros Hc. apply calls_try_catch; [|done].
  apply calls_bind; [by apply calls_await | done].
Qed.

Lemma calls_findPython_with candidates pythonCmd :
  (∀ command, Q _ (ExecAsync ("which " +:+ command) no_options)) →
  calls Q (findPython candidates pythonCmd).
Proof.
  intros Hwhich. induction candidates as [|candidate rest IH]; [done |].
  cbn [findPython]. apply calls_bind; [by apply calls_commandExists |].
  by intros [|].
Qed.

(** The calls a program makes when it runs are calls it contains. *)
Lemma exec_calls {A : Type} (p : prog A) (σ : state) :
  calls Q p → Forall (about Q) (exec p σ).2.
Proof.
  revert σ.
  induction p as [a|e| |X c k IH|id k IH|id pr k IH]; intros σ Hp;
    cbn [exec]; try by constructor.
  - destruct Hp as [Hc Hk]. destruct (answer c (world σ)) as [x w].
    specialize (IH x {| projects := projects σ; world := w |} (Hk x)).
    destruct (exec (k x) _) as [[o σ'] evs]. by constructor.
  - apply IH, Hp.
  - apply IH, Hp.
Qed.

(** A program without [projects.set] leaves the registry as it was. *)
Lemma exec_no_sets {A : Type} (p : prog A) (σ : state) :
  sets (λ _ _, False) p → projects (exec p σ).1.2 = projects σ.
Proof.
  revert σ.
  induction p as [a|e| |X c k IH|id k IH|id pr k IH]; intros σ Hp;
    cbn [exec]; try done.
  - destruct (answer c (world σ)) as [x w].
    specialize (IH x {| projects := projects σ; world := w |} (Hp x)).
    by destruct (exec (k x) _) as [[o σ'] evs].
  - apply IH, Hp.
  - by destruct Hp.
Qed.

(** When the calls of a program leave the world as it is, so does the
    program. *)
Lemma exec_world_kept {A : Type} (p : prog A) (σ : state) :
  (∀ X (c : call X) w, Q X c → (answer c w).2 = w) →
  calls Q p → world (exec p σ).1.2 = world σ.
Proof.
  intros Hkept. revert σ.
  induction p as [a|e| |X c k IH|id k IH|id pr k IH]; intros σ Hp;
    cbn [exec]; try done.
  - destruct Hp as [Hc Hk]. pose proof (Hkept X c (world σ) Hc) as Hw.
    destruct (answer c (world σ)) as [x w]. cbn in Hw. subst w.
    specialize (IH x {| projects := projects σ; world := world σ |} (Hk x)).
    by destruct (exec (k x) _) as [[o σ'] evs].
  - apply IH, Hp.
  - by rewrite IH.
Qed.

End Calls.

Lemma calls_mono {A : Type} (Q Q' : ∀ X : Type, call X → Prop) (p : prog A) :
  (∀ X c, Q X c → Q' X c) → calls Q p → calls Q' p.
Proof.
  intros Himp.
  induction p as [a|e| |X c k IH|id k IH|id pr k IH]; simpl; try done.
  - intros [Hc Hk]. split; [by apply Himp |]. intros x. by apply IH.
  - intros Hk found. by apply IH.
Qed.

Section Inspection.

Context `{Platform}.

Lemma calls_readFile path : calls reading (readFile path).
Proof.
  apply calls_try_catch; [|done]. apply calls_bind; [by apply calls_await | done].
Qed.

Lemma calls_firstGds finalDir : calls reading (firstGds finalDir).
Proof.
  apply calls_bind; [by apply calls_await |]. intros gdsFiles.
  by destruct (filter _ gdsFiles).
Qed.

Lemma calls_scanTimingFiles routingDir files r :
  calls reading (scanTimingFiles routingDir files r).
Proof.
  revert r. induction files as [|file files IH]; intros r; [done |].
  cbn [scanTimingFiles]. destruct (_ || _); [|apply IH].
  apply calls_bind; [apply calls_readFile |]. intros found.
  destruct (nonempty found); [|apply IH]. by destruct (regexp_match _ _ _).
Qed.

Lemma calls_summarise project projectId latestRun :
  calls reading (summarise project projectId latestRun).
Proof.
  unfold summarise. apply calls_bind.
  { apply calls_bind; [apply calls_readFile |]. intros found.
    by destruct (nonempty found). }
  intros r1. apply calls_bind.
  { apply calls_try_catch; [|done]. apply calls_bind; [by apply calls_await |].
    intros files. apply calls_scanTimingFiles. }
  intros r2. apply calls_bind; [|done].
  apply calls_bind; [apply calls_readFile |]. intros found.
  by destruct (nonempty found).
Qed.

Lemma calls_readOpenlaneReports projectId reportType :
  calls reading (readOpenlaneReports projectId reportType).
Proof.
  apply calls_try_catch; [|done]. intros [project|]; [|done].
  apply calls_bind; [by apply calls_attempt, calls_await |].
  intros [runs|?]; [|done]. destruct (latest runs); [|done].
  apply calls_summarise.
Qed.

Lemma calls_viewWaveform projectId vcdFile :
  calls observing (viewWaveform projectId vcdFile).
Proof.
  apply calls_try_catch; [|done]. intros [project|]; [|done].
  apply calls_bind; [by apply calls_attempt, calls_await |].
  intros [?|?].
  - apply calls_bind; [by apply calls_commandExists |]. intros [|]; [|done].
    apply calls_bind; [by apply calls_await | done].
  - apply calls_bind; [by apply calls_await | done].
Qed.

Lemma calls_viewGds projectId gdsFile :
  calls observing (viewGds projectId gdsFile).
Proof.
  apply calls_try_catch; [|done]. intros [project|]; [|done].
  apply calls_bind.
  { unfold locateGds. destruct (nonempty gdsFile); [done |].
    apply calls_try_catch; [|done]. apply calls_bind; [by apply calls_await |].
    intros runs. destruct (latest runs); [|done].
    apply calls_bind; [|done].
    eapply calls_mono; [|apply calls_firstGds]. by intros X []. }
  intros [envelope|gdsPath]; [done |].
  destruct (String.eqb gdsPath ""); [done |].
  apply calls_bind; [by apply calls_attempt, calls_await |].
  intros [?|?]; [|done].
  apply calls_bind; [by apply calls_execAsyncWithTimeout | done].
Qed.

Lemma reading_observing (X : Type) (c : call X) : reading X c → observing X c.
Proof. by destruct c. Qed.

End Inspection.

(** ** Which commands get a kill timer *)

Section KillTimer.

Context `{Platform} {env : Environment}.

Lemma no_timer_reading (X : Type) (c : call X) : reading X c → no_timer X c.
Proof. unfold no_timer. destruct c; cbn; tauto. Qed.

Lemma no_timer_events (evs : list event) :
  Forall (about no_timer) evs → Forall (λ ev, ¬ about timed ev) evs.
Proof.
  intros Hevs. eapply Forall_impl; [exact Hevs |]. by intros [X c x].
Qed.

Lemma synthesizeVerilog_no_timer this verilogCode topModule target :
  calls no_timer (synthesizeVerilog this verilogCode topModule target).
Proof.
  apply calls_try_catch; [|done].
  apply calls_newProjectId; [by intros [] |]. intros fraction.
  apply calls_bind; [apply calls_await; by intros [] |]. intros _.
  apply calls_set.
  do 2 (apply calls_bind; [apply calls_await; by intros [] |]; intros _).
  apply calls_bind; [apply calls_await; by intros [] |].
  intros [stdout stderr]. apply calls_bind; [|done].
  apply calls_try_catch; [apply calls_await; by intros [] | done].
Qed.

Lemma simulateVerilog_no_timer this verilogCode testbenchCode :
  calls no_timer (simulateVerilog this verilogCode testbenchCode).
Proof.
  apply calls_try_catch; [|done].
  apply calls_newProjectId; [by intros [] |]. intros fraction.
  apply calls_bind; [apply calls_await; by intros [] |]. intros _.
  apply calls_set.
  do 2 (apply calls_bind; [apply calls_await; by intros [] |]; intros _).
  apply calls_bind; [apply calls_await; by intros [] |].
  intros [compileOut compileErr].
  apply calls_bind; [apply calls_await; by intros [] |].
  by intros [simOut simErr].
Qed.

Lemma viewWaveform_no_timer projectId vcdFile :
  calls no_timer (viewWaveform projectId vcdFile).
Proof.
  apply calls_try_catch; [|done]. intros [project|]; [|done].
  apply calls_bind; [apply calls_attempt, calls_await; by intros [] |].
  intros [?|?].
  - apply calls_bind; [apply calls_commandExists; by intros [] |].
    intros [|]; [|done].
    apply calls_bind; [apply calls_await; by intros [] | done].
  - apply calls_bind; [apply calls_await; by intros [] | done].
Qed.

Lemma untimed_no_timer this (p : prog json) :
  untimed this p → calls no_timer p.
Proof.
  intros [verilogCode topModule target|verilogCode testbenchCode
         |projectId vcdFile|projectId reportType].
  - apply synthesizeVerilog_no_timer.
  - apply simulateVerilog_no_timer.
  - apply viewWaveform_no_timer.
  - eapply calls_mono; [apply no_timer_reading |].
    apply calls_readOpenlaneReports.
Qed.

Lemma only_probes_reading (X : Type) (c : call X) :
  reading X c → only_probes X c.
Proof. by destruct c. Qed.

Lemma only_probes_which (command : string) :
  only_probes _ (ExecAsync ("which " +:+ command) no_options).
Proof. by exists command. Qed.

Lemma findLatestRun_only_probes runsDir :
  calls only_probes (findLatestRun runsDir).
Proof.
  apply calls_try_catch; [|done]. apply calls_bind; [by apply calls_await |].
  intros runs. destruct (latest runs); [|done].
  apply calls_bind; [|done]. apply calls_try_catch; [|done].
  eapply calls_mono; [apply only_probes_reading | apply calls_firstGds].
Qed.

Lemma launchKlayout_only_probes openInKlayout gdsFile :
  calls only_probes (launchKlayout openInKlayout gdsFile).
Proof.
  unfold launchKlayout. destruct (_ && _); [|done].
  apply calls_try_catch; [|done].
  apply calls_bind; [apply calls_commandExists, only_probes_which |].
  intros [|]; [|done].
  apply calls_bind; [by apply calls_execAsyncWithTimeout | done].
Qed.

Lemma runOpenlane_only_probes this verilogCode designName clockPort
    clockPeriod openInKlayout :
  calls only_probes (runOpenlane this verilogCode designName clockPort
                       clockPeriod openInKlayout).
Proof.
  apply calls_try_catch;
    [|intros e; apply calls_bind; [by apply calls_perform | done]].
  apply calls_newProjectId; [done |]. intros fraction. apply calls_set.
  do 3 (apply calls_bind; [by apply calls_await |]; intros _).
  apply calls_bind;
    [apply calls_findPython_with, only_probes_which |]. intros pythonCmd.
  do 4 (apply calls_bind; [by apply calls_perform |]; intros _).
  apply calls_bind; [by apply calls_await |]. intros _.
  apply calls_bind; [by apply calls_execAsyncWithTimeout |]. intros _.
  do 4 (apply calls_bind; [by apply calls_perform |]; intros _).
  apply calls_bind; [by apply calls_perform |]. intros envPath.
  apply calls_bind; [by apply calls_execAsyncWithTimeout |].
  intros [stdout stderr].
  apply calls_bind; [apply findLatestRun_only_probes |].
  intros [latestRun gdsFile].
  apply calls_bind; [apply launchKlayout_only_probes | done].
Qed.

Lemma viewGds_only_probes projectId gdsFile :
  calls only_probes (viewGds projectId gdsFile).
Proof.
  apply calls_try_catch; [|done]. intros [project|]; [|done].
  apply calls_bind.
  { unfold locateGds. destruct (nonempty gdsFile); [done |].
    apply calls_try_catch; [|done]. apply calls_bind; [by apply calls_await |].
    intros runs. destruct (latest runs); [|done].
    apply calls_bind; [|done].
    eapply calls_mono; [apply only_probes_reading | apply calls_firstGds]. }
  intros [envelope|gdsPath]; [done |].
  destruct (String.eqb gdsPath ""); [done |].
  apply calls_bind; [by apply calls_attempt, calls_await |].
  intros [?|?]; [|done].
  apply calls_bind; [by apply calls_execAsyncWithTimeout | done].
Qed.

Lemma timer_guarded_only_probes this (p : prog json) :
  timer_guarded this p → calls only_probes p.
Proof.
  intros [verilogCode designName clockPort clockPeriod openInKlayout
         |projectId gdsFile].
  - apply runOpenlane_only_probes.
  - apply viewGds_only_probes.
Qed.

End KillTimer.



(** * Further properties of the code *)

(** ** How programs end *)

Section Leaves.

Context {env : Environment}.

Lemma leaves_mono {A : Type} (R R' : A → Prop) (T T' : js_error → Prop)
    (S S' : Prop) (p : prog A) :
  (∀ a, R a → R' a) → (∀ e, T e → T' e) → (S → S') →
  leaves R T S p → leaves R' T' S' p.
Proof.
  intros HR HT HS.
  induction p as [a|e| |X c k IH|id k IH|id pr k IH]; simpl; auto.
Qed.

Lemma leaves_bind {A B : Type} (R : A → Prop) (R' : B → Prop)
    (T : js_error → Prop) (S : Prop) (p : prog A) (f : A → prog B) :
  leaves R T S p → (∀ a, R a → leaves R' T S (f a)) →
  leaves R' T S (p ≫= f).
Proof.
  intros Hp Hf. unfold mbind, prog_bind.
  induction p as [a|e| |X c k IH|id k IH|id pr k IH]; simpl in *; auto.
Qed.

Lemma leaves_try_catch {A : Type} (R : A → Prop) (T T' : js_error → Prop)
    (S : Prop) (p : prog A) (h : js_error → prog A) :
  leaves R T S p → (∀ e, T e → leaves R T' S (h e)) →
  leaves R T' S (try_catch p h).
Proof.
  intros Hp Hh.
  induction p as [a|e| |X c k IH|id k IH|id pr k IH]; simpl in *; auto.
Qed.

(** What the predicate says about a run. *)
Lemma exec_leaves {A : Type} (R : A → Prop) (T : js_error → Prop) (S : Prop)
    (p : prog A) (σ : state) :
  leaves R T S p →
  match (exec p σ).1.1 with
  | Returned a => R a
  | Thrown e => T e
  | NeverReturns => S
  end.
Proof.
  revert σ.
  induction p as [a|e| |X c k IH|id k IH|id pr k IH]; intros σ Hp;
    cbn [exec]; try done.
  - destruct (answer c (world σ)) as [x w].
    specialize (IH x {| projects := projects σ; world := w |} (Hp x)).
    by destruct (exec (k x) _) as [[o σ'] evs].
  - apply IH, Hp.
  - apply IH, Hp.
Qed.

Lemma leaves_ret {A : Type} (R : A → Prop) (T : js_error → Prop) (S : Prop)
    (a : A) :
  R a → leaves R T S (Ret a).
Proof. done. Qed.

Lemma leaves_await {X : Type} (S : Prop) (c : call (settled X)) :
  leaves (λ _, True) (λ _, True) S (await c).
Proof. by intros [x|e]. Qed.

Lemma leaves_perform {X : Type} (T : js_error → Prop) (S : Prop) (c : call X) :
  leaves (λ _, True) T S (perform c).
Proof. by intros x. Qed.

Lemma leaves_attempt {A : Type} (T : js_error → Prop) (S : Prop) (p : prog A) :
  leaves (λ _, True) (λ _, True) S p →
  leaves (λ _, True) T S (attempt p).
Proof.
  intros Hp. unfold attempt. eapply leaves_try_catch; [|done].
  eapply leaves_bind; [exact Hp | done].
Qed.

Lemma leaves_newProjectId (T : js_error → Prop) (S : Prop) :
  leaves (λ _, True) T S newProjectId.
Proof. by intros fraction. Qed.

Lemma leaves_execAsyncWithTimeout command options timeoutMs :
  leaves (λ _, True) (λ _, True) True
    (execAsyncWithTimeout command options timeoutMs).
Proof. intros events. cbn. by destruct (Runner.promise _) as [[?|?]|]. Qed.

Lemma leaves_commandExists (T : js_error → Prop) (S : Prop) command :
  leaves (λ _, True) T S (commandExists command).
Proof.
  eapply leaves_try_catch; [|done].
  eapply leaves_bind; [apply leaves_await | done].
Qed.

Lemma leaves_readFile (T : js_error → Prop) (S : Prop) path :
  leaves (λ _, True) T S (readFile path).
Proof.
  eapply leaves_try_catch; [|done].
  eapply leaves_bind; [apply leaves_await | done].
Qed.

End Leaves.

Section DriverLeaves.

Context `{Platform}.

Lemma leaves_findPython (T : js_error → Prop) (S : Prop) candidates pythonCmd :
  leaves (λ _, True) T S (findPython candidates pythonCmd).
Proof.
  induction candidates as [|candidate rest IH]; [done |].
  cbn [findPython]. eapply leaves_bind; [apply leaves_commandExists |].
  by intros [|] _.
Qed.

Lemma leaves_firstGds (S : Prop) finalDir :
  leaves (λ _, True) (λ _, True) S (firstGds finalDir).
Proof.
  eapply leaves_bind; [apply leaves_await |]. intros gdsFiles _.
  by destruct (filter _ gdsFiles).
Qed.

Lemma leaves_findLatestRun (T : js_error → Prop) (S : Prop) runsDir :
  leaves (λ _, True) T S (findLatestRun runsDir).
Proof.
  eapply leaves_try_catch; [|done].
  eapply leaves_bind; [apply (leaves_await S) |]. intros runs _.
  destruct (latest runs); [|done].
  eapply leaves_bind; [|done].
  eapply leaves_try_catch; [apply leaves_firstGds | done].
Qed.

Lemma leaves_launchKlayout (T : js_error → Prop) openInKlayout gdsFile :
  leaves (λ _, True) T True (launchKlayout openInKlayout gdsFile).
Proof.
  unfold launchKlayout. destruct (_ && _); [|done].
  eapply leaves_try_catch; [|done].
  eapply leaves_bind; [apply (leaves_commandExists (λ _, True)) |].
  intros [|] _; [|done].
  eapply leaves_bind; [apply leaves_execAsyncWithTimeout | done].
Qed.

Lemma leaves_scanTimingFiles (T : js_error → Prop) (S : Prop)
    routingDir files r :
  leaves (λ _, True) T S (scanTimingFiles routingDir files r).
Proof.
  induction files as [|file files IH]; [done |]. cbn [scanTimingFiles].
  destruct (_ || _); [|done].
  eapply leaves_bind; [apply leaves_readFile |]. intros found _.
  destruct (nonempty found); [|done]. by destruct (regexp_match _ _ _).
Qed.

Lemma envelope_failure (e : js_error) : envelope (failure e).
Proof. right. split; [done | by eexists]. Qed.

Lemma envelope_failed (message : string) : envelope (failed message).
Proof. right. split; [done | by eexists]. Qed.

Lemma envelope_report projectId latestRun r :
  envelope (report_envelope projectId latestRun r).
Proof. by left. Qed.

Lemma leaves_summarise (T : js_error → Prop) (S : Prop)
    project projectId latestRun :
  leaves envelope T S (summarise project projectId latestRun).
Proof.
  unfold summarise.
  eapply (leaves_bind (λ _, True)).
  { eapply leaves_bind; [apply leaves_readFile |]. intros found _.
    by destruct (nonempty found). }
  intros r1 _. eapply (leaves_bind (λ _, True)).
  { eapply leaves_try_catch; [|done].
    eapply leaves_bind; [apply (leaves_await S) |].
    intros files _. apply leaves_scanTimingFiles. }
  intros r2 _. eapply (leaves_bind (λ _, True)).
  { eapply leaves_bind; [apply leaves_readFile |]. intros found _.
    by destruct (nonempty found). }
  intros r3 _. apply envelope_report.
Qed.

Variable this : EDAServer.

Lemma leaves_synthesizeVerilog verilogCode topModule target :
  leaves envelope (λ _, False) False
    (synthesizeVerilog this verilogCode topModule target).
Proof.
  eapply (leaves_try_catch _ (λ _, True));
    [|intros e _; apply envelope_failure].
  eapply leaves_bind; [apply leaves_newProjectId |]. intros projectId _.
  eapply leaves_bind; [apply leaves_await |]. intros _ _. cbn [leaves].
  do 3 (eapply leaves_bind; [apply leaves_await |]; intros ? _).
  destruct a1 as [stdout stderr].
  eapply (leaves_bind (λ _, True));
    [eapply leaves_try_catch; [apply leaves_await | done] |].
  intros synthVerilog _. by left.
Qed.

Lemma leaves_simulateVerilog verilogCode testbenchCode :
  leaves envelope (λ _, False) False
    (simulateVerilog this verilogCode testbenchCode).
Proof.
  eapply (leaves_try_catch _ (λ _, True));
    [|intros e _; apply envelope_failure].
  eapply leaves_bind; [apply leaves_newProjectId |]. intros projectId _.
  eapply leaves_bind; [apply leaves_await |]. intros _ _. cbn [leaves].
  do 3 (eapply leaves_bind; [apply leaves_await |]; intros ? _).
  destruct a1 as [compileOut compileErr].
  eapply leaves_bind; [apply leaves_await |]. intros [simOut simErr] _.
  by left.
Qed.

Lemma leaves_viewWaveform projectId vcdFile :
  leaves envelope (λ _, False) False (viewWaveform projectId vcdFile).
Proof.
  eapply (leaves_try_catch _ (λ _, True));
    [|intros e _; apply envelope_failure].
  intros [project|]; [|apply envelope_failed].
  eapply leaves_bind; [apply leaves_attempt, leaves_await |].
  intros [?|?] _.
  - eapply leaves_bind; [apply leaves_commandExists |]. intros [|] _.
    + eapply leaves_bind; [apply leaves_await |]. intros _ _. by left.
    + right. split; [done | by eexists].
  - eapply leaves_bind; [apply leaves_await |]. intros files _.
    right. split; [done | by eexists].
Qed.

Lemma leaves_readOpenlaneReports projectId reportType :
  leaves envelope (λ _, False) False
    (readOpenlaneReports projectId reportType).
Proof.
  eapply (leaves_try_catch _ (λ _, True));
    [|intros e _; apply envelope_failure].
  intros [project|]; [|apply envelope_failed].
  eapply leaves_bind; [apply leaves_attempt, leaves_await |].
  intros [runs|?] _; [|apply envelope_failed].
  destruct (latest runs); [|apply envelope_failed].
  apply leaves_summarise.
Qed.

Lemma leaves_viewGds projectId gdsFile :
  leaves envelope (λ _, False) True (viewGds projectId gdsFile).
Proof.
  eapply (leaves_try_catch _ (λ _, True));
    [|intros e _; apply envelope_failure].
  intros [project|]; [|apply envelope_failed].
  eapply (leaves_bind
            (λ r, match r with inl j => envelope j | inr _ => True end)).
  { unfold locateGds. destruct (nonempty gdsFile); [done |].
    eapply leaves_try_catch; [|intros e _; apply envelope_failed].
    eapply leaves_bind; [apply (leaves_await True) |].
    intros runs _. destruct (latest runs); [|done].
    eapply leaves_bind; [apply leaves_firstGds | done]. }
  intros [result|gdsPath] Hresult; [exact Hresult |].
  destruct (String.eqb gdsPath ""); [apply envelope_failed |].
  eapply leaves_bind; [apply leaves_attempt, leaves_await |].
  intros [?|?] _; [|apply envelope_failed].
  eapply leaves_bind; [apply leaves_execAsyncWithTimeout |]. intros _ _.
  by left.
Qed.

Lemma leaves_runOpenlane verilogCode designName clockPort clockPeriod
    openInKlayout :
  leaves envelope (λ _, False) True
    (runOpenlane this verilogCode designName clockPort clockPeriod
       openInKlayout).
Proof.
  eapply (leaves_try_catch _ (λ _, True)).
  2: { intros e _. eapply leaves_bind; [apply leaves_perform |].
       intros _ _. right. split; [done | by eexists]. }
  eapply leaves_bind; [apply leaves_newProjectId |]. intros projectId _.
  cbn [leaves].
  do 3 (eapply leaves_bind; [apply leaves_await |]; intros _ _).
  eapply leaves_bind; [apply leaves_findPython |]. intros pythonCmd _.
  do 4 (eapply leaves_bind; [apply leaves_perform |]; intros _ _).
  eapply leaves_bind; [apply leaves_await |]. intros _ _.
  eapply leaves_bind; [apply leaves_execAsyncWithTimeout |]. intros _ _.
  do 4 (eapply leaves_bind; [apply leaves_perform |]; intros _ _).
  eapply leaves_bind; [apply leaves_perform |]. intros envPath _.
  eapply leaves_bind; [apply leaves_execAsyncWithTimeout |].
  intros [stdout stderr] _.
  eapply leaves_bind; [apply leaves_findLatestRun |].
  intros [latestRun gdsFile] _.
  eapply leaves_bind; [apply leaves_launchKlayout |]. intros klayoutResult _.
  by left.
Qed.

End DriverLeaves.

(** X1. Every driver ends inside its own boundary: whatever the request
    and whatever the outside world answers, it never throws, and what it
    returns is an envelope whose [success] is a boolean and which, on
    failure, carries an [error] text. *)
Theorem drivers_return_envelopes `{Platform} {env : Environment}
    (this : EDAServer) (p : prog json) (σ : state)
    (Hdriver : driver this p) :
  match (exec p σ).1.1 with
  | Returned j => envelope j
  | Thrown _ => False
  | NeverReturns => True
  end.
Proof.
  assert (Hleaves : leaves envelope (λ _, False) True p).
  { destruct Hdriver.
    - eapply leaves_mono; [| | | apply leaves_synthesizeVerilog]; done.
    - eapply leaves_mono; [| | | apply leaves_simulateVerilog]; done.
    - eapply leaves_mono; [| | | apply leaves_viewWaveform]; done.
    - eapply leaves_mono; [| | | apply leaves_runOpenlane]; done.
    - eapply leaves_mono; [| | | apply leaves_viewGds]; done.
    - eapply leaves_mono; [| | | apply leaves_readOpenlaneReports]; done. }
  apply (exec_leaves envelope (λ _, False) True p σ Hleaves).
Qed.

Lemma drivers_return_envelopes_witness :
  ∃ j, (exec SynthesisExample.request SynthesisExample.no_yosys).1.1
       = Returned j ∧ envelope j.
Proof.
  pose proof (drivers_return_envelopes Fixture.server SynthesisExample.request
                SynthesisExample.no_yosys
                (driver_synthesis Fixture.server _ _ _)) as Hends.
  destruct (exec SynthesisExample.request SynthesisExample.no_yosys).1.1
    as [j|e|] eqn:Hout.
  - by exists j.
  - destruct Hends.
  - vm_compute in Hout. discriminate Hout.
Defined.

(** The same for use in other proofs: no driver throws. *)
Lemma drivers_never_throw_aux `{Platform} {env : Environment}
    (this : EDAServer) (p : prog json) (σ : state) :
  driver this p →
  match (exec p σ).1.1 with Thrown _ => False | _ => True end.
Proof.
  intros Hdriver.
  assert (Hleaves : leaves (λ _, True) (λ _, False) True p).
  { destruct Hdriver.
    - eapply leaves_mono; [| | | apply leaves_synthesizeVerilog]; done.
    - eapply leaves_mono; [| | | apply leaves_simulateVerilog]; done.
    - eapply leaves_mono; [| | | apply leaves_viewWaveform]; done.
    - eapply leaves_mono; [| | | apply leaves_runOpenlane]; done.
    - eapply leaves_mono; [| | | apply leaves_viewGds]; done.
    - eapply leaves_mono; [| | | apply leaves_readOpenlaneReports]; done. }
  pose proof (exec_leaves _ _ _ p σ Hleaves) as Hends.
  by destruct (exec p σ).1.1.
Qed.

(** ** The handler *)

Section Handler.

Context `{Platform} {env : Environment}.
Variable this : EDAServer.

(** A [catch] around a program that never throws changes nothing. *)
Lemma exec_try_catch_unused {A : Type} (R : A → Prop) (S : Prop) (p : prog A)
    (h : js_error → prog A) (σ : state) :
  leaves R (λ _, False) S p → exec (try_catch p h) σ = exec p σ.
Proof.
  intros Hp. rewrite exec_try_catch.
  pose proof (exec_leaves R (λ _, False) S p σ Hp) as Hends.
  by destruct (exec p σ) as [[[a|e|] σ'] evs].
Qed.

Ltac validated :=
  unfold callTool, dispatch; cbn [String.eqb Ascii.eqb Bool.eqb andb];
  repeat match goal with
         | Hs : supplied _ _ = true |- _ =>
             rewrite (validate_supplied _ _ _ Hs); clear Hs
         end;
  cbn [lift mbind prog_bind bind].

Lemma callTool_synthesize (args : arguments) (σ : state) :
  supplied args "verilog_code" = true → supplied args "top_module" = true →
  exec (callTool this "synthesize_verilog" args) σ
  = exec (synthesizeVerilog this
            (getStringProperty args "verilog_code" "")
            (getStringProperty args "top_module" "")
            (getStringProperty args "target" "generic")) σ.
Proof.
  intros Hcode Htop. validated.
  eapply exec_try_catch_unused, leaves_synthesizeVerilog.
Qed.

Lemma callTool_simulate (args : arguments) (σ : state) :
  supplied args "verilog_code" = true → supplied args "testbench_code" = true →
  exec (callTool this "simulate_verilog" args) σ
  = exec (simulateVerilog this
            (getStringProperty args "verilog_code" "")
            (getStringProperty args "testbench_code" "")) σ.
Proof.
  intros Hcode Hbench. validated.
  eapply exec_try_catch_unused, leaves_simulateVerilog.
Qed.

Lemma callTool_waveform (args : arguments) (σ : state) :
  supplied args "project_id" = true →
  exec (callTool this "view_waveform" args) σ
  = exec (viewWaveform (getStringProperty args "project_id" "")
            (getStringProperty args "vcd_file" "output.vcd")) σ.
Proof.
  intros Hid. validated. eapply exec_try_catch_unused, leaves_viewWaveform.
Qed.

Lemma callTool_flow (args : arguments) (σ : state) :
  supplied args "verilog_code" = true → supplied args "design_name" = true →
  exec (callTool this "run_openlane" args) σ
  = exec (runOpenlane this
            (getStringProperty args "verilog_code" "")
            (getStringProperty args "design_name" "")
            (getStringProperty args "clock_port" "clk")
            (getNumberProperty args "clock_period" 10)
            (openInKlayout_of args)) σ.
Proof.
  intros Hcode Hname. validated.
  eapply exec_try_catch_unused, leaves_runOpenlane.
Qed.

Lemma callTool_layout (args : arguments) (σ : state) :
  supplied args "project_id" = true →
  exec (callTool this "view_gds" args) σ
  = exec (viewGds (getStringProperty args "project_id" "")
            (or_undefined (getStringProperty args "gds_file" ""))) σ.
Proof.
  intros Hid. validated. eapply exec_try_catch_unused, leaves_viewGds.
Qed.

Lemma callTool_reports (args : arguments) (σ : state) :
  supplied args "project_id" = true →
  exec (callTool this "read_openlane_reports" args) σ
  = exec (readOpenlaneReports (getStringProperty args "project_id" "")
            (or_undefined (getStringProperty args "report_type" ""))) σ.
Proof.
  intros Hid. validated.
  eapply exec_try_catch_unused, leaves_readOpenlaneReports.
Qed.

End Handler.



Lemma unsupplied_none_1 (args : arguments) (a : string) :
  first_unsupplied args [a] = None → supplied args a = true.
Proof.
  unfold first_unsupplied. cbn [find]. by destruct (supplied args a).
Qed.

Lemma unsupplied_none_2 (args : arguments) (a b : string) :
  first_unsupplied args [a; b] = None →
  supplied args a = true ∧ supplied args b = true.
Proof.
  unfold first_unsupplied. cbn [find].
  by destruct (supplied args a), (supplied args b).
Qed.

(** X3. The handler throws in two situations only, and in both before any
    call to the outside world and without touching the registry: a
    required parameter is not supplied ([InvalidParams], naming the first
    such parameter), or the tool name is none of the six
    ([MethodNotFound], naming it).  The [InternalError] wrapper of the
    handler is never reached. *)
Theorem handler_throws_only_protocol_errors `{Platform} {env : Environment}
    (this : EDAServer) (name : string) (args : arguments) (σ σ' : state)
    (e : js_error) (evs : list event)
    (Hthrown : exec (callTool this name args) σ = (Thrown e, σ', evs)) :
  σ' = σ ∧ evs = []
  ∧ ((∃ required key,
        (name, required) ∈ tools
        ∧ first_unsupplied args required = Some key
        ∧ e = McpError InvalidParams (missing_parameter key name))
     ∨ ((∀ required, (name, required) ∉ tools)
        ∧ e = McpError MethodNotFound ("Tool not found: " +:+ name))).
Proof.
  assert (Hreject : ∀ required,
            (name, required) ∈ tools →
            (∃ key, first_unsupplied args required = Some key) →
            σ' = σ ∧ evs = []
            ∧ ((∃ required key,
                  (name, required) ∈ tools
                  ∧ first_unsupplied args required = Some key
                  ∧ e = McpError InvalidParams (missing_parameter key name))
               ∨ ((∀ required, (name, required) ∉ tools)
                  ∧ e = McpError MethodNotFound ("Tool not found: " +:+ name)))).
  { intros required Htool [key Hkey].
    rewrite (callTool_rejects this name required args key Htool Hkey) in Hthrown.
    injection Hthrown as <- <- <-. split_and!; [done..|].
    left. by exists required, key. }
  assert (Hnever : ∀ p, driver this p →
            exec (callTool this name args) σ = exec p σ → False).
  { intros p Hp Hsame. rewrite Hsame in Hthrown.
    pose proof (drivers_never_throw_aux this p σ Hp) as Hends.
    by rewrite Hthrown in Hends. }
  destruct (String.eqb_spec name "synthesize_verilog") as [->|N1].
  { destruct (first_unsupplied args ["verilog_code"; "top_module"]) eqn:Hf.
    - eapply Hreject; [|by eexists]. apply list_elem_of_In. simpl. tauto.
    - apply unsupplied_none_2 in Hf as [? ?]. exfalso.
      eapply Hnever; [|by apply callTool_synthesize]. constructor. }
  destruct (String.eqb_spec name "simulate_verilog") as [->|N2].
  { destruct (first_unsupplied args ["verilog_code"; "testbench_code"]) eqn:Hf.
    - eapply Hreject; [|by eexists]. apply list_elem_of_In. simpl. tauto.
    - apply unsupplied_none_2 in Hf as [? ?]. exfalso.
      eapply Hnever; [|by apply callTool_simulate]. constructor. }
  destruct (String.eqb_spec name "view_waveform") as [->|N3].
  { destruct (first_unsupplied args ["project_id"]) eqn:Hf.
    - eapply Hreject; [|by eexists]. apply list_elem_of_In. simpl. tauto.
    - apply unsupplied_none_1 in Hf. exfalso.
      eapply Hnever; [|by apply callTool_waveform]. constructor. }
  destruct (String.eqb_spec name "run_openlane") as [->|N4].
  { destruct (first_unsupplied args ["verilog_code"; "design_name"]) eqn:Hf.
    - eapply Hreject; [|by eexists]. apply list_elem_of_In. simpl. tauto.
    - apply unsupplied_none_2 in Hf as [? ?]. exfalso.
      eapply Hnever; [|by apply callTool_flow]. constructor. }
  destruct (String.eqb_spec name "view_gds") as [->|N5].
  { destruct (first_unsupplied args ["project_id"]) eqn:Hf.
    - eapply Hreject; [|by eexists]. apply list_elem_of_In. simpl. tauto.
    - apply unsupplied_none_1 in Hf. exfalso.
      eapply Hnever; [|by apply callTool_layout]. constructor. }
  destruct (String.eqb_spec name "read_openlane_reports") as [->|N6].
  { destruct (first_unsupplied args ["project_id"]) eqn:Hf.
    - eapply Hreject; [|by eexists]. apply list_elem_of_In. simpl. tauto.
    - apply unsupplied_none_1 in Hf. exfalso.
      eapply Hnever; [|by apply callTool_reports]. constructor. }
  revert Hthrown. unfold callTool, dispatch.
  apply String.eqb_neq in N1, N2, N3, N4, N5, N6.
  rewrite N1, N2, N3, N4, N5, N6. cbn [try_catch exec].
  intros [= <- <- <-]. split_and!; [done..|]. right. split; [|done].
  intros required Hin. apply list_elem_of_In in Hin. simpl in Hin.
  apply String.eqb_neq in N1, N2, N3, N4, N5, N6.
  intuition congruence.
Qed.

Lemma handler_throws_only_protocol_errors_witness :
  let σ := Fixture.fresh (Fixture.bare []) in
  let e := McpError MethodNotFound "Tool not found: place_and_route" in
  exec (callTool Fixture.server "place_and_route" None) σ = (Thrown e, σ, [])
  ∧ ((∃ required key,
        ("place_and_route", required) ∈ tools
        ∧ first_unsupplied None required = Some key
        ∧ e = McpError InvalidParams (missing_parameter key "place_and_route"))
     ∨ ((∀ required, ("place_and_route", required) ∉ tools)
        ∧ e = McpError MethodNotFound
                ("Tool not found: " +:+ "place_and_route"))).
Proof.
  intros σ e.
  assert (Hthrown : exec (callTool Fixture.server "place_and_route" None) σ
                    = (Thrown e, σ, [])) by reflexivity.
  split; [exact Hthrown|].
  exact (proj2 (proj2 (handler_throws_only_protocol_errors Fixture.server
                         "place_and_route" None σ σ e [] Hthrown))).
Defined.

(** ** The [spawn] runner *)

Lemma spawn_buffers (command : string) (args : list string) (timeoutMs : N)
    (events : list spawn_event) (st : Runner.spawn_state) :
  let st' := fold_left (Runner.spawn_step command args timeoutMs) events st in
  Runner.sp_stdout st' = Runner.sp_stdout st +:+ stdout_of events
  ∧ Runner.sp_stderr st' = Runner.sp_stderr st +:+ stderr_of events.
Proof.
  revert st. induction events as [|ev events IH]; intros st; cbn.
  - by rewrite !append_empty_r.
  - destruct (IH (Runner.spawn_step command args timeoutMs st ev)) as [Ho He].
    rewrite Ho, He. clear IH Ho He.
    destruct ev as [|chunk|chunk|code|error]; cbn;
      rewrite ?append_assoc; try done.
    by destruct (Runner.sp_timer_armed st).
Qed.

Lemma spawn_run_data (command : string) (args : list string) (timeoutMs : N)
    (data : list spawn_event) :
  forallb Runner.is_data data = true →
  let st := Runner.spawn_run command args timeoutMs data in
  Runner.sp_timer_armed st = true ∧ Runner.sp_promise st = None
  ∧ Runner.sp_kills st = []
  ∧ Runner.sp_stdout st = stdout_of data
  ∧ Runner.sp_stderr st = stderr_of data.
Proof.
  intros Hdata st. subst st. unfold Runner.spawn_run.
  destruct (RunnerFacts.spawn_data_only command args timeoutMs data
              Runner.spawn_start Hdata) as (Ht & Hp & Hk).
  destruct (spawn_buffers command args timeoutMs data Runner.spawn_start)
    as [Ho He].
  by split_and!.
Qed.

(** X4. What [spawnAsyncWithTimeout] hands to its caller.  The text written
    to each stream is collected separately, chunk after chunk in the order
    of arrival.  While only output arrives the promise stays pending.  When
    the child closes with status 0 the promise is fulfilled with the two
    texts collected so far; with any other status, or none, it is rejected
    with a message that names the status, the command line and the text of
    the standard error.  When the child cannot be started or fails
    ([error] event), the promise is rejected with that very error; no
    signal is sent and the timer is cleared.  Whatever the event loop
    delivers afterwards changes nothing of this. *)
Theorem spawn_collects_and_reports
    (command : string) (args : list string) (timeoutMs : N)
    (data rest : list spawn_event)
    (Hdata : forallb Runner.is_data data = true) :
  Runner.sp_promise (Runner.spawn_run command args timeoutMs data) = None
  ∧ Runner.sp_promise
      (Runner.spawn_run command args timeoutMs
         (data ++ Close (Some 0%Z) :: rest))
    = Some (Fulfilled (stdout_of data, stderr_of data))
  ∧ (∀ code, code ≠ Some 0%Z →
       ∃ msg,
         Runner.sp_promise
           (Runner.spawn_run command args timeoutMs
              (data ++ Close code :: rest))
         = Some (Rejected (Error msg))
         ∧ JsString.contains (Runner.show_code code) msg
         ∧ JsString.contains (Runner.command_line command args) msg
         ∧ JsString.contains (stderr_of data) msg)
  ∧ (∀ error,
       let st := Runner.spawn_run command args timeoutMs
                   (data ++ ErrorEvent error :: rest) in
       Runner.sp_promise st = Some (Rejected error)
       ∧ Runner.sp_kills st = []
       ∧ Runner.sp_timer_armed st = false).
Proof.
  destruct (spawn_run_data command args timeoutMs data Hdata)
    as (Ht & Hp & Hk & Ho & He).
  unfold Runner.spawn_run in *.
  split_and!.
  - done.
  - rewrite fold_left_app. cbn [fold_left].
    match goal with
    | |- context [fold_left _ rest ?s] =>
        destruct (RunnerFacts.spawn_settled_stable command args timeoutMs
                    rest s) as (_ & Hp' & _)
    end.
    + done.
    + cbn. rewrite Hp. by eexists.
    + rewrite Hp'. cbn. by rewrite Hp, Ho, He.
  - intros code Hcode. rewrite fold_left_app. cbn [fold_left].
    match goal with
    | |- context [fold_left _ rest ?s] =>
        destruct (RunnerFacts.spawn_settled_stable command args timeoutMs
                    rest s) as (_ & Hp' & _)
    end.
    + done.
    + cbn. rewrite Hp. destruct code as [[| |]|]; by eexists.
    + eexists. split.
      * rewrite Hp'. cbn. rewrite Hp, He.
        instantiate (1 := "Command failed with exit code "
                           +:+ Runner.show_code code +:+ ": "
                           +:+ Runner.command_line command args
                           +:+ JsString.nl +:+ stderr_of data).
        destruct code as [[| |]|]; done.
      * split_and!; auto 10 with contains.
  - intros error. cbn zeta. rewrite fold_left_app. cbn [fold_left].
    match goal with
    | |- context [fold_left _ rest ?s] =>
        destruct (RunnerFacts.spawn_settled_stable command args timeoutMs
                    rest s) as (Ht' & Hp' & Hk')
    end.
    + done.
    + cbn. rewrite Hp. by eexists.
    + rewrite Ht', Hp', Hk'. cbn. by rewrite Hp, Hk.
Qed.

Lemma spawn_collects_and_reports_witness :
  forallb Runner.is_data
    [StdoutData "a"; StderrData "w1"; StdoutData "b"; StderrData "w2"] = true
  ∧ Runner.sp_promise
      (Runner.spawn_run "yosys" ["-s"; "synth.ys"] 1000
         ([StdoutData "a"; StderrData "w1"; StdoutData "b"; StderrData "w2"]
          ++ Close (Some 0%Z) :: [StdoutData "late"; SpawnTimerExpires]))
    = Some (Fulfilled ("ab", "w1w2")).
Proof.
  split; [reflexivity |].
  exact (proj1 (proj2 (spawn_collects_and_reports "yosys" ["-s"; "synth.ys"]
                         1000
                         [StdoutData "a"; StderrData "w1"; StdoutData "b";
                          StderrData "w2"]
                         [StdoutData "late"; SpawnTimerExpires] eq_refl))).
Defined.

(** ** The latest run *)

(** X5. [runs.sort().reverse()[0]], which the flow driver, the layout
    viewer and the report reader use to pick the run to look at: it is
    undefined exactly for an empty listing; otherwise it is an entry of the
    listing, and no entry comes after it in the order of code units (a
    proper prefix before the longer name).  So the choice does not depend
    on the order in which the directory was listed. *)
Theorem latest_is_greatest (runs runs' : list string) :
  (latest runs = None ↔ runs = [])
  ∧ (∀ r, latest runs = Some r ↔ r ∈ runs ∧ ∀ x, x ∈ runs → String.le x r)
  ∧ (runs ≡ₚ runs' → latest runs = latest runs').
Proof.
  split_and!.
  - split; [apply latest_none | by intros ->].
  - apply latest_spec.
  - intros Hperm.
    destruct (latest runs) as [r|] eqn:Hr.
    + symmetry. apply latest_spec. apply latest_spec in Hr as [Hin Hmax].
      split; [by rewrite <- Hperm |]. intros x Hx. apply Hmax.
      by rewrite Hperm.
    + apply latest_none in Hr. subst runs.
      apply Permutation_nil_l in Hperm. by subst runs'.
Qed.

(** ** Drivers that only look *)

(** X6. The three drivers that work on a registered project only look:
    whatever they find, they leave the registry as it was, and the calls
    they make are listings, reads, access probes and commands, never
    [mkdir] or [writeFile] and never a draw of an identifier.  The report
    reader makes listings and reads only; so where listing and reading do
    not change the world, it leaves the whole state as it found it, and
    asking again gives the same answer. *)
Theorem inspection_only_looks `{Platform} {env : Environment}
    (p : prog json) (σ : state) (Hp : inspection p) :
  projects (exec p σ).1.2 = projects σ
  ∧ Forall (about observing) (exec p σ).2
  ∧ ∀ projectId reportType,
      p = readOpenlaneReports projectId reportType →
      Forall (about reading) (exec p σ).2
      ∧ ((∀ X (c : call X) w, reading X c → (answer c w).2 = w) →
         (exec p σ).1.2 = σ ∧ exec p (exec p σ).1.2 = exec p σ).
Proof.
  split_and!.
  - apply exec_no_sets.
    destruct Hp; [apply sets_viewWaveform | apply sets_viewGds
                 | apply sets_readOpenlaneReports].
  - apply exec_calls.
    destruct Hp; [apply calls_viewWaveform | apply calls_viewGds |].
    eapply calls_mono; [apply reading_observing |].
    apply calls_readOpenlaneReports.
  - intros projectId reportType ->. split.
    + apply exec_calls, calls_readOpenlaneReports.
    + intros Hkept.
      assert (Hsame : (exec (readOpenlaneReports projectId reportType) σ).1.2
                      = σ).
      { pose proof (exec_no_sets (readOpenlaneReports projectId reportType) σ
                      (sets_readOpenlaneReports _ _ _)) as Hprojects.
        pose proof (exec_world_kept reading
                      (readOpenlaneReports projectId reportType) σ Hkept
                      (calls_readOpenlaneReports _ _)) as Hworld.
        destruct (exec _ σ) as [[o [registry w]] evs]. destruct σ.
        cbn in *. by subst. }
      split; [done | by rewrite Hsame].
Qed.

Lemma inspection_only_looks_witness :
  projects (exec (viewGds "k3x9" None) KindExample.start).1.2
  = projects KindExample.start
  ∧ Forall (about observing) (exec (viewGds "k3x9" None) KindExample.start).2.
Proof.
  destruct (inspection_only_looks (viewGds "k3x9" None) KindExample.start
              (inspection_layout "k3x9" None)) as (Hregistry & Hcalls & _).
  split; [exact Hregistry | exact Hcalls].
Defined.

(** ** The summary of a run *)

Lemma says_coherent `{Platform} (r : results)
    (synthesis timing final : option string) :
  says r synthesis timing final → coherent r.
Proof.
  intros (Hreports & Hs & Hr & Hc & Hslack & Hclean).
  exists (present timing). rewrite Hreports, Hs, Hr, Hc, Hslack, Hclean.
  split_and!.
  - rewrite !map_app. by destruct synthesis, timing, final.
  - destruct timing as [text|]; [|done]. cbn.
    by destruct (slack_in text).
  - destruct synthesis; [done |]. by intros [? ?].
Qed.

Lemma issues_none (r : results) :
  issues_of r = []
  ↔ synthesis_complete r && timing_clean r && routing_complete r = true.
Proof.
  unfold issues_of.
  by destruct (synthesis_complete r), (timing_clean r), (routing_complete r).
Qed.



(** ** The waveform viewer *)

Lemma substring_suffix (before suffix : string) :
  String.substring (String.length before) (String.length suffix)
    (before +:+ suffix) = suffix.
Proof.
  induction before as [|c before IH].
  - change ("" +:+ suffix) with suffix. cbn [String.length].
    induction suffix as [|c suffix IH]; [done |]. cbn. by rewrite IH.
  - rewrite append_cons. cbn. exact IH.
Qed.

Lemma substring_split (n : nat) (s : string) :
  n ≤ String.length s →
  s = String.substring 0 n s +:+ String.substring n (String.length s - n) s.
Proof.
  revert s. induction n as [|n IH]; intros s Hn.
  - rewrite Nat.sub_0_r.
    replace (String.substring 0 0 s) with "" by (by destruct s).
    change ("" +:+ ?t) with t. clear Hn.
    induction s as [|c s IHs]; [done |]. cbn. by rewrite <- IHs.
  - destruct s as [|c s]; [cbn in Hn; lia |]. cbn in Hn. cbn.
    rewrite append_cons. f_equal. apply IH. lia.
Qed.

(** [endsWith] decides [ends_with]. *)
Lemma endsWith_spec (suffix s : string) :
  JsString.endsWith suffix s = true ↔ ends_with suffix s.
Proof.
  unfold JsString.endsWith, ends_with. split.
  - intros Hends. apply andb_prop in Hends as [Hlen Heq].
    apply Nat.leb_le in Hlen. apply String.eqb_eq in Heq.
    exists (String.substring 0 (String.length s - String.length suffix) s).
    pose proof (substring_split (String.length s - String.length suffix) s)
      as Hsplit.
    replace (String.length s - (String.length s - String.length suffix))
      with (String.length suffix) in Hsplit by lia.
    rewrite Heq in Hsplit. apply Hsplit. lia.
  - intros [before ->]. rewrite length_append.
    apply andb_true_intro. split; [apply Nat.leb_le; lia |].
    apply String.eqb_eq.
    replace (String.length before + String.length suffix
             - String.length suffix) with (String.length before) by lia.
    apply substring_suffix.
Qed.

Ltac stroll :=
  repeat first
    [ split_pair | next_answer
    | progress cbn [negb andb bind try_catch exec world projects] ].

(** X8. When the waveform file of a registered project cannot be accessed,
    the viewer runs no command at all and answers [{success: false}].
    If the project directory can be listed, the answer names the file and
    the project, and [available_vcd_files] holds, in the order of the
    listing, exactly the entries whose name ends in [.vcd]; if it cannot,
    the answer carries the error of the listing. *)
Theorem missing_waveform_lists_candidates `{Platform} {env : Environment}
    (projectId vcdFile : string) (project : project) (σ σ' : state)
    (o : outcome json) (evs : list event)
    (Hknown : projects σ !! projectId = Some project)
    (Hrun : exec (viewWaveform projectId vcdFile) σ = (o, σ', evs))
    (Hmissing : Exists (accessed (path_join [dir project; vcdFile]) false)
                  evs) :
  Forall (λ ev, ¬ about probing ev) evs
  ∧ ∃ j, o = Returned j
         ∧ field "success" j = Some (JBool false)
         ∧ (∀ files,
              Exists (listed (dir project) (Fulfilled files)) evs →
              ∃ names msg,
                field "available_vcd_files" j = Some (JArr (map JStr names))
                ∧ names `sublist_of` files
                ∧ (∀ f, f ∈ names ↔ f ∈ files ∧ ends_with ".vcd" f)
                ∧ field "error" j = Some (JStr msg)
                ∧ JsString.contains vcdFile msg
                ∧ JsString.contains projectId msg)
         ∧ (∀ e, Exists (listed (dir project) (Rejected e)) evs →
                 j = failure e).
Proof.
  revert Hrun. unfold viewWaveform. open_program. rewrite Hknown.
  open_program. stroll.
  all: intros [= <- <- <-].
  all: decide_events Hmissing.
  all: try (destruct Hmissing as [_ Hfound]; discriminate Hfound).
  - split; [repeat constructor; cbn; tauto |].
    eexists. split_and!; [reflexivity | reflexivity | |].
    + intros files Hlisted. decide_events Hlisted.
      destruct Hlisted as [_ [= <-]].
      eexists _, _. split_and!; [reflexivity | apply sublist_filter | |
                                  reflexivity | |].
      * intros f. rewrite list_elem_of_filter, <- endsWith_spec.
        rewrite Is_true_true. tauto.
      * auto 10 with contains.
      * auto 10 with contains.
    + intros e Hlisted. decide_events Hlisted.
      destruct Hlisted as [_ Hhow]. discriminate Hhow.
  - split; [repeat constructor; cbn; tauto |].
    eexists. split_and!; [reflexivity | reflexivity | |].
    + intros files Hlisted. decide_events Hlisted.
      destruct Hlisted as [_ Hhow]. discriminate Hhow.
    + intros e Hlisted. decide_events Hlisted.
      by destruct Hlisted as [_ [= <-]].
Qed.

Lemma missing_waveform_lists_candidates_witness :
  Forall (λ ev, ¬ about probing ev) WaveformExample.waveform_run.2
  ∧ ∃ j, WaveformExample.waveform_run.1.1 = Returned j
         ∧ field "success" j = Some (JBool false).
Proof.
  destruct (missing_waveform_lists_candidates "k3x9" "output.vcd"
              KindExample.simulation_project WaveformExample.other_dumps
              WaveformExample.waveform_run.1.2 WaveformExample.waveform_run.1.1
              WaveformExample.waveform_run.2)
    as (Hquiet & j & Hj & Hfailed & _).
  - reflexivity.
  - apply triple_eta.
  - vm_compute. apply Exists_cons_hd. split; reflexivity.
  - split; [exact Hquiet |]. exists j. split; [exact Hj | exact Hfailed].
Defined.

(** ** Starting a viewer *)

Lemma filter_first {A : Type} (P : A → Prop) `{∀ x, Decision (P x)}
    (l : list A) (x : A) (rest : list A) :
  filter P l = x :: rest →
  ∃ before after,
    l = before ++ x :: after ∧ P x ∧ Forall (λ y, ¬ P y) before.
Proof.
  induction l as [|y l IH]; [done |]. rewrite filter_cons.
  destruct (decide (P y)) as [Hy|Hy].
  - intros [= -> <-]. by exists [], l.
  - intros Hrest. destruct (IH Hrest) as (before & after & -> & Hx & Hbefore).
    exists (y :: before), after. split_and!; [done | done |].
    by constructor.
Qed.

Ltac amble :=
  repeat first
    [ split_pair | next_answer | await_child
    | progress cbn [negb andb bind try_catch exec world projects]
    | match goal with
      | |- context [match latest ?runs with _ => _ end] =>
          destruct (latest runs) eqn:?
      | |- context [match filter ?P ?l with _ => _ end] =>
          destruct (filter P l) eqn:?
      | |- context [if String.eqb ?s "" then _ else _] =>
          destruct (String.eqb_spec s "")
      end ].

(** X9. A viewer is started only on a file that was found.  For a
    registered project, the waveform viewer runs a command other than the
    probe [which gtkwave] only when the file, joined to the project
    directory, was accessible and the probe succeeded, and that command is
    [gtkwave] on that very path.  The layout viewer starts a child process
    only on a path that is not empty and was accessible, with the command
    [open -a KLayout] on that path: the named file joined to the project
    directory when the request names one (no directory is listed then),
    else the first entry ending in [.gds] of [final/gds] in the latest
    run. *)
Theorem viewer_opens_found_file `{Platform} {env : Environment}
    (projectId : string) (project : project) (σ : state)
    (Hknown : projects σ !! projectId = Some project) :
  (∀ vcdFile o σ' evs command,
     exec (viewWaveform projectId vcdFile) σ = (o, σ', evs) →
     Exists (ran command) evs → command ≠ "which gtkwave" →
     let vcdPath := path_join [dir project; vcdFile] in
     command = "gtkwave " +:+ JsString.dq +:+ vcdPath +:+ JsString.dq +:+ " &"
     ∧ Exists (accessed vcdPath true) evs
     ∧ ∃ out, Exists (ran_and_settled "which gtkwave" (Fulfilled out)) evs)
  ∧ (∀ gdsFile o σ' evs command,
       exec (viewGds projectId gdsFile) σ = (o, σ', evs) →
       Exists (started command) evs →
       ∃ gdsPath,
         command = "open -a KLayout " +:+ JsString.dq +:+ gdsPath
                   +:+ JsString.dq
         ∧ gdsPath ≠ ""
         ∧ Exists (accessed gdsPath true) evs
         ∧ match nonempty gdsFile with
           | Some name =>
               gdsPath = path_join [dir project; name]
               ∧ Forall (λ ev, ¬ about reading ev) evs
           | None =>
               let runsDir := path_join [dir project; "runs"] in
               ∃ runs latestRun files first before after,
                 Exists (listed runsDir (Fulfilled runs)) evs
                 ∧ latest runs = Some latestRun
                 ∧ Exists (listed (path_join [runsDir; latestRun; "final"; "gds"])
                             (Fulfilled files)) evs
                 ∧ files = before ++ first :: after
                 ∧ ends_with ".gds" first
                 ∧ Forall (λ f, ¬ ends_with ".gds" f) before
                 ∧ gdsPath = path_join [path_join [runsDir; latestRun;
                                                   "final"; "gds"]; first]
           end).
Proof.
  split.
  - intros vcdFile o σ' evs command Hrun Hran Hother vcdPath. subst vcdPath.
    revert Hrun. unfold viewWaveform. open_program. rewrite Hknown.
    open_program. stroll.
    all: intros [= <- <- <-].
    all: decide_events Hran; try (by subst command).
    all: split_and!; [by subst command | find_event ltac:(by cbn) |].
    all: eexists; find_event ltac:(by cbn).
  - intros gdsFile o σ' evs command. unfold viewGds, locateGds, firstGds.
    unfold execAsyncWithTimeout. open_program. rewrite Hknown.
    destruct (nonempty gdsFile) as [name|] eqn:Hname.
    all: open_program; amble.
    all: intros [= <- <- <-] Hstarted.
    all: decide_events Hstarted.
    all: eexists; (split; [|split; [|split]]);
      [by subst command | done | find_event ltac:(by cbn) | ].
    all: try (split; [reflexivity | repeat constructor; cbn; tauto]).
    all: match goal with
         | Hfilter : filter _ _ = _ :: _ |- _ =>
             apply filter_first in Hfilter
               as (before & after & -> & Hgds & Hbefore)
         end.
    all: do 6 eexists; split_and!;
      [ find_event ltac:(by cbn) | eassumption | find_event ltac:(by cbn)
      | reflexivity | by apply endsWith_spec, Is_true_true
      | | reflexivity ].
    all: eapply Forall_impl; [exact Hbefore |].
    all: intros f Hf Hends; apply Hf, Is_true_true, endsWith_spec, Hends.
Qed.

Lemma viewer_opens_found_file_witness :
  ∃ gdsPath,
    gdsPath = "/home/u/openlane-projects/adder_k3x9/adder.gds"
    ∧ Exists (accessed gdsPath true) LayoutExample.layout_run.2.
Proof.
  destruct (viewer_opens_found_file "k3x9" ReportExamples.flow_project
              LayoutExample.with_layout eq_refl) as [_ Hlayout].
  destruct (Hlayout (Some "adder.gds") LayoutExample.layout_run.1.1
              LayoutExample.layout_run.1.2 LayoutExample.layout_run.2
              ("open -a KLayout " +:+ JsString.dq
               +:+ "/home/u/openlane-projects/adder_k3x9/adder.gds"
               +:+ JsString.dq))
    as (gdsPath & _ & _ & Haccessed & Hpath & _).
  - apply triple_eta.
  - vm_compute. apply Exists_cons_tl, Exists_cons_hd. reflexivity.
  - exists gdsPath. split; [exact Hpath | exact Haccessed].
Defined.

(** ** When a workspace is registered *)

Ltac quiet :=
  repeat first
    [ done
    | apply sets_await | apply sets_perform | apply sets_findPython
    | apply sets_execAsyncWithTimeout | apply sets_findLatestRun
    | apply sets_launchKlayout | apply sets_commandExists
    | apply sets_readFile
    | apply sets_try_catch; [|intros ?]
    | apply sets_bind; [|intros ?]
    | match goal with
      | |- sets _ (let '(_, _) := ?x in _) => destruct x
      end ].

Section Registration.

Context `{Platform} {env : Environment}.
Variable this : EDAServer.

Lemma runOpenlane_registers (σ σ' : state)
    (verilogCode designName clockPort : string) (clockPeriod : Q)
    (openInKlayout : bool) (o : outcome json) (evs : list event) :
  exec (runOpenlane this verilogCode designName clockPort clockPeriod
          openInKlayout) σ = (o, σ', evs) →
  ∃ fraction rest,
    evs = Performed MathRandomToString36 fraction :: rest
    ∧ projects σ'
      = <[projectId_of fraction :=
            {| dir := path_join [openlaneDir this;
                                 designName +:+ "_" +:+ projectId_of fraction];
               type := "openlane" |}]> (projects σ).
Proof.
  unfold runOpenlane. rewrite exec_try_catch, exec_bind.
  unfold newProjectId at 1. unfold perform at 1.
  cbn [mbind prog_bind bind exec].
  destruct (answer MathRandomToString36 (world σ)) as [fraction w].
  cbn [exec projects world].
  match goal with
  | |- context [exec ?body {| projects := ?m; world := w |}] =>
      pose proof (exec_no_sets body {| projects := m; world := w |}) as Hbody;
      destruct (exec body {| projects := m; world := w |})
        as [[o1 σ1] evs1]
  end.
  cbn [fst snd projects] in Hbody. specialize (Hbody ltac:(quiet)).
  destruct o1 as [j|e|].
  - intros [= <- <- <-]. by eexists _, _.
  - unfold perform. cbn [mbind prog_bind bind exec].
    destruct (answer _ (world σ1)) as [[] w1]. cbn [exec].
    intros [= <- <- <-]. by eexists _, _.
  - intros [= <- <- <-]. by eexists _, _.
Qed.

Lemma synthesizeVerilog_registers (σ σ' : state)
    (verilogCode topModule target : string) (o : outcome json)
    (evs : list event) :
  exec (synthesizeVerilog this verilogCode topModule target) σ
  = (o, σ', evs) →
  ∃ fraction made rest,
    let projectDir :=
      path_join [tempDir this; "project_" +:+ projectId_of fraction] in
    evs = Performed MathRandomToString36 fraction
          :: Performed (FsMkdir projectDir) made :: rest
    ∧ match made with
      | Fulfilled _ =>
          projects σ'
          = <[projectId_of fraction :=
                {| dir := projectDir; type := "synthesis" |}]> (projects σ)
      | Rejected e =>
          projects σ' = projects σ ∧ rest = [] ∧ o = Returned (failure e)
      end.
Proof.
  unfold synthesizeVerilog. rewrite exec_try_catch, exec_bind.
  unfold newProjectId at 1. unfold perform at 1.
  cbn [mbind prog_bind bind exec].
  destruct (answer MathRandomToString36 (world σ)) as [fraction w].
  cbn [exec projects world]. rewrite exec_bind, exec_await.
  cbn [projects world].
  destruct (answer (FsMkdir _) w) as [[[]|e] w1]; cbn [exec projects world].
  - match goal with
    | |- context [exec ?body {| projects := ?m; world := w1 |}] =>
        pose proof (exec_no_sets body {| projects := m; world := w1 |})
          as Hbody;
        destruct (exec body {| projects := m; world := w1 |})
          as [[o1 σ1] evs1]
    end.
    cbn [fst snd projects] in Hbody. specialize (Hbody ltac:(quiet)).
    destruct o1 as [j|e|]; cbn [exec]; intros [= <- <- <-];
      by eexists _, (Fulfilled tt), _.
  - intros [= <- <- <-]. by eexists _, (Rejected e), _.
Qed.

Lemma simulateVerilog_registers (σ σ' : state)
    (verilogCode testbenchCode : string) (o : outcome json)
    (evs : list event) :
  exec (simulateVerilog this verilogCode testbenchCode) σ = (o, σ', evs) →
  ∃ fraction made rest,
    let projectDir :=
      path_join [tempDir this; "sim_project_" +:+ projectId_of fraction] in
    evs = Performed MathRandomToString36 fraction
          :: Performed (FsMkdir projectDir) made :: rest
    ∧ match made with
      | Fulfilled _ =>
          projects σ'
          = <[projectId_of fraction :=
                {| dir := projectDir; type := "simulation" |}]> (projects σ)
      | Rejected e =>
          projects σ' = projects σ ∧ rest = [] ∧ o = Returned (failure e)
      end.
Proof.
  unfold simulateVerilog. rewrite exec_try_catch, exec_bind.
  unfold newProjectId at 1. unfold perform at 1.
  cbn [mbind prog_bind bind exec].
  destruct (answer MathRandomToString36 (world σ)) as [fraction w].
  cbn [exec projects world]. rewrite exec_bind, exec_await.
  cbn [projects world].
  destruct (answer (FsMkdir _) w) as [[[]|e] w1]; cbn [exec projects world].
  - match goal with
    | |- context [exec ?body {| projects := ?m; world := w1 |}] =>
        pose proof (exec_no_sets body {| projects := m; world := w1 |})
          as Hbody;
        destruct (exec body {| projects := m; world := w1 |})
          as [[o1 σ1] evs1]
    end.
    cbn [fst snd projects] in Hbody. specialize (Hbody ltac:(quiet)).
    destruct o1 as [j|e|]; cbn [exec]; intros [= <- <- <-];
      by eexists _, (Fulfilled tt), _.
  - intros [= <- <- <-]. by eexists _, (Rejected e), _.
Qed.

End Registration.

(** X10. When a workspace enters the registry.  The flow driver registers
    the project right after drawing the identifier, before it creates the
    directory: whatever the outcome of the request, also a failure whose
    envelope carries no identifier, the registry afterwards is the one
    before with the new record under the drawn identifier.  The synthesis
    and simulation drivers create the directory first: when [mkdir] is
    rejected they stop there, answer with its error and leave the registry
    as it was; once it succeeded the record is registered, whatever
    happens to the rest of the request. *)
Theorem workspace_registration `{Platform} {env : Environment}
    (this : EDAServer) (σ σ' : state) (o : outcome json) (evs : list event) :
  (∀ verilogCode designName clockPort clockPeriod openInKlayout,
     exec (runOpenlane this verilogCode designName clockPort clockPeriod
             openInKlayout) σ = (o, σ', evs) →
     ∃ fraction rest,
       evs = Performed MathRandomToString36 fraction :: rest
       ∧ projects σ'
         = <[projectId_of fraction :=
               {| dir := path_join [openlaneDir this;
                                    designName +:+ "_"
                                    +:+ projectId_of fraction];
                  type := "openlane" |}]> (projects σ))
  ∧ (∀ verilogCode topModule target,
       exec (synthesizeVerilog this verilogCode topModule target) σ
       = (o, σ', evs) →
       ∃ fraction made rest,
         let projectDir :=
           path_join [tempDir this; "project_" +:+ projectId_of fraction] in
         evs = Performed MathRandomToString36 fraction
               :: Performed (FsMkdir projectDir) made :: rest
         ∧ match made with
           | Fulfilled _ =>
               projects σ'
               = <[projectId_of fraction :=
                     {| dir := projectDir; type := "synthesis" |}]>
                   (projects σ)
           | Rejected e =>
               projects σ' = projects σ ∧ rest = []
               ∧ o = Returned (failure e)
           end)
  ∧ (∀ verilogCode testbenchCode,
       exec (simulateVerilog this verilogCode testbenchCode) σ
       = (o, σ', evs) →
       ∃ fraction made rest,
         let projectDir :=
           path_join [tempDir this;
                      "sim_project_" +:+ projectId_of fraction] in
         evs = Performed MathRandomToString36 fraction
               :: Performed (FsMkdir projectDir) made :: rest
         ∧ match made with
           | Fulfilled _ =>
               projects σ'
               = <[projectId_of fraction :=
                     {| dir := projectDir; type := "simulation" |}]>
                   (projects σ)
           | Rejected e =>
               projects σ' = projects σ ∧ rest = []
               ∧ o = Returned (failure e)
           end).
Proof.
  split_and!.
  - intros *. apply runOpenlane_registers.
  - intros *. apply synthesizeVerilog_registers.
  - intros *. apply simulateVerilog_registers.
Qed.

(** ** A flow that ran to its end *)

Section Flow.

Context `{Platform} {env : Environment}.

Lemma calls_findPython candidates pythonCmd :
  calls probing (findPython candidates pythonCmd).
Proof.
  induction candidates as [|candidate rest IH]; [done |].
  cbn [findPython]. apply calls_bind; [by apply calls_commandExists |].
  by intros [|].
Qed.

Lemma probes_hold_no_flow (command stdout stderr : string)
    (evs : list event) :
  Forall (about probing) evs →
  ¬ Exists (flow_captured command stdout stderr) evs.
Proof.
  intros Hall Hex. apply Exists_exists in Hex as (ev & Hin & Hflow).
  rewrite Forall_forall in Hall. specialize (Hall ev Hin).
  destruct ev as [X c x]. by destruct c.
Qed.

Lemma findLatestRun_returns (runsDir : string) (σ : state) :
  ∃ found σ' evs, exec (findLatestRun runsDir) σ = (Returned found, σ', evs).
Proof.
  pose proof (exec_leaves _ _ _ _ σ
                (leaves_findLatestRun (λ _, False) False runsDir)) as Hends.
  destruct (exec (findLatestRun runsDir) σ) as [[[found|e|] σ'] evs];
    [by eexists _, _, _ | done..].
Qed.

Lemma leaves_launchKlayout_status (openInKlayout : bool) (gdsFile : string) :
  leaves (λ status, openInKlayout = false ∨ gdsFile = "" → status = "")
    (λ _, False) (openInKlayout = true ∧ gdsFile ≠ "")
    (launchKlayout openInKlayout gdsFile).
Proof.
  unfold launchKlayout.
  destruct openInKlayout; [|by cbn].
  destruct (String.eqb_spec gdsFile "") as [->|Hgds]; [by cbn |].
  cbn [andb negb].
  assert (Hno : true = false ∨ gdsFile = "" → False) by (intros [|]; done).
  eapply leaves_try_catch with (T := λ _, True); [|by intros e _ ?; exfalso; auto].
  eapply leaves_bind; [apply (leaves_commandExists (λ _, True)) |].
  intros [|] _; [|by intros ?; exfalso; auto].
  eapply leaves_bind.
  - eapply leaves_mono; [| | |apply leaves_execAsyncWithTimeout]; [|done|done].
    intros a _. exact I.
  - intros _ _ ?. exfalso. auto.
Qed.

End Flow.

(** X11. A flow that ran to its end is reported as a success.  When the
    wrapper script was run and its promise was fulfilled, the flow driver
    never answers with a failure: what it does afterwards (looking for the
    latest run and its layout, starting the viewer) cannot fail the
    request.  It returns [{success: true}], with [gds_file] set to
    ["Not generated"] when no layout was found and an empty
    [klayout_status] when no layout was found or the viewer was not asked
    for; the only other outcome is that it still waits for the viewer it
    was asked to start. *)
Theorem completed_flow_reports_success `{Platform} {env : Environment}
    (this : EDAServer) (verilogCode designName clockPort : string)
    (clockPeriod : Q) (openInKlayout : bool) (σ σ' : state)
    (o : outcome json) (evs : list event)
    (projectDir stdout stderr : string)
    (Hrun : exec (runOpenlane this verilogCode designName clockPort
                    clockPeriod openInKlayout) σ = (o, σ', evs))
    (Hflow : Exists (flow_captured
                       (JsString.dq +:+ path_join [projectDir; "run_openlane.sh"]
                        +:+ JsString.dq) stdout stderr) evs) :
  match o with
  | Returned j =>
      field "success" j = Some (JBool true)
      ∧ ∃ gdsPath,
          field "gds_path" j = Some (JStr gdsPath)
          ∧ (gdsPath = "" → field "gds_file" j = Some (JStr "Not generated"))
          ∧ (openInKlayout = false ∨ gdsPath = "" →
             field "klayout_status" j = Some (JStr ""))
  | Thrown _ => False
  | NeverReturns => openInKlayout = true
  end.
Proof.
  revert Hrun. unfold runOpenlane. unfold execAsyncWithTimeout. open_program.
  repeat first [split_pair | next_answer | await_child | opaque_step].
  all: intros [= <- <- <-].
  all: repeat match goal with
              | Hpy : exec (findPython ?c ?d) ?s = (_, _, ?l) |- _ =>
                  lazymatch goal with
                  | _ : Forall (about probing) l |- _ => fail
                  | _ =>
                      let Hp := fresh "Hprobes" in
                      pose proof (exec_calls probing _ s
                                    (calls_findPython c d)) as Hp;
                      rewrite Hpy in Hp; cbn [snd] in Hp
                  end
              | Hlatest : exec (findLatestRun ?d) ?s = (Thrown _, _, _) |- _ =>
                  destruct (findLatestRun_returns d s) as (? & ? & ? & Hr);
                  rewrite Hr in Hlatest; discriminate Hlatest
              | Hlatest : exec (findLatestRun ?d) ?s = (NeverReturns, _, _)
                |- _ =>
                  destruct (findLatestRun_returns d s) as (? & ? & ? & Hr);
                  rewrite Hr in Hlatest; discriminate Hlatest
              | Hlaunch : exec (launchKlayout ?b ?g) ?s = (?o, _, _) |- _ =>
                  lazymatch goal with
                  | _ : b = false ∨ g = "" → _ |- _ => fail
                  | _ : b = true ∧ _ |- _ => fail
                  | _ =>
                      let Hs := fresh "Hstatus" in
                      pose proof (exec_leaves _ _ _ _ s
                                    (leaves_launchKlayout_status b g)) as Hs;
                      rewrite Hlaunch in Hs; cbn [fst] in Hs;
                      try contradiction
                  end
              end.
  all: try solve [ match goal with Hs : _ ∧ _ |- _ => apply Hs end ].
  all: try solve
         [ split; [reflexivity |]; eexists; split; [reflexivity |]; split;
           [ intros ->; reflexivity
           | intros Hidle;
             match goal with
             | Hs : _ → _ = "" |- _ => rewrite (Hs Hidle); reflexivity
             end ] ].
  all: exfalso.
  all: repeat first
         [ apply Exists_cons in Hflow as [Hflow | Hflow]
         | apply Exists_app in Hflow as [Hflow | Hflow]
         | apply Exists_nil in Hflow ].
  all: try match goal with
            | Hp : Forall (about probing) ?l, Hf : Exists _ ?l |- _ =>
                exact (probes_hold_no_flow _ _ _ _ Hp Hf)
            end.
  all: cbn in Hflow; try contradiction.
  all: destruct Hflow as [Hcommand Hpromise].
  all: try congruence.
  all: apply (f_equal (String.get 0)) in Hcommand.
  all: vm_compute in Hcommand; discriminate Hcommand.
Qed.

Lemma completed_flow_reports_success_witness :
  ∃ j, FlowExample.flow_run.1.1 = Returned j
       ∧ field "success" j = Some (JBool true)
       ∧ field "gds_file" j = Some (JStr "Not generated").
Proof.
  assert (Hout : ∃ j, FlowExample.flow_run.1.1 = Returned j
                      ∧ field "gds_path" j = Some (JStr ""))
    by (eexists; split; vm_compute; reflexivity).
  destruct Hout as (j & Hout & Hgds).
  assert (Hrun : exec (runOpenlane Fixture.server "module adder; endmodule"
                         "adder" "clk" 10 true) FlowExample.runs_to_end
                 = (Returned j, FlowExample.flow_run.1.2, FlowExample.flow_run.2))
    by (rewrite <- Hout; apply triple_eta).
  assert (Hflow : Exists
                    (flow_captured
                       (JsString.dq
                        +:+ path_join ["/home/u/openlane-projects/adder_123";
                                       "run_openlane.sh"] +:+ JsString.dq)
                       "flow done" "") FlowExample.flow_run.2).
  { vm_compute. do 17 apply Exists_cons_tl. apply Exists_cons_hd.
    split; reflexivity. }
  destruct (completed_flow_reports_success _ _ _ _ _ _ _ _ _ _ _ _ _
              Hrun Hflow) as (Hsuccess & gdsPath & Hpath & Hnone & _).
  exists j. split_and!; [done | done |]. apply Hnone. congruence.
Defined.

(** ** Looking for an interpreter *)

Lemma exec_commandExists {env : Environment} (command : string) (σ : state) :
  exec (commandExists command) σ =
    let '(r, w) := answer (ExecAsync ("which " +:+ command) no_options)
                     (world σ) in
    (Returned (match r with Fulfilled _ => true | Rejected _ => false end),
     {| projects := projects σ; world := w |},
     [Performed (ExecAsync ("which " +:+ command) no_options) r]).
Proof.
  unfold commandExists. rewrite exec_try_catch, exec_bind, exec_await.
  by destruct (answer _ (world σ)) as [[out|e] w].
Qed.

(** X12. The interpreter the flow is run with.  The candidates are probed
    with [which], one after the other in the order given, and probing
    stops at the first that is found, which is the result; candidates
    after it are not probed.  When every probe fails the default is
    returned.  The search never throws and leaves the registry alone. *)
Theorem findPython_first_found `{Platform} {env : Environment}
    (candidates : list string) (pythonCmd : string) (σ : state) :
  ∃ chosen σ' evs,
    exec (findPython candidates pythonCmd) σ = (Returned chosen, σ', evs)
    ∧ projects σ' = projects σ
    ∧ ((∃ before after out failed,
          candidates = before ++ chosen :: after
          ∧ Forall2 probe_failed before failed
          ∧ evs = failed
                  ++ [Performed (ExecAsync ("which " +:+ chosen) no_options)
                        (Fulfilled out)])
       ∨ (chosen = pythonCmd ∧ Forall2 probe_failed candidates evs)).
Proof.
  revert σ. induction candidates as [|candidate rest IH]; intros σ.
  - exists pythonCmd, σ, []. split_and!; [done | done |]. right.
    split; [done | constructor].
  - cbn [findPython]. rewrite exec_bind, exec_commandExists.
    destruct (answer _ (world σ)) as [[out|e] w].
    + exists candidate. eexists _, _. split_and!; [done | done |]. left.
      exists [], rest, out, []. split_and!; [done | constructor | done].
    + destruct (IH {| projects := projects σ; world := w |})
        as (chosen & σ' & evs & -> & Hregistry & Hprobes).
      exists chosen. eexists _, _. split_and!; [done | done |].
      assert (Hfailed : probe_failed candidate
                (Performed (ExecAsync ("which " +:+ candidate) no_options)
                   (Rejected e))) by (by exists e).
      destruct Hprobes as [(before & after & out & failed & -> & Hb & ->)
                          |[-> Hall]].
      * left.
        exists (candidate :: before), after, out,
          (Performed (ExecAsync ("which " +:+ candidate) no_options)
             (Rejected e) :: failed).
        split_and!; [done | by constructor | done].
      * right. split; [done | by constructor].
Qed.

(** ** What the tools are run on *)


(** ** The synthesis script *)

Lemma lower_char_idemp (c : ascii) :
  JsString.lower_char (JsString.lower_char c) = JsString.lower_char c.
Proof. destruct c as [[] [] [] [] [] [] [] []]; vm_compute; reflexivity. Qed.

Lemma toLowerCase_idemp (s : string) :
  JsString.toLowerCase (JsString.toLowerCase s) = JsString.toLowerCase s.
Proof.
  induction s as [|c s IH]; [done |]. cbn. by rewrite lower_char_idemp, IH.
Qed.

Lemma join_cons (sep p q : string) (rest : list string) :
  JsString.join sep (p :: q :: rest)
  = p +:+ sep +:+ JsString.join sep (q :: rest).
Proof. reflexivity. Qed.

Lemma contains_line (line : string) (before after : list string) :
  JsString.contains line (template (before ++ line :: after)).
Proof.
  unfold template.
  induction before as [|l before IH].
  - destruct after as [|q after]; [apply contains_refl |].
    cbn [app]. rewrite join_cons. auto with contains.
  - destruct before as [|q before]; cbn [app] in *; rewrite join_cons;
      auto with contains.
Qed.


(** ** Why no layout is shown *)

(** X15. When the layout viewer starts no child process for a registered
    project, it answers [{success: false, error}] and the error tells the
    three reasons apart: a directory that could not be listed ([runs/], or
    [final/gds] of the latest run) gives "No GDS files found in project.
    Run OpenLane flow first."; a path that could not be accessed gives
    "GDS file not found: " and the path; and when every listing succeeded
    and nothing was probed (no run, no entry ending in [.gds], or an empty
    path) the error is "No GDS file found to open.". *)
Theorem layout_failure_reasons `{Platform} {env : Environment}
    (projectId : string) (gdsFile : option string) (project : project)
    (σ σ' : state) (o : outcome json) (evs : list event)
    (Hknown : projects σ !! projectId = Some project)
    (Hrun : exec (viewGds projectId gdsFile) σ = (o, σ', evs))
    (Hquiet : ¬ Exists (λ ev, ∃ command, started command ev) evs) :
  ∃ message,
    o = Returned (failed message)
    ∧ (∀ path e, Exists (listed path (Rejected e)) evs →
         message = "No GDS files found in project. Run OpenLane flow first.")
    ∧ (∀ path, Exists (accessed path false) evs →
         message = "GDS file not found: " +:+ path)
    ∧ (Forall (λ ev, ∃ path entries, listed path (Fulfilled entries) ev) evs →
         message = "No GDS file found to open.").
Proof.
  revert Hrun. unfold viewGds, locateGds, firstGds.
  unfold execAsyncWithTimeout. open_program. rewrite Hknown.
  destruct (nonempty gdsFile) as [name|] eqn:Hname.
  all: open_program; amble.
  all: intros [= <- <- <-].
  all: try (exfalso; apply Hquiet; find_event ltac:(eexists; cbn; reflexivity)).
  all: eexists; split; [reflexivity |].
  all: split_and!.
  all: try (intros ? ? Hlisted; decide_events Hlisted;
            try destruct Hlisted as [_ Hhow]; try discriminate Hhow;
            reflexivity).
  all: try (intros ? Haccessed; decide_events Haccessed;
            try destruct Haccessed as [Hpath Hfound];
            try discriminate Hfound; by rewrite Hpath).
  all: try (intros Hall;
            repeat match goal with
                   | Hf : Forall _ (_ :: _) |- _ =>
                       let Hhd := fresh "Hhd" in
                       apply Forall_cons in Hf as [Hhd Hf];
                       destruct Hhd as (? & ? & Hhd); cbn in Hhd;
                       try contradiction;
                       try (destruct Hhd as [_ Hhd]; try discriminate Hhd)
                   end; reflexivity).
Qed.

Lemma layout_failure_reasons_witness :
  (exec (viewGds "k3x9" None) ReportExamples.not_run).1.1
  = Returned
      (failed "No GDS files found in project. Run OpenLane flow first.").
Proof.
  destruct (layout_failure_reasons "k3x9" None ReportExamples.flow_project
              ReportExamples.not_run
              (exec (viewGds "k3x9" None) ReportExamples.not_run).1.2
              (exec (viewGds "k3x9" None) ReportExamples.not_run).1.1
              (exec (viewGds "k3x9" None) ReportExamples.not_run).2)
    as (message & Hout & Hlisting & _).
  - reflexivity.
  - apply triple_eta.
  - intros Hstarted. apply Exists_cons in Hstarted as [[command Hc]|Hnil].
    + exact Hc.
    + by apply Exists_nil in Hnil.
  - rewrite Hout. do 2 f_equal.
    eapply (Hlisting "/home/u/openlane-projects/adder_k3x9/runs").
    vm_compute. apply Exists_cons_hd. split; reflexivity.
Defined.

(** ** Optional parameters *)

Lemma getStringProperty_delete_other (o : gmap string json)
    (key k d : string) :
  k ≠ key →
  getStringProperty (Some (delete key o)) k d = getStringProperty (Some o) k d.
Proof. intros Hne. unfold getStringProperty. by rewrite lookup_delete_ne. Qed.

Lemma getNumberProperty_delete_other (o : gmap string json)
    (key k : string) (d : Q) :
  k ≠ key →
  getNumberProperty (Some (delete key o)) k d = getNumberProperty (Some o) k d.
Proof. intros Hne. unfold getNumberProperty. by rewrite lookup_delete_ne. Qed.

Lemma openInKlayout_delete_other (o : gmap string json) (key : string) :
  "open_in_klayout" ≠ key →
  openInKlayout_of (Some (delete key o)) = openInKlayout_of (Some o).
Proof. intros Hne. unfold openInKlayout_of. by rewrite lookup_delete_ne. Qed.

Lemma getStringProperty_no_string (o : gmap string json) (key d : string)
    (v : json) :
  o !! key = Some v → (∀ s, v ≠ JStr s) →
  getStringProperty (Some (delete key o)) key d
  = getStringProperty (Some o) key d.
Proof.
  intros Hv Hno. unfold getStringProperty. rewrite lookup_delete_eq, Hv.
  destruct v; try done. by destruct (Hno s).
Qed.

Ltac other k :=
  try rewrite !(getStringProperty_delete_other _ _ k) by discriminate.

Ltac same_lookups :=
  unfold callTool, dispatch, validateRequiredString;
  other "verilog_code"; other "top_module"; other "target";
  other "testbench_code"; other "project_id"; other "vcd_file";
  other "design_name"; other "clock_port"; other "gds_file";
  other "report_type";
  try rewrite !getNumberProperty_delete_other by discriminate;
  try rewrite !openInKlayout_delete_other by discriminate.

(** X16. An optional parameter whose value the handler cannot use is
    treated as if it were not there, without any complaint: the handler
    does for the request what it does for the request without that
    property.  This holds for a clock period that is not a number (the
    flow then runs with 10), for a target, waveform file or clock port
    that is not a string, for a layout file or report type that is not a
    string or is empty, and for a viewer flag that is anything but
    [false] (the viewer is then asked for). *)
Theorem unusable_optional_like_absent `{Platform} (this : EDAServer)
    (name : string) (o : gmap string json) (key : string) (v : json)
    (Hvalue : o !! key = Some v)
    (Hunusable : unusable key v) :
  callTool this name (Some o) = callTool this name (Some (delete key o)).
Proof.
  destruct Hunusable as [[-> Hno]|[[Hkey Hno]|[[Hkey Hblank]|[-> Hno]]]].
  - same_lookups.
    replace (getNumberProperty (Some (delete "clock_period" o))
               "clock_period" 10)
      with (getNumberProperty (Some o) "clock_period" 10); [done |].
    unfold getNumberProperty. rewrite lookup_delete_eq, Hvalue.
    destruct v; try done. by destruct (Hno x).
  - apply list_elem_of_In in Hkey. cbn in Hkey.
    destruct Hkey as [<-|[<-|[<-|[]]]]; same_lookups;
      by rewrite (getStringProperty_no_string o _ _ v Hvalue Hno).
  - apply list_elem_of_In in Hkey. cbn in Hkey.
    destruct Hkey as [<-|[<-|[]]]; same_lookups;
      by rewrite (blank_like_absent o _ v _ Hvalue Hblank).
  - same_lookups.
    replace (openInKlayout_of (Some (delete "open_in_klayout" o)))
      with (openInKlayout_of (Some o)); [done |].
    unfold openInKlayout_of. rewrite lookup_delete_eq, Hvalue.
    by destruct v as [|[|]| | | |].
Qed.

Lemma unusable_optional_like_absent_witness :
  callTool Fixture.server "run_openlane"
    (Some {[ "verilog_code" := JStr "module adder; endmodule";
             "design_name" := JStr "adder";
             "clock_period" := JStr "20" ]})
  = callTool Fixture.server "run_openlane"
      (Some (delete "clock_period"
               {[ "verilog_code" := JStr "module adder; endmodule";
                  "design_name" := JStr "adder";
                  "clock_period" := JStr "20" ]})).
Proof.
  apply (unusable_optional_like_absent Fixture.server "run_openlane" _
           "clock_period" (JStr "20")).
  - reflexivity.
  - left. split; [reflexivity | discriminate].
Defined.
